(** * Workflow orchestration engine: model and properties

    A shallow embedding of [workflow-orchestration.py]: the entities
    (retry policy, task, stage, workflow), the in-process event bus, and the
    orchestrator (stage iteration, task dispatch with retries, dependency
    gating, administrative operations).

    Conventions of the embedding.
    - Python [int] is [Z]; the delays handed to [asyncio.sleep] are [Q]
      (a [float] is read as the rational it denotes; rounding and overflow of
      the machine format are outside the model).
    - Python dictionaries are [gmap]s; lists are [list]s.
    - Objects mutated in place (tasks, workflows) are records passed through
      the functions that mutate them and returned in their new state.  Every
      slot of a stage's task list holds a task object of its own, as the
      constructors in the source build them.
    - [datetime.now()] reads a tick counter and advances it; [random.random()]
      reads the next element of a stream of rationals.
    - The observable effects (events published, callbacks awaited, the error
      log of the bus, the per-attempt log line of the dispatcher, suspensions)
      are appended to a trace carried by the orchestrator state.  The other
      log lines are not kept. *)

From Stdlib Require Import ZArith QArith Qminmax Qpower Lia Lqa.
From stdpp Require Import gmap strings list fin_maps pretty.

Open Scope Z_scope.

(** ** Enumerations *)

Module WorkflowStatus.
Inductive t : Set :=
  | PENDING | RUNNING | COMPLETED | FAILED | CANCELLED | PAUSED.

#[global] Instance eq_dec : EqDecision t.
Proof. solve_decision. Defined.

Definition value (s : t) : string :=
  match s with
  | PENDING => "pending" | RUNNING => "running" | COMPLETED => "completed"
  | FAILED => "failed" | CANCELLED => "cancelled" | PAUSED => "paused"
  end.

(** The statuses a run or a cancellation ends in. *)
Definition terminal (s : t) : bool :=
  match s with
  | COMPLETED | FAILED | CANCELLED => true
  | PENDING | RUNNING | PAUSED => false
  end.
End WorkflowStatus.

Module TaskStatus.
Inductive t : Set :=
  | PENDING | RUNNING | COMPLETED | FAILED | SKIPPED | RETRYING.

#[global] Instance eq_dec : EqDecision t.
Proof. solve_decision. Defined.
End TaskStatus.

Module AgentType.
Inductive t : Set :=
  | ORCHESTRATOR | REQUIREMENT_ANALYSIS | ARCHITECTURE_PLANNING
  | TEMPLATE_SELECTION | CODE_GENERATION | TESTING | DEPLOYMENT.

#[global] Instance eq_dec : EqDecision t.
Proof. solve_decision. Defined.

Definition to_nat (a : t) : nat :=
  match a with
  | ORCHESTRATOR => 0 | REQUIREMENT_ANALYSIS => 1 | ARCHITECTURE_PLANNING => 2
  | TEMPLATE_SELECTION => 3 | CODE_GENERATION => 4 | TESTING => 5
  | DEPLOYMENT => 6
  end%nat.

Definition of_nat (n : nat) : option t :=
  match n with
  | 0 => Some ORCHESTRATOR | 1 => Some REQUIREMENT_ANALYSIS
  | 2 => Some ARCHITECTURE_PLANNING | 3 => Some TEMPLATE_SELECTION
  | 4 => Some CODE_GENERATION | 5 => Some TESTING | 6 => Some DEPLOYMENT
  | _ => None
  end%nat.

#[global] Instance countable : Countable t.
Proof. apply (inj_countable to_nat of_nat). intros []; reflexivity. Defined.

(** [str(agent_type)], as the f-string of the dispatcher formats it. *)
Definition str (a : t) : string :=
  match a with
  | ORCHESTRATOR => "AgentType.ORCHESTRATOR"
  | REQUIREMENT_ANALYSIS => "AgentType.REQUIREMENT_ANALYSIS"
  | ARCHITECTURE_PLANNING => "AgentType.ARCHITECTURE_PLANNING"
  | TEMPLATE_SELECTION => "AgentType.TEMPLATE_SELECTION"
  | CODE_GENERATION => "AgentType.CODE_GENERATION"
  | TESTING => "AgentType.TESTING"
  | DEPLOYMENT => "AgentType.DEPLOYMENT"
  end.
End AgentType.

(** ** Values, time, effects *)

(** The payloads: [Dict[str, Any]] and what the code stores in them. *)
#[warnings="-register-all"]
Inductive Value : Type :=
  | VNone
  | VBool (b : bool)
  | VInt (n : Z)
  | VStr (s : string)
  | VTime (t : nat)
  | VList (l : list Value)
  | VDict (d : list (string * Value)).

(** A reading of the clock. *)
Definition datetime : Set := nat.

(** [(later - earlier).total_seconds()], in ticks. *)
Definition total_seconds (later earlier : option datetime) : Value :=
  match later, earlier with
  | Some l, Some e => VInt (Z.of_nat l - Z.of_nat e)
  | _, _ => VNone
  end.

Definition isoformat (t : option datetime) : Value :=
  match t with
  | Some n => VTime n
  | None => VNone
  end.

(** A [Dict[str, Any]] literal, in the order its keys are written. *)
Abbreviation Payload := (list (string * Value)).

Fixpoint has_key (key : string) (data : Payload) : bool :=
  match data with
  | [] => false
  | (k, _) :: rest => if String.eqb k key then true else has_key key rest
  end.

(** [data[key]], when the key is there. *)
Fixpoint payload_get (key : string) (data : Payload) : option Value :=
  match data with
  | [] => None
  | (k, v) :: rest => if String.eqb k key then Some v else payload_get key rest
  end.

Inductive Effect : Type :=
  | Published (event_type : string) (data : Payload)
  | Invoked (callback : string) (data : Payload)
  | LogError (message : string)
  | LogExecuting (task_id : string) (attempt : Z)
  | Slept (delay : Q).

(** ** Entities *)

Module RetryPolicy.
Record t : Type := mk {
  max_attempts : Z;
  backoff_strategy : string;
  base_delay : Z;
  max_delay : Z;
  jitter : bool
}.

(** The dataclass defaults. *)
Definition default : t :=
  {| max_attempts := 3; backoff_strategy := "exponential";
     base_delay := 1; max_delay := 300; jitter := true |}.

Definition set_backoff_strategy (s : string) (p : t) : t :=
  {| max_attempts := max_attempts p; backoff_strategy := s;
     base_delay := base_delay p; max_delay := max_delay p;
     jitter := jitter p |}.
End RetryPolicy.

Module Task.
Record t : Type := mk {
  id : string;
  name : string;
  agent_type : AgentType.t;
  input_data : Payload;
  dependencies : list string;
  timeout : Z;
  retry_policy : RetryPolicy.t;
  status : TaskStatus.t;
  output_data : option Payload;
  error_details : option string;
  started_at : option datetime;
  completed_at : option datetime;
  attempt_count : Z;
  estimated_duration : Z
}.

(** [Task(id=..., name=..., agent_type=..., input_data=...,
    dependencies=..., timeout=...)] with the remaining defaults. *)
Definition new (id name : string) (agent_type : AgentType.t)
    (input_data : Payload) (dependencies : list string) (timeout : Z) : t :=
  {| id := id; name := name; agent_type := agent_type;
     input_data := input_data; dependencies := dependencies;
     timeout := timeout; retry_policy := RetryPolicy.default;
     status := TaskStatus.PENDING; output_data := None;
     error_details := None; started_at := None; completed_at := None;
     attempt_count := 0; estimated_duration := 60 |}.

Definition set_retry_policy (p : RetryPolicy.t) (k : t) : t :=
  {| id := id k; name := name k; agent_type := agent_type k;
     input_data := input_data k; dependencies := dependencies k;
     timeout := timeout k; retry_policy := p; status := status k;
     output_data := output_data k; error_details := error_details k;
     started_at := started_at k; completed_at := completed_at k;
     attempt_count := attempt_count k;
     estimated_duration := estimated_duration k |}.

Definition set_status (s : TaskStatus.t) (k : t) : t :=
  {| id := id k; name := name k; agent_type := agent_type k;
     input_data := input_data k; dependencies := dependencies k;
     timeout := timeout k; retry_policy := retry_policy k; status := s;
     output_data := output_data k; error_details := error_details k;
     started_at := started_at k; completed_at := completed_at k;
     attempt_count := attempt_count k;
     estimated_duration := estimated_duration k |}.

Definition set_output_data (v : option Payload) (k : t) : t :=
  {| id := id k; name := name k; agent_type := agent_type k;
     input_data := input_data k; dependencies := dependencies k;
     timeout := timeout k; retry_policy := retry_policy k;
     status := status k; output_data := v;
     error_details := error_details k; started_at := started_at k;
     completed_at := completed_at k; attempt_count := attempt_count k;
     estimated_duration := estimated_duration k |}.

Definition set_error_details (e : option string) (k : t) : t :=
  {| id := id k; name := name k; agent_type := agent_type k;
     input_data := input_data k; dependencies := dependencies k;
     timeout := timeout k; retry_policy := retry_policy k;
     status := status k; output_data := output_data k; error_details := e;
     started_at := started_at k; completed_at := completed_at k;
     attempt_count := attempt_count k;
     estimated_duration := estimated_duration k |}.

Definition set_started_at (d : option datetime) (k : t) : t :=
  {| id := id k; name := name k; agent_type := agent_type k;
     input_data := input_data k; dependencies := dependencies k;
     timeout := timeout k; retry_policy := retry_policy k;
     status := status k; output_data := output_data k;
     error_details := error_details k; started_at := d;
     completed_at := completed_at k; attempt_count := attempt_count k;
     estimated_duration := estimated_duration k |}.

Definition set_completed_at (d : option datetime) (k : t) : t :=
  {| id := id k; name := name k; agent_type := agent_type k;
     input_data := input_data k; dependencies := dependencies k;
     timeout := timeout k; retry_policy := retry_policy k;
     status := status k; output_data := output_data k;
     error_details := error_details k; started_at := started_at k;
     completed_at := d; attempt_count := attempt_count k;
     estimated_duration := estimated_duration k |}.

Definition set_attempt_count (n : Z) (k : t) : t :=
  {| id := id k; name := name k; agent_type := agent_type k;
     input_data := input_data k; dependencies := dependencies k;
     timeout := timeout k; retry_policy := retry_policy k;
     status := status k; output_data := output_data k;
     error_details := error_details k; started_at := started_at k;
     completed_at := completed_at k; attempt_count := n;
     estimated_duration := estimated_duration k |}.
End Task.

Module WorkflowStage.
Record t : Type := mk {
  name : string;
  tasks : list Task.t;
  parallel_execution : bool;
  failure_strategy : string
}.

(** [WorkflowStage(name=..., tasks=...)] with the defaults. *)
Definition new (name : string) (tasks : list Task.t) : t :=
  {| name := name; tasks := tasks; parallel_execution := false;
     failure_strategy := "stop_on_error" |}.

Definition set_tasks (l : list Task.t) (s : t) : t :=
  {| name := name s; tasks := l;
     parallel_execution := parallel_execution s;
     failure_strategy := failure_strategy s |}.


Definition set_parallel_execution (b : bool) (s : t) : t :=
  {| name := name s; tasks := tasks s; parallel_execution := b;
     failure_strategy := failure_strategy s |}.
End WorkflowStage.

Module Workflow.
Record t : Type := mk {
  id : string;
  name : string;
  project_id : string;
  stages : list WorkflowStage.t;
  status : WorkflowStatus.t;
  current_stage : Z;
  started_at : option datetime;
  completed_at : option datetime;
  metadata : Payload;
  error_details : option string
}.

(** [Workflow(id=..., name=..., project_id=..., stages=...)] with the
    defaults. *)
Definition new (id name project_id : string)
    (stages : list WorkflowStage.t) : t :=
  {| id := id; name := name; project_id := project_id; stages := stages;
     status := WorkflowStatus.PENDING; current_stage := 0;
     started_at := None; completed_at := None; metadata := [];
     error_details := None |}.

Definition set_stages (l : list WorkflowStage.t) (w : t) : t :=
  {| id := id w; name := name w; project_id := project_id w; stages := l;
     status := status w; current_stage := current_stage w;
     started_at := started_at w; completed_at := completed_at w;
     metadata := metadata w; error_details := error_details w |}.

Definition set_status (s : WorkflowStatus.t) (w : t) : t :=
  {| id := id w; name := name w; project_id := project_id w;
     stages := stages w; status := s; current_stage := current_stage w;
     started_at := started_at w; completed_at := completed_at w;
     metadata := metadata w; error_details := error_details w |}.

Definition set_current_stage (i : Z) (w : t) : t :=
  {| id := id w; name := name w; project_id := project_id w;
     stages := stages w; status := status w; current_stage := i;
     started_at := started_at w; completed_at := completed_at w;
     metadata := metadata w; error_details := error_details w |}.

Definition set_started_at (d : option datetime) (w : t) : t :=
  {| id := id w; name := name w; project_id := project_id w;
     stages := stages w; status := status w;
     current_stage := current_stage w; started_at := d;
     completed_at := completed_at w; metadata := metadata w;
     error_details := error_details w |}.

Definition set_completed_at (d : option datetime) (w : t) : t :=
  {| id := id w; name := name w; project_id := project_id w;
     stages := stages w; status := status w;
     current_stage := current_stage w; started_at := started_at w;
     completed_at := d; metadata := metadata w;
     error_details := error_details w |}.

Definition set_error_details (e : option string) (w : t) : t :=
  {| id := id w; name := name w; project_id := project_id w;
     stages := stages w; status := status w;
     current_stage := current_stage w; started_at := started_at w;
     completed_at := completed_at w; metadata := metadata w;
     error_details := e |}.
End Workflow.

(** ** Event bus *)

Module EventBus.

(** What awaiting a callable ends in: it returns, or it raises an exception
    of class [Exception] (what the handler of [publish] ranges over). *)
Inductive Outcome : Type :=
  | Returned
  | Raised (e : string).

Record Callback : Type := {
  callback_name : string;
  call : Payload -> Outcome
}.

Record t : Type := mk {
  subscribers : gmap string (list Callback)
}.

Definition init : t := {| subscribers := ∅ |}.

Definition subscribe (event_type : string) (callback : Callback) (bus : t)
    : t :=
  let subs :=
    match subscribers bus !! event_type with
    | None => <[event_type := []]> (subscribers bus)
    | Some _ => subscribers bus
    end in
  {| subscribers := alter (λ l, l ++ [callback]) event_type subs |}.

(** A computation of the bus: how it ends and the effects it had. *)
Abbreviation Run := (Outcome * list Effect)%type.

Definition and_then (first second : Run) : Run :=
  match first with
  | (Returned, tr) => let '(r, tr') := second in (r, tr ++ tr')
  | (Raised e, tr) => (Raised e, tr)
  end.

(** [try: body / except Exception as e: handler e]. *)
Definition try_except (body : Run) (handler : string → Run) : Run :=
  match body with
  | (Returned, tr) => (Returned, tr)
  | (Raised e, tr) => let '(r, tr') := handler e in (r, tr ++ tr')
  end.

Definition await (callback : Callback) (data : Payload) : Run :=
  (call callback data, [Invoked (callback_name callback) data]).

Definition logger_error (message : string) : Run :=
  (Returned, [LogError message]).

Fixpoint for_each (callbacks : list Callback) (body : Callback → Run)
    : Run :=
  match callbacks with
  | [] => (Returned, [])
  | callback :: rest => and_then (body callback) (for_each rest body)
  end.

Definition publish (event_type : string) (data : Payload) (bus : t) : Run :=
  match subscribers bus !! event_type with
  | Some callbacks =>
      for_each callbacks (λ callback,
        try_except (await callback data)
          (λ e, logger_error ("Error in event callback: " +:+ e)))
  | None => (Returned, [])
  end.

(** The callables registered for a type, in the order [publish] walks
    them. *)
Definition registered (event_type : string) (bus : t) : list Callback :=
  default [] (subscribers bus !! event_type).

(** The callbacks awaited in a trace, with the data handed to each. *)
Fixpoint invocations (trace : list Effect) : list (string * Payload) :=
  match trace with
  | [] => []
  | Invoked c d :: rest => (c, d) :: invocations rest
  | _ :: rest => invocations rest
  end.

End EventBus.

(** ** Agents *)

Module Agent.

(** What [await asyncio.wait_for(agent.execute_task(task), timeout)] ends
    in: the agent's result, [asyncio.TimeoutError], or an exception raised by
    the agent. *)
Inductive Outcome : Type :=
  | Returns (result : Payload)
  | TimesOut
  | Raises (e : string).

(** [execute_task] is the method subclasses override; it sees the task as it
    is when the call is made. *)
Record t : Type := mk {
  agent_id : string;
  agent_type : AgentType.t;
  status : string;
  current_tasks : Z;
  max_concurrent_tasks : Z;
  execute_task : Task.t → Outcome
}.

(** The base class's [execute_task]. *)
Definition base_execute_task (task : Task.t) : Outcome :=
  Returns
    [("status", VStr "success");
     ("message", VStr ("Task " +:+ Task.id task +:+ " completed successfully"));
     ("artifacts", VList [])].

(** [Agent(agent_id, agent_type)]. *)
Definition new (agent_id : string) (agent_type : AgentType.t) : t :=
  {| agent_id := agent_id; agent_type := agent_type; status := "active";
     current_tasks := 0; max_concurrent_tasks := 5;
     execute_task := base_execute_task |}.

Definition health_check (a : t) : bool :=
  String.eqb (status a) "active" && (current_tasks a <? max_concurrent_tasks a).

End Agent.

(** ** Orchestrator *)

Module WorkflowOrchestrator.

(** The four attributes of the instance, then the environment it runs in:
    the clock, the random source with the number of draws made, and the
    trace of effects. *)
Record t : Type := mk {
  event_bus : EventBus.t;
  agents : gmap AgentType.t (list Agent.t);
  active_workflows : gmap string Workflow.t;
  task_results : gmap string Payload;
  clock : nat;
  entropy : nat → Q;
  draws : nat;
  effects : list Effect
}.

Definition set_agents (a : gmap AgentType.t (list Agent.t)) (o : t) : t :=
  {| event_bus := event_bus o; agents := a;
     active_workflows := active_workflows o;
     task_results := task_results o; clock := clock o;
     entropy := entropy o; draws := draws o; effects := effects o |}.

Definition set_active_workflows (m : gmap string Workflow.t) (o : t) : t :=
  {| event_bus := event_bus o; agents := agents o; active_workflows := m;
     task_results := task_results o; clock := clock o;
     entropy := entropy o; draws := draws o; effects := effects o |}.

Definition set_task_results (m : gmap string Payload) (o : t) : t :=
  {| event_bus := event_bus o; agents := agents o;
     active_workflows := active_workflows o; task_results := m;
     clock := clock o; entropy := entropy o; draws := draws o;
     effects := effects o |}.

Definition set_clock (n : nat) (o : t) : t :=
  {| event_bus := event_bus o; agents := agents o;
     active_workflows := active_workflows o;
     task_results := task_results o; clock := n; entropy := entropy o;
     draws := draws o; effects := effects o |}.

Definition set_draws (n : nat) (o : t) : t :=
  {| event_bus := event_bus o; agents := agents o;
     active_workflows := active_workflows o;
     task_results := task_results o; clock := clock o;
     entropy := entropy o; draws := n; effects := effects o |}.

Definition set_effects (l : list Effect) (o : t) : t :=
  {| event_bus := event_bus o; agents := agents o;
     active_workflows := active_workflows o;
     task_results := task_results o; clock := clock o;
     entropy := entropy o; draws := draws o; effects := l |}.

(** *** The environment *)

(** [datetime.now()]. *)
Definition now (o : t) : datetime * t :=
  (clock o, set_clock (S (clock o)) o).

(** [random.random()]. *)
Definition random (o : t) : Q * t :=
  (entropy o (draws o), set_draws (S (draws o)) o).

(** [await asyncio.sleep(delay)]. *)
Definition sleep (delay : Q) (o : t) : t :=
  set_effects (effects o ++ [Slept delay]) o.

Definition log (e : Effect) (o : t) : t :=
  set_effects (effects o ++ [e]) o.

(** [await self.event_bus.publish(event_type, data)].  The bus returns
    normally whatever the subscribers do (lemma [publish_returns] below), so
    only its trace is kept. *)
Definition publish (event_type : string) (data : Payload) (o : t) : t :=
  let '(_, trace) := EventBus.publish event_type data (event_bus o) in
  set_effects (effects o ++ Published event_type data :: trace) o.

(** *** Construction *)

(** The three handlers subscribed by [__init__]; each reads keys of the
    payload (a missing key raises [KeyError]) and writes a log line. *)
Definition _handle_task_completed : EventBus.Callback :=
  {| EventBus.callback_name := "_handle_task_completed";
     EventBus.call := λ data,
       if has_key "task_id" data then EventBus.Returned
       else EventBus.Raised "'task_id'" |}.

Definition _handle_task_failed : EventBus.Callback :=
  {| EventBus.callback_name := "_handle_task_failed";
     EventBus.call := λ data,
       if has_key "task_id" data then
         if has_key "error" data then EventBus.Returned
         else EventBus.Raised "'error'"
       else EventBus.Raised "'task_id'" |}.

Definition _handle_agent_unavailable : EventBus.Callback :=
  {| EventBus.callback_name := "_handle_agent_unavailable";
     EventBus.call := λ data,
       if has_key "agent_id" data then EventBus.Returned
       else EventBus.Raised "'agent_id'" |}.

(** [WorkflowOrchestrator(event_bus)], started at clock 0 with the given
    random source. *)
Definition init (event_bus : EventBus.t) (entropy : nat → Q) : t :=
  let bus := EventBus.subscribe "task.completed" _handle_task_completed
               event_bus in
  let bus := EventBus.subscribe "task.failed" _handle_task_failed bus in
  let bus := EventBus.subscribe "agent.unavailable"
               _handle_agent_unavailable bus in
  {| event_bus := bus; agents := ∅; active_workflows := ∅;
     task_results := ∅; clock := O; entropy := entropy; draws := O;
     effects := [] |}.

Definition register_agent (agent : Agent.t) (o : t) : t :=
  let pools :=
    match agents o !! Agent.agent_type agent with
    | None => <[Agent.agent_type agent := []]> (agents o)
    | Some _ => agents o
    end in
  set_agents (alter (λ l, l ++ [agent]) (Agent.agent_type agent) pools) o.

(** *** Retry delay, dependency gating, agent selection *)

(** Lines 334-344 of [_calculate_retry_delay]: the delay the strategy gives,
    limited by [max_delay].  [2 ** (attempt - 1)] is a power of the rational
    2, so that a non-positive [attempt] gives the fraction Python computes. *)
Definition clamped_delay (policy : RetryPolicy.t) (attempt : Z) : Q :=
  let delay : Q :=
    if String.eqb (RetryPolicy.backoff_strategy policy) "fixed" then
      inject_Z (RetryPolicy.base_delay policy)
    else if String.eqb (RetryPolicy.backoff_strategy policy) "linear" then
      inject_Z (RetryPolicy.base_delay policy * attempt)
    else if String.eqb (RetryPolicy.backoff_strategy policy) "exponential"
    then (inject_Z (RetryPolicy.base_delay policy) * 2 ^ (attempt - 1))%Q
    else inject_Z (RetryPolicy.base_delay policy) in
  (* min(delay, policy.max_delay) *)
  if Qle_bool delay (inject_Z (RetryPolicy.max_delay policy)) then delay
  else inject_Z (RetryPolicy.max_delay policy).

Definition _calculate_retry_delay (task : Task.t) (o : t) : Q * t :=
  let policy := Task.retry_policy task in
  let attempt := Task.attempt_count task in
  let delay := clamped_delay policy attempt in
  if RetryPolicy.jitter policy then
    let '(r, o) := random o in
    ((delay * ((1 # 2) + r * (1 # 2)))%Q, o)
  else (delay, o).

Fixpoint dependencies_recorded (dependencies : list string)
    (results : gmap string Payload) : bool :=
  match dependencies with
  | [] => true
  | dependency_id :: rest =>
      match results !! dependency_id with
      | None => false
      | Some _ => dependencies_recorded rest results
      end
  end.

Definition _can_execute_task (task : Task.t) (o : t) : bool :=
  dependencies_recorded (Task.dependencies task) (task_results o).

Definition _get_available_agent (agent_type : AgentType.t) (o : t)
    : option Agent.t :=
  match agents o !! agent_type with
  | None => None
  | Some pool => List.find Agent.health_check pool
  end.

(** *** Task dispatch *)

Abbreviation Dispatch := (bool * Task.t * t)%type.

(** [retry] is the re-entry into [_execute_task]. *)
Definition _handle_task_failure
    (retry : Workflow.t → Task.t → t → option Dispatch)
    (workflow : Workflow.t) (task : Task.t) (o : t) : option Dispatch :=
  if Task.attempt_count task <? RetryPolicy.max_attempts (Task.retry_policy task)
  then
    let task := Task.set_status TaskStatus.RETRYING task in
    let '(delay, o) := _calculate_retry_delay task o in
    let o := sleep delay o in
    retry workflow task o
  else
    let task := Task.set_status TaskStatus.FAILED task in
    let '(t, o) := now o in
    let task := Task.set_completed_at (Some t) task in
    let o := publish "task.failed"
      [("workflow_id", VStr (Workflow.id workflow));
       ("task_id", VStr (Task.id task));
       ("error", match Task.error_details task with
                 | Some e => VStr e
                 | None => VNone
                 end);
       ("attempts", VInt (Task.attempt_count task))] o in
    Some (false, task, o).

(** [_execute_task] and [_handle_task_failure] call each other; [depth]
    bounds the nesting of these calls, and [None] is the bound reached. *)
Fixpoint _execute_task_rec (depth : nat) (workflow : Workflow.t)
    (task : Task.t) (o : t) : option Dispatch :=
  match depth with
  | O => None
  | S depth' =>
      let task := Task.set_attempt_count (Task.attempt_count task + 1) task in
      let task := Task.set_status TaskStatus.RUNNING task in
      let '(t, o) := now o in
      let task := Task.set_started_at (Some t) task in
      let o := log (LogExecuting (Task.id task) (Task.attempt_count task)) o in
      match _get_available_agent (Task.agent_type task) o with
      | None =>
          let task := Task.set_error_details
            (Some ("No available agent for type "
                   +:+ AgentType.str (Task.agent_type task))) task in
          _handle_task_failure (_execute_task_rec depth') workflow task o
      | Some agent =>
          match Agent.execute_task agent task with
          | Agent.Returns result =>
              let task := Task.set_status TaskStatus.COMPLETED task in
              let '(t, o) := now o in
              let task := Task.set_completed_at (Some t) task in
              let task := Task.set_output_data (Some result) task in
              let o := set_task_results
                         (<[Task.id task := result]> (task_results o)) o in
              let o := publish "task.completed"
                [("workflow_id", VStr (Workflow.id workflow));
                 ("task_id", VStr (Task.id task));
                 ("duration", total_seconds (Task.completed_at task)
                                (Task.started_at task));
                 ("result", VDict result)] o in
              Some (true, task, o)
          | Agent.TimesOut =>
              let task := Task.set_error_details
                (Some ("Task timed out after " +:+ pretty (Task.timeout task)
                       +:+ " seconds")) task in
              _handle_task_failure (_execute_task_rec depth') workflow task o
          | Agent.Raises e =>
              let task := Task.set_error_details (Some e) task in
              _handle_task_failure (_execute_task_rec depth') workflow task o
          end
      end
  end.

(** The nesting a dispatch can reach: one call, and one more for every
    attempt the policy still allows. *)
Definition call_depth (task : Task.t) : nat :=
  S (Z.to_nat (RetryPolicy.max_attempts (Task.retry_policy task)
               - Task.attempt_count task)).

Definition _execute_task (workflow : Workflow.t) (task : Task.t) (o : t)
    : Dispatch :=
  default (false, task, o)
    (_execute_task_rec (call_depth task) workflow task o).

(** *** Stage execution *)

(** The [for] loop over the stage's tasks; the second component is the task
    list after the pass, every task in its slot. *)
Fixpoint _execute_tasks_sequential (workflow : Workflow.t)
    (tasks : list Task.t) (o : t) : bool * list Task.t * t :=
  match tasks with
  | [] => (true, [], o)
  | task :: rest =>
      if negb (_can_execute_task task o) then
        let '(result, rest, o) := _execute_tasks_sequential workflow rest o in
        (result, task :: rest, o)
      else
        let '(success, task, o) := _execute_task workflow task o in
        if negb success then (false, task :: rest, o)
        else
          let '(result, rest, o) :=
            _execute_tasks_sequential workflow rest o in
          (result, task :: rest, o)
  end.

(** [asyncio.gather] over the executable tasks.  The coroutines work on
    distinct task objects; the model runs them to completion one after the
    other in list order, which fixes one order for their events, clock
    readings and store writes.  [eligible] is the gate as evaluated before
    the fan-out. *)
Fixpoint gather (workflow : Workflow.t) (eligible : Task.t → bool)
    (tasks : list Task.t) (o : t) : list bool * list Task.t * t :=
  match tasks with
  | [] => ([], [], o)
  | task :: rest =>
      if eligible task then
        let '(result, task, o) := _execute_task workflow task o in
        let '(results, rest, o) := gather workflow eligible rest o in
        (result :: results, task :: rest, o)
      else
        let '(results, rest, o) := gather workflow eligible rest o in
        (results, task :: rest, o)
  end.

Definition _execute_tasks_parallel (workflow : Workflow.t)
    (tasks : list Task.t) (o : t) : bool * list Task.t * t :=
  let eligible := λ task, _can_execute_task task o in
  let executable_tasks := List.filter eligible tasks in
  match executable_tasks with
  | [] => (true, tasks, o)
  | _ :: _ =>
      let '(results, tasks, o) := gather workflow eligible tasks o in
      (forallb (λ result, result) results, tasks, o)
  end.

Definition _execute_stage (workflow : Workflow.t) (stage : WorkflowStage.t)
    (o : t) : bool * WorkflowStage.t * t :=
  let '(result, tasks, o) :=
    if WorkflowStage.parallel_execution stage then
      _execute_tasks_parallel workflow (WorkflowStage.tasks stage) o
    else
      _execute_tasks_sequential workflow (WorkflowStage.tasks stage) o in
  (result, WorkflowStage.set_tasks tasks stage, o).

(** *** Workflow execution *)

(** How the loop over the stages ends: it runs out of stages, or the
    function returns [False] from inside it. *)
Inductive LoopExit : Set :=
  | Exhausted
  | ReturnedFalse.

(** [for stage_index, stage in enumerate(workflow.stages)], from
    [stage_index] on; [todo] are the stages not yet visited.  The stage as the
    pass leaves it is written back to its slot of [workflow.stages]. *)
Fixpoint stage_loop (stage_index : nat) (todo : list WorkflowStage.t)
    (workflow : Workflow.t) (o : t) : LoopExit * Workflow.t * t :=
  match todo with
  | [] => (Exhausted, workflow, o)
  | stage :: rest =>
      let workflow :=
        Workflow.set_current_stage (Z.of_nat stage_index) workflow in
      let '(stage_success, stage, o) := _execute_stage workflow stage o in
      let workflow :=
        Workflow.set_stages
          (<[stage_index := stage]> (Workflow.stages workflow)) workflow in
      if negb stage_success
         && String.eqb (WorkflowStage.failure_strategy stage) "stop_on_error"
      then
        let workflow :=
          Workflow.set_status WorkflowStatus.FAILED workflow in
        let workflow :=
          Workflow.set_error_details
            (Some ("Stage " +:+ WorkflowStage.name stage +:+ " failed"))
            workflow in
        (ReturnedFalse, workflow, o)
      else
        let o := publish "workflow.stage_completed"
          [("workflow_id", VStr (Workflow.id workflow));
           ("stage_name", VStr (WorkflowStage.name stage));
           ("stage_index", VInt (Z.of_nat stage_index));
           ("success", VBool stage_success)] o in
        stage_loop (S stage_index) rest workflow o
  end.

(** The dictionary of active workflows holds the workflow object itself:
    what the object has become is what the dictionary shows. *)
Definition store_workflow (workflow : Workflow.t) (o : t) : t :=
  set_active_workflows
    (<[Workflow.id workflow := workflow]> (active_workflows o)) o.

(** The body of [execute_workflow].  Inside its [try] block nothing raises
    in this model: the bus absorbs the exceptions of subscribers and
    [_execute_task] those of agents. *)
Definition execute_workflow (workflow : Workflow.t) (o : t)
    : bool * Workflow.t * t :=
  let workflow := Workflow.set_status WorkflowStatus.RUNNING workflow in
  let '(t, o) := now o in
  let workflow := Workflow.set_started_at (Some t) workflow in
  let o := store_workflow workflow o in
  let o := publish "workflow.started"
    [("workflow_id", VStr (Workflow.id workflow));
     ("project_id", VStr (Workflow.project_id workflow));
     ("timestamp", isoformat (Workflow.started_at workflow))] o in
  let '(exit, workflow, o) :=
    stage_loop 0 (Workflow.stages workflow) workflow o in
  match exit with
  | ReturnedFalse => (false, workflow, store_workflow workflow o)
  | Exhausted =>
      let workflow :=
        Workflow.set_status WorkflowStatus.COMPLETED workflow in
      let '(t, o) := now o in
      let workflow := Workflow.set_completed_at (Some t) workflow in
      let o := publish "workflow.completed"
        [("workflow_id", VStr (Workflow.id workflow));
         ("duration", total_seconds (Workflow.completed_at workflow)
                        (Workflow.started_at workflow));
         ("timestamp", isoformat (Workflow.completed_at workflow))] o in
      (true, workflow, store_workflow workflow o)
  end.

(** The [except Exception as e] clause of [execute_workflow], for a fault
    with message [e] raised while [workflow] and [o] are as given. *)
Definition execute_workflow_except (e : string) (workflow : Workflow.t)
    (o : t) : bool * Workflow.t * t :=
  let workflow := Workflow.set_status WorkflowStatus.FAILED workflow in
  let workflow := Workflow.set_error_details (Some e) workflow in
  let '(t, o) := now o in
  let o := publish "workflow.failed"
    [("workflow_id", VStr (Workflow.id workflow));
     ("error", VStr e);
     ("timestamp", VTime t)] o in
  (false, workflow, store_workflow workflow o).

(** *** Administrative operations *)

Definition pause_workflow (workflow_id : string) (o : t) : t :=
  match active_workflows o !! workflow_id with
  | Some workflow =>
      let workflow := Workflow.set_status WorkflowStatus.PAUSED workflow in
      set_active_workflows
        (<[workflow_id := workflow]> (active_workflows o)) o
  | None => o
  end.

Definition resume_workflow (workflow_id : string) (o : t) : t :=
  match active_workflows o !! workflow_id with
  | Some workflow =>
      if decide (Workflow.status workflow = WorkflowStatus.PAUSED) then
        let workflow :=
          Workflow.set_status WorkflowStatus.RUNNING workflow in
        set_active_workflows
          (<[workflow_id := workflow]> (active_workflows o)) o
      else o
  | None => o
  end.

Definition cancel_workflow (workflow_id : string) (o : t) : t :=
  match active_workflows o !! workflow_id with
  | Some workflow =>
      let workflow :=
        Workflow.set_status WorkflowStatus.CANCELLED workflow in
      let '(t, o) := now o in
      let workflow := Workflow.set_completed_at (Some t) workflow in
      set_active_workflows
        (<[workflow_id := workflow]> (active_workflows o)) o
  | None => o
  end.

(** *** Status query *)

(** [round(n / d, 0)] for integers [n] and [d > 0], ties to the even
    neighbour, as Python's [round] does. *)
Definition round_half_even (n d : Z) : Z :=
  let q := n / d in
  let r := n mod d in
  if 2 * r <? d then q
  else if d <? 2 * r then q + 1
  else if Z.even q then q else q + 1.

(** The dictionary [get_workflow_status] returns, key by key.  [progress]
    is the percentage rounded to two decimals, read as a rational. *)
Module Snapshot.
Record t : Type := mk {
  workflow_id : string;
  status : string;
  progress : Q;
  current_stage : Z;
  total_stages : Z;
  started_at : Value;
  completed_at : Value;
  error_details : option string
}.
End Snapshot.

(** [sum(len(stage.tasks) for stage in workflow.stages)]. *)
Definition total_tasks (workflow : Workflow.t) : Z :=
  fold_right (λ stage total, Z.of_nat (length (WorkflowStage.tasks stage)) + total)
    0 (Workflow.stages workflow).

(** The two nested loops that count the completed tasks. *)
Fixpoint count_completed (tasks : list Task.t) (completed_tasks : Z) : Z :=
  match tasks with
  | [] => completed_tasks
  | task :: rest =>
      if decide (Task.status task = TaskStatus.COMPLETED)
      then count_completed rest (completed_tasks + 1)
      else count_completed rest completed_tasks
  end.

Fixpoint count_completed_stages (stages : list WorkflowStage.t)
    (completed_tasks : Z) : Z :=
  match stages with
  | [] => completed_tasks
  | stage :: rest =>
      count_completed_stages rest
        (count_completed (WorkflowStage.tasks stage) completed_tasks)
  end.

Definition get_workflow_status (workflow_id : string) (o : t)
    : option Snapshot.t :=
  match active_workflows o !! workflow_id with
  | None => None
  | Some workflow =>
      let total_tasks := total_tasks workflow in
      let completed_tasks :=
        count_completed_stages (Workflow.stages workflow) 0 in
      (* round(completed_tasks / total_tasks * 100, 2) *)
      let progress : Q :=
        if 0 <? total_tasks
        then round_half_even (completed_tasks * 10000) total_tasks # 100
        else 0%Q in
      Some
        {| Snapshot.workflow_id := Workflow.id workflow;
           Snapshot.status := WorkflowStatus.value (Workflow.status workflow);
           Snapshot.progress := progress;
           Snapshot.current_stage := Workflow.current_stage workflow;
           Snapshot.total_stages :=
             Z.of_nat (length (Workflow.stages workflow));
           Snapshot.started_at := isoformat (Workflow.started_at workflow);
           Snapshot.completed_at :=
             isoformat (Workflow.completed_at workflow);
           Snapshot.error_details := Workflow.error_details workflow |}
  end.

End WorkflowOrchestrator.

(** ** Workflow factory and the example driver *)

Module WorkflowFactory.

(** [create_fullstack_app_workflow], for the identifier [workflow_id] that
    [str(uuid.uuid4())] hands back; [title] is [str.title]. *)
Definition create_fullstack_app_workflow (title : string → string)
    (workflow_id : string) (project_id : string) (requirements : Payload)
    (app_type : string) : Workflow.t :=
  let analysis_stage :=
    WorkflowStage.new "analysis_and_planning"
      [Task.new (workflow_id +:+ "-req-analysis") "Analyze Requirements"
         AgentType.REQUIREMENT_ANALYSIS
         [("requirements", VDict requirements)] [] 180;
       Task.new (workflow_id +:+ "-arch-planning") "Plan Architecture"
         AgentType.ARCHITECTURE_PLANNING
         [("app_type", VStr app_type)]
         [workflow_id +:+ "-req-analysis"] 300] in
  let generation_stage :=
    WorkflowStage.new "generation"
      [Task.new (workflow_id +:+ "-template-selection") "Select Template"
         AgentType.TEMPLATE_SELECTION
         [("app_type", VStr app_type)]
         [workflow_id +:+ "-arch-planning"] 120;
       Task.new (workflow_id +:+ "-code-generation") "Generate Code"
         AgentType.CODE_GENERATION []
         [workflow_id +:+ "-template-selection"] 600] in
  let deployment_stage :=
    WorkflowStage.new "testing_and_deployment"
      [Task.new (workflow_id +:+ "-testing") "Run Tests"
         AgentType.TESTING []
         [workflow_id +:+ "-code-generation"] 300;
       Task.new (workflow_id +:+ "-deployment") "Deploy Application"
         AgentType.DEPLOYMENT []
         [workflow_id +:+ "-testing"] 600] in
  {| Workflow.id := workflow_id;
     Workflow.name := "Generate " +:+ title app_type +:+ " Application";
     Workflow.project_id := project_id;
     Workflow.stages := [analysis_stage; generation_stage; deployment_stage];
     Workflow.status := WorkflowStatus.PENDING;
     Workflow.current_stage := 0;
     Workflow.started_at := None;
     Workflow.completed_at := None;
     Workflow.metadata :=
       [("app_type", VStr app_type); ("requirements", VDict requirements)];
     Workflow.error_details := None |}.

End WorkflowFactory.

(** The orchestrator [main] builds: a new bus, and the six mock agents
    registered in the order of its list. *)
Definition main_orchestrator (entropy : nat → Q) : WorkflowOrchestrator.t :=
  fold_left (λ o agent, WorkflowOrchestrator.register_agent agent o)
    [Agent.new "req-analyzer-001" AgentType.REQUIREMENT_ANALYSIS;
     Agent.new "arch-planner-001" AgentType.ARCHITECTURE_PLANNING;
     Agent.new "template-selector-001" AgentType.TEMPLATE_SELECTION;
     Agent.new "code-generator-001" AgentType.CODE_GENERATION;
     Agent.new "tester-001" AgentType.TESTING;
     Agent.new "deployer-001" AgentType.DEPLOYMENT]
    (WorkflowOrchestrator.init EventBus.init entropy).

(** [main], up to its two [print] calls: the result of the run and the
    status it then queries. *)
Definition main (title : string → string) (workflow_id : string)
    (entropy : nat → Q) : bool * option WorkflowOrchestrator.Snapshot.t :=
  let orchestrator := main_orchestrator entropy in
  let workflow :=
    WorkflowFactory.create_fullstack_app_workflow title workflow_id
      "proj-001"
      [("type", VStr "e-commerce");
       ("features",
        VList [VStr "user_auth"; VStr "product_catalog";
               VStr "shopping_cart"]);
       ("tech_stack", VStr "react_node_postgres")]
      "ecommerce" in
  let '(success, workflow, orchestrator) :=
    WorkflowOrchestrator.execute_workflow workflow orchestrator in
  (success,
   WorkflowOrchestrator.get_workflow_status (Workflow.id workflow)
     orchestrator).

(** * The specification's wording of derived quantities *)




(** What one subscriber contributes to the trace of a publication: the call,
    and the error line when the call raised. *)
Definition delivery (data : Payload) (callback : EventBus.Callback)
    : list Effect :=
  Invoked (EventBus.callback_name callback) data ::
  match EventBus.call callback data with
  | EventBus.Returned => []
  | EventBus.Raised e => [LogError ("Error in event callback: " +:+ e)]
  end.

(** * Reading a dispatch attempt by attempt

    The pieces [_execute_task] and [_handle_task_failure] are made of, named
    so that lemmas can speak of them; [execute_task_unfold] below shows that
    they compose to the functions above. *)

Module Attempt.
Import WorkflowOrchestrator.

(** Lines 260-264: the counter, the status, the start time, the log line. *)
Definition start (task : Task.t) (o : t) : Task.t * t :=
  let task := Task.set_attempt_count (Task.attempt_count task + 1) task in
  let task := Task.set_status TaskStatus.RUNNING task in
  let '(t, o) := now o in
  let task := Task.set_started_at (Some t) task in
  let o := log (LogExecuting (Task.id task) (Task.attempt_count task)) o in
  (task, o).

(** What the [try] block of [_execute_task] ends in: the agent's result, or
    the message the [except] clauses store in [error_details]. *)
Definition outcome (task : Task.t) (o : t) : Payload + string :=
  match _get_available_agent (Task.agent_type task) o with
  | None =>
      inr ("No available agent for type "
           +:+ AgentType.str (Task.agent_type task))
  | Some agent =>
      match Agent.execute_task agent task with
      | Agent.Returns result => inl result
      | Agent.TimesOut =>
          inr ("Task timed out after " +:+ pretty (Task.timeout task)
               +:+ " seconds")
      | Agent.Raises e => inr e
      end
  end.

(** Lines 278-293: the task is completed and its result recorded. *)
Definition succeed (workflow : Workflow.t) (result : Payload)
    (task : Task.t) (o : t) : Dispatch :=
  let task := Task.set_status TaskStatus.COMPLETED task in
  let '(t, o) := now o in
  let task := Task.set_completed_at (Some t) task in
  let task := Task.set_output_data (Some result) task in
  let o := set_task_results (<[Task.id task := result]> (task_results o)) o in
  let o := publish "task.completed"
    [("workflow_id", VStr (Workflow.id workflow));
     ("task_id", VStr (Task.id task));
     ("duration", total_seconds (Task.completed_at task)
                    (Task.started_at task));
     ("result", VDict result)] o in
  (true, task, o).

(** Lines 308-314: the task waits for its next attempt. *)
Definition back_off (task : Task.t) (o : t) : Task.t * t :=
  let task := Task.set_status TaskStatus.RETRYING task in
  let '(delay, o) := _calculate_retry_delay task o in
  (task, sleep delay o).

(** Lines 317-327: the task has failed for good. *)
Definition abandon (workflow : Workflow.t) (task : Task.t) (o : t)
    : Dispatch :=
  let task := Task.set_status TaskStatus.FAILED task in
  let '(t, o) := now o in
  let task := Task.set_completed_at (Some t) task in
  let o := publish "task.failed"
    [("workflow_id", VStr (Workflow.id workflow));
     ("task_id", VStr (Task.id task));
     ("error", match Task.error_details task with
               | Some e => VStr e
               | None => VNone
               end);
     ("attempts", VInt (Task.attempt_count task))] o in
  (false, task, o).

(** The attempts the policy still allows after the current one. *)
Definition attempts_left (task : Task.t) : bool :=
  Task.attempt_count task <? RetryPolicy.max_attempts (Task.retry_policy task).

End Attempt.

(** * Counting in traces *)

Definition occurrences (P : Effect → bool) (trace : list Effect) : nat :=
  length (List.filter P trace).
Arguments occurrences : simpl never.

(** A publication of the given event type. *)
Definition is_publication (event_type : string) (e : Effect) : bool :=
  match e with
  | Published ty _ => String.eqb ty event_type
  | _ => false
  end.


(** The publication that follows the recording of a result for the given
    task id (lines 283-290): a [task.completed] event whose payload names
    that task. *)
Definition is_completion (task_id : string) (e : Effect) : bool :=
  match e with
  | Published ty data =>
      String.eqb ty "task.completed"
      && match payload_get "task_id" data with
         | Some (VStr id) => String.eqb id task_id
         | _ => false
         end
  | _ => false
  end.

(** The slots of a task list, and of a workflow, that hold a task with the
    given id. *)
Definition slots_with_id (task_id : string) (tasks : list Task.t) : nat :=
  length (List.filter (λ task, String.eqb (Task.id task) task_id) tasks).

Definition workflow_slots_with_id (task_id : string)
    (stages : list WorkflowStage.t) : nat :=
  sum_list_with
    (λ stage, slots_with_id task_id (WorkflowStage.tasks stage)) stages.

(** A count that looks only at what the orchestrator itself emits, not at
    the calls and error lines of the bus. *)
Definition ignores_deliveries (P : Effect → bool) : Prop :=
  (∀ c d, P (Invoked c d) = false) ∧ (∀ m, P (LogError m) = false).

(** The parts of the orchestrator that a run leaves alone: the bus, the
    agent pools and the random source. *)
Definition same_setup (o o' : WorkflowOrchestrator.t) : Prop :=
  WorkflowOrchestrator.event_bus o' = WorkflowOrchestrator.event_bus o
  ∧ WorkflowOrchestrator.agents o' = WorkflowOrchestrator.agents o
  ∧ WorkflowOrchestrator.entropy o' = WorkflowOrchestrator.entropy o.

(** The fields of a task that a dispatch never assigns. *)
Definition same_definition (task task' : Task.t) : Prop :=
  Task.id task' = Task.id task
  ∧ Task.name task' = Task.name task
  ∧ Task.agent_type task' = Task.agent_type task
  ∧ Task.input_data task' = Task.input_data task
  ∧ Task.dependencies task' = Task.dependencies task
  ∧ Task.timeout task' = Task.timeout task
  ∧ Task.retry_policy task' = Task.retry_policy task
  ∧ Task.estimated_duration task' = Task.estimated_duration task.

(** What a pass over a stage can have done to the task in a slot, seen from
    the state [o_end] the pass ends in: nothing; or the task went through the
    dependency gate, in a state whose recorded results are still recorded in
    [o_end], and was dispatched. *)
Definition slot_outcome (o_end : WorkflowOrchestrator.t)
    (task task' : Task.t) : Prop :=
  task' = task
  ∨ ∃ workflow o_gate o_run,
      WorkflowOrchestrator._can_execute_task task o_gate = true
      ∧ dom (WorkflowOrchestrator.task_results o_gate)
        ⊆ dom (WorkflowOrchestrator.task_results o_end)
      ∧ task' = (WorkflowOrchestrator._execute_task workflow task o_run).1.2.

(** The same for a stage: its tasks slot by slot, its other fields as they
    were. *)
Definition stage_outcome (o_end : WorkflowOrchestrator.t)
    (stage stage' : WorkflowStage.t) : Prop :=
  WorkflowStage.name stage' = WorkflowStage.name stage
  ∧ WorkflowStage.parallel_execution stage'
    = WorkflowStage.parallel_execution stage
  ∧ WorkflowStage.failure_strategy stage'
    = WorkflowStage.failure_strategy stage
  ∧ Forall2 (slot_outcome o_end) (WorkflowStage.tasks stage)
      (WorkflowStage.tasks stage').

(** What no executor changes in the orchestrator, and what it only adds
    to. *)
Definition pass_frame (o o' : WorkflowOrchestrator.t) : Prop :=
  same_setup o o'
  ∧ WorkflowOrchestrator.active_workflows o'
    = WorkflowOrchestrator.active_workflows o
  ∧ (WorkflowOrchestrator.clock o ≤ WorkflowOrchestrator.clock o')%nat
  ∧ dom (WorkflowOrchestrator.task_results o)
    ⊆ dom (WorkflowOrchestrator.task_results o').

(** The fields of a workflow that the loop over its stages never assigns. *)
Definition same_header (w w' : Workflow.t) : Prop :=
  Workflow.id w' = Workflow.id w
  ∧ Workflow.name w' = Workflow.name w
  ∧ Workflow.project_id w' = Workflow.project_id w
  ∧ Workflow.started_at w' = Workflow.started_at w
  ∧ Workflow.completed_at w' = Workflow.completed_at w
  ∧ Workflow.metadata w' = Workflow.metadata w.


(** * Sequences of administrative operations *)

Inductive Operation : Set :=
  | Pause (workflow_id : string)
  | Resume (workflow_id : string)
  | Cancel (workflow_id : string).

Definition apply_operation (o : WorkflowOrchestrator.t) (op : Operation)
    : WorkflowOrchestrator.t :=
  match op with
  | Pause workflow_id => WorkflowOrchestrator.pause_workflow workflow_id o
  | Resume workflow_id => WorkflowOrchestrator.resume_workflow workflow_id o
  | Cancel workflow_id => WorkflowOrchestrator.cancel_workflow workflow_id o
  end.

(** The assignment [resume_workflow] makes under its guard. *)
Definition resumed (workflow : Workflow.t) : Workflow.t :=
  if decide (Workflow.status workflow = WorkflowStatus.PAUSED)
  then Workflow.set_status WorkflowStatus.RUNNING workflow
  else workflow.

(** The operation cannot take the workflow with the given id out of a
    status other than PAUSED: it is a resume, or it is addressed to another
    workflow. *)
Definition guarded_for (workflow_id : string) (op : Operation) : Prop :=
  match op with
  | Resume _ => True
  | Pause other | Cancel other => other ≠ workflow_id
  end.

(** The status under which the active set shows a workflow id. *)
Definition status_of (workflow_id : string) (o : WorkflowOrchestrator.t)
    : option WorkflowStatus.t :=
  Workflow.status <$> WorkflowOrchestrator.active_workflows o !! workflow_id.

(** All fields of a workflow except the status. *)
Definition same_but_status (w w' : Workflow.t) : Prop :=
  Workflow.id w' = Workflow.id w
  ∧ Workflow.name w' = Workflow.name w
  ∧ Workflow.project_id w' = Workflow.project_id w
  ∧ Workflow.stages w' = Workflow.stages w
  ∧ Workflow.current_stage w' = Workflow.current_stage w
  ∧ Workflow.started_at w' = Workflow.started_at w
  ∧ Workflow.completed_at w' = Workflow.completed_at w
  ∧ Workflow.metadata w' = Workflow.metadata w
  ∧ Workflow.error_details w' = Workflow.error_details w.

(** All fields of a workflow except the status and the completion time. *)
Definition same_but_status_and_completion (w w' : Workflow.t) : Prop :=
  Workflow.id w' = Workflow.id w
  ∧ Workflow.name w' = Workflow.name w
  ∧ Workflow.project_id w' = Workflow.project_id w
  ∧ Workflow.stages w' = Workflow.stages w
  ∧ Workflow.current_stage w' = Workflow.current_stage w
  ∧ Workflow.started_at w' = Workflow.started_at w
  ∧ Workflow.metadata w' = Workflow.metadata w
  ∧ Workflow.error_details w' = Workflow.error_details w.

(** * Workflows that run to completion *)

(** The agent pools serve the task: selection finds an agent for its type,
    and that agent returns a result for whatever task it is handed. *)
Definition served (o : WorkflowOrchestrator.t) (task : Task.t) : Prop :=
  ∃ agent,
    WorkflowOrchestrator._get_available_agent (Task.agent_type task) o
    = Some agent
    ∧ ∀ t, ∃ result, Agent.execute_task agent t = Agent.Returns result.

(** Every dependency of the task is among the known ids. *)
Definition dependencies_known (known : gset string) (task : Task.t) : Prop :=
  ∀ d, d ∈ Task.dependencies task → d ∈ known.

(** The ids of a task list. *)
Definition task_ids (tasks : list Task.t) : gset string :=
  list_to_set (map Task.id tasks).

(** A sequential walk finds every task ready: each task depends only on
    ids known before the walk or on tasks earlier in the list. *)
Fixpoint sequential_ready (known : gset string) (tasks : list Task.t)
    : Prop :=
  match tasks with
  | [] => True
  | task :: rest =>
      dependencies_known known task
      ∧ sequential_ready ({[Task.id task]} ∪ known) rest
  end.

(** The same for the stages of a workflow: a parallel stage needs every
    dependency known before the stage begins. *)
Fixpoint stages_ready (known : gset string) (stages : list WorkflowStage.t)
    : Prop :=
  match stages with
  | [] => True
  | stage :: rest =>
      (if WorkflowStage.parallel_execution stage
       then Forall (dependencies_known known) (WorkflowStage.tasks stage)
       else sequential_ready known (WorkflowStage.tasks stage))
      ∧ stages_ready (task_ids (WorkflowStage.tasks stage) ∪ known) rest
  end.

(** A task after the one dispatch that completed it. *)
Definition completed_once (task task' : Task.t) : Prop :=
  same_definition task task'
  ∧ Task.status task' = TaskStatus.COMPLETED
  ∧ Task.attempt_count task' = Task.attempt_count task + 1
  ∧ is_Some (Task.output_data task').

Definition stage_completed_once (stage stage' : WorkflowStage.t) : Prop :=
  WorkflowStage.name stage' = WorkflowStage.name stage
  ∧ Forall2 completed_once (WorkflowStage.tasks stage)
      (WorkflowStage.tasks stage').

(** An error line of the bus. *)
Definition is_log_error (e : Effect) : bool :=
  match e with
  | LogError _ => true
  | _ => false
  end.



(** The keys the orchestrator's handlers read are in the payload: task
    events carry [task_id], [task.failed] carries [error] as well, and
    [agent.unavailable] carries [agent_id]. *)
Definition carries_keys (event_type : string) (data : Payload) : Prop :=
  (event_type = "task.completed"%string → has_key "task_id" data = true)
  ∧ (event_type = "task.failed"%string →
     has_key "task_id" data = true ∧ has_key "error" data = true)
  ∧ (event_type = "agent.unavailable"%string →
     has_key "agent_id" data = true).

(** No subscriber of the bus raises on an event that carries these keys. *)
Definition answers (bus : EventBus.t) : Prop :=
  ∀ event_type data,
    carries_keys event_type data →
    Forall (λ callback, EventBus.call callback data = EventBus.Returned)
      (EventBus.registered event_type bus).

(** The fields of a stage that no executor assigns, and its tasks slot by
    slot as they were defined. *)
Definition same_stage_definition (stage stage' : WorkflowStage.t) : Prop :=
  WorkflowStage.name stage' = WorkflowStage.name stage
  ∧ WorkflowStage.parallel_execution stage'
    = WorkflowStage.parallel_execution stage
  ∧ WorkflowStage.failure_strategy stage'
    = WorkflowStage.failure_strategy stage
  ∧ Forall2 same_definition (WorkflowStage.tasks stage)
      (WorkflowStage.tasks stage').

(** The time a trace spends suspended: [asyncio.sleep] returns at once for
    a delay that is not positive. *)
Fixpoint time_slept (trace : list Effect) : Q :=
  match trace with
  | [] => 0
  | Slept delay :: rest => Qmax 0 delay + time_slept rest
  | _ :: rest => time_slept rest
  end.


(** * Concrete runs *)

Module Scenario.
Import WorkflowOrchestrator.

(** An agent whose [execute_task] raises on every call. *)
Definition failing_agent (agent_id : string) (agent_type : AgentType.t)
    : Agent.t :=
  {| Agent.agent_id := agent_id; Agent.agent_type := agent_type;
     Agent.status := "active"; Agent.current_tasks := 0;
     Agent.max_concurrent_tasks := 5;
     Agent.execute_task := λ _, Agent.Raises "boom" |}.

(** A fresh orchestrator on an empty bus, with a base-class code generator
    and a tester that always fails; every random draw is one half. *)
Definition orchestrator : t :=
  register_agent (Agent.new "gen-001" AgentType.CODE_GENERATION)
    (register_agent (failing_agent "test-001" AgentType.TESTING)
       (init EventBus.init (λ _, 1 # 2)%Q)).

Definition failing_task (id : string) : Task.t :=
  Task.new id "Run Tests" AgentType.TESTING [] [] 300.

Definition working_task (id : string) (dependencies : list string)
    : Task.t :=
  Task.new id "Generate Code" AgentType.CODE_GENERATION [] dependencies 300.



(** A failing stage under the default strategy, followed by a stage that
    would succeed. *)
Definition strict_workflow : Workflow.t :=
  Workflow.new "w2" "Strict" "proj-001"
    [WorkflowStage.new "test" [failing_task "t1"];
     WorkflowStage.new "build" [working_task "t2" []]].

(** Two workflows: the second one's only task depends on a task id that
    only the first one has. *)
Definition producer_workflow : Workflow.t :=
  Workflow.new "wa" "Producer" "proj-001"
    [WorkflowStage.new "build" [working_task "t1" []]].

Definition consumer_workflow : Workflow.t :=
  Workflow.new "wb" "Consumer" "proj-002"
    [WorkflowStage.new "build" [working_task "t2" ["t1"]]].

(** A parallel stage whose second task depends on its first. *)
Definition chained_stage : WorkflowStage.t :=
  WorkflowStage.set_parallel_execution true
    (WorkflowStage.new "build"
       [working_task "t1" []; working_task "t2" ["t1"]]).

(** The strict workflow run twice on the same orchestrator, the second time
    as the first run left it. *)
Definition first_run : bool * Workflow.t * t :=
  execute_workflow strict_workflow orchestrator.


(** The producer run to completion, and the consumer run after it on the
    same orchestrator. *)
Definition producer_run : bool * Workflow.t * t :=
  execute_workflow producer_workflow orchestrator.

Definition consumer_run : bool * Workflow.t * t :=
  execute_workflow consumer_workflow producer_run.2.


Definition task_statuses (workflow : Workflow.t) : list TaskStatus.t :=
  flat_map (λ stage, map Task.status (WorkflowStage.tasks stage))
    (Workflow.stages workflow).

(** A task on its second attempt, with the default policy. *)
Definition retried_task : Task.t :=
  Task.set_attempt_count 2 (failing_task "t1").

(** The same with a negative base delay and the fixed strategy. *)
Definition negative_delay_task : Task.t :=
  Task.set_retry_policy
    {| RetryPolicy.max_attempts := 3;
       RetryPolicy.backoff_strategy := "fixed";
       RetryPolicy.base_delay := -2; RetryPolicy.max_delay := 300;
       RetryPolicy.jitter := true |}
    retried_task.

(** The same with a strategy string the code does not know. *)
Definition quadratic_task : Task.t :=
  Task.set_retry_policy
    (RetryPolicy.set_backoff_strategy "quadratic" RetryPolicy.default)
    retried_task.



(** A sequential stage whose first task depends on its second. *)
Definition backwards_stage : WorkflowStage.t :=
  WorkflowStage.new "build" [working_task "t2" ["t1"]; working_task "t1" []].

End Scenario.

(** * Properties *)

(** ** Event bus *)

Section EventBusFacts.
Import EventBus.

Lemma guarded_call_returns (callback : Callback) (data : Payload) :
  try_except (await callback data)
    (λ e, logger_error ("Error in event callback: " +:+ e))
  = (Returned, delivery data callback).
Proof.
  unfold try_except, await, logger_error, delivery.
  destruct (call callback data); reflexivity.
Qed.

Lemma for_each_guarded (callbacks : list Callback) (data : Payload) :
  for_each callbacks (λ callback,
    try_except (await callback data)
      (λ e, logger_error ("Error in event callback: " +:+ e)))
  = (Returned, flat_map (delivery data) callbacks).
Proof.
  induction callbacks as [|callback rest IH]; cbn [for_each];
    [reflexivity|].
  rewrite guarded_call_returns, IH. reflexivity.
Qed.

Lemma publish_trace (event_type : string) (data : Payload) (bus : t) :
  publish event_type data bus
  = (Returned, flat_map (delivery data) (registered event_type bus)).
Proof.
  unfold publish, registered.
  destruct (subscribers bus !! event_type) as [callbacks|]; simpl.
  - apply for_each_guarded.
  - reflexivity.
Qed.

Lemma publish_returns (event_type : string) (data : Payload) (bus : t) :
  fst (publish event_type data bus) = Returned.
Proof. rewrite publish_trace. reflexivity. Qed.

Lemma invocations_deliveries (data : Payload) (callbacks : list Callback) :
  invocations (flat_map (delivery data) callbacks)
  = map (λ callback, (callback_name callback, data)) callbacks.
Proof.
  induction callbacks as [|callback rest IH]; simpl; [reflexivity|].
  destruct (call callback data); simpl; rewrite IH; reflexivity.
Qed.

Lemma registered_subscribe_same (event_type : string) (callback : Callback)
    (bus : t) :
  registered event_type (subscribe event_type callback bus)
  = registered event_type bus ++ [callback].
Proof.
  unfold registered, subscribe; simpl.
  destruct (subscribers bus !! event_type) as [l|] eqn:E.
  - rewrite lookup_alter_eq, E. reflexivity.
  - rewrite lookup_alter_eq, lookup_insert_eq. reflexivity.
Qed.

Lemma registered_subscribe_other (event_type other : string)
    (callback : Callback) (bus : t) :
  event_type ≠ other →
  registered other (subscribe event_type callback bus) = registered other bus.
Proof.
  intros Hne. unfold registered, subscribe; simpl.
  rewrite lookup_alter_ne by assumption.
  destruct (subscribers bus !! event_type); [reflexivity|].
  rewrite lookup_insert_ne by assumption. reflexivity.
Qed.

(** C9.  A publication awaits the callables registered for the event type
    one after the other in the order they were subscribed, whatever each of
    them does: a callable that raises adds one line to the error log and the
    walk goes on; [publish] itself returns normally; and when no callable is
    registered for the type the publication has no effect at all. *)
Theorem publish_isolates_subscribers (event_type : string) (data : Payload)
    (bus : t) :
  fst (publish event_type data bus) = Returned
  ∧ snd (publish event_type data bus)
    = flat_map (delivery data) (registered event_type bus)
  ∧ invocations (snd (publish event_type data bus))
    = map (λ callback, (callback_name callback, data))
        (registered event_type bus)
  ∧ (∀ callback,
       invocations
         (snd (publish event_type data (subscribe event_type callback bus)))
       = invocations (snd (publish event_type data bus))
         ++ [(callback_name callback, data)])
  ∧ (registered event_type bus = [] →
     publish event_type data bus = (Returned, [])).
Proof.
  rewrite publish_trace; simpl.
  split; [reflexivity|]. split; [reflexivity|].
  split; [apply invocations_deliveries|]. split.
  - intros callback. rewrite publish_trace; simpl.
    rewrite !invocations_deliveries, registered_subscribe_same, map_app.
    reflexivity.
  - intros ->. reflexivity.
Qed.

End EventBusFacts.

(** ** Retry delay *)

Section RetryDelay.
Import WorkflowOrchestrator.
Open Scope Q_scope.

Lemma clamp_inject_Z (d : Q) (z m : Z) :
  d == inject_Z z →
  (if Qle_bool d (inject_Z m) then d else inject_Z m)
  == inject_Z (Z.min z m).
Proof.
  intros Hd. destruct (Qle_bool d (inject_Z m)) eqn:E.
  - apply Qle_bool_iff in E. rewrite Hd in E. rewrite <- Zle_Qle in E.
    rewrite Z.min_l by assumption. exact Hd.
  - assert (¬ d <= inject_Z m) as Hn.
    { intros H. apply Qle_bool_iff in H. congruence. }
    rewrite Hd, <- Zle_Qle in Hn.
    rewrite Z.min_r by lia. reflexivity.
Qed.





(** C10.  A strategy string other than the three named ones is not
    rejected: the delay is computed as for "fixed", from [base_delay], with
    the same clamp to [max_delay] and the same jitter. *)
Theorem unknown_strategy_falls_back (task : Task.t) (o : t) :
  let p := Task.retry_policy task in
  let s := RetryPolicy.backoff_strategy p in
  s ≠ "fixed"%string → s ≠ "linear"%string → s ≠ "exponential"%string →
  _calculate_retry_delay task o
  = _calculate_retry_delay
      (Task.set_retry_policy (RetryPolicy.set_backoff_strategy "fixed" p) task)
      o
  ∧ clamped_delay p (Task.attempt_count task)
    == inject_Z (Z.min (RetryPolicy.base_delay p) (RetryPolicy.max_delay p))
  ∧ fst (_calculate_retry_delay task o)
    = (if RetryPolicy.jitter p
       then clamped_delay p (Task.attempt_count task)
            * ((1 # 2) + entropy o (draws o) * (1 # 2))
       else clamped_delay p (Task.attempt_count task)).
Proof.
  intros p s Hf Hl He.
  apply String.eqb_neq in Hf, Hl, He.
  assert (clamped_delay p (Task.attempt_count task)
          = clamped_delay (RetryPolicy.set_backoff_strategy "fixed" p)
              (Task.attempt_count task)) as Hsame.
  { unfold clamped_delay; simpl. fold s. rewrite Hf, Hl, He. reflexivity. }
  split; [|split].
  - unfold _calculate_retry_delay; simpl. fold p. rewrite Hsame.
    reflexivity.
  - unfold clamped_delay. fold s. rewrite Hf, Hl, He.
    apply clamp_inject_Z. reflexivity.
  - unfold _calculate_retry_delay, random. fold p.
    destruct (RetryPolicy.jitter p); reflexivity.
Qed.


(** C10 at a task whose strategy is the string "quadratic". *)
Lemma unknown_strategy_falls_back_witness :
  _calculate_retry_delay Scenario.quadratic_task Scenario.orchestrator
  = _calculate_retry_delay
      (Task.set_retry_policy
         (RetryPolicy.set_backoff_strategy "fixed" RetryPolicy.default)
         Scenario.quadratic_task)
      Scenario.orchestrator.
Proof.
  apply (unknown_strategy_falls_back Scenario.quadratic_task
           Scenario.orchestrator); cbn; discriminate.
Defined.

(** With a negative base delay the bounds of C7 change places: the delay
    before jitter is -2 and the delay handed back is -3/2. *)
Lemma negative_delay_between :
  clamped_delay (Task.retry_policy Scenario.negative_delay_task) 2 == -2
  ∧ fst (_calculate_retry_delay Scenario.negative_delay_task
           Scenario.orchestrator) == -3 # 2.
Proof. split; vm_compute; reflexivity. Qed.

End RetryDelay.

(** ** Task dispatch *)

Section Dispatch.
Import WorkflowOrchestrator.

Lemma handle_task_failure_unfold
    (retry : Workflow.t → Task.t → t → option Dispatch)
    (workflow : Workflow.t) (task : Task.t) (o : t) :
  _handle_task_failure retry workflow task o
  = if Attempt.attempts_left task then
      let '(task', o') := Attempt.back_off task o in retry workflow task' o'
    else Some (Attempt.abandon workflow task o).
Proof.
  unfold _handle_task_failure, Attempt.attempts_left, Attempt.back_off,
    Attempt.abandon.
  destruct (Task.attempt_count task <? _); [|reflexivity].
  destruct (_calculate_retry_delay _ o). reflexivity.
Qed.

Lemma execute_task_unfold (depth : nat) (workflow : Workflow.t)
    (task : Task.t) (o : t) :
  _execute_task_rec (S depth) workflow task o
  = let '(task1, o1) := Attempt.start task o in
    match Attempt.outcome task1 o1 with
    | inl result => Some (Attempt.succeed workflow result task1 o1)
    | inr e =>
        _handle_task_failure (_execute_task_rec depth) workflow
          (Task.set_error_details (Some e) task1) o1
    end.
Proof.
  cbn [_execute_task_rec].
  unfold Attempt.start, Attempt.outcome, Attempt.succeed.
  destruct (now o) as [t o1]. cbn zeta.
  destruct (_get_available_agent _ _) as [agent|]; [|reflexivity].
  destruct (Agent.execute_task agent _); reflexivity.
Qed.

(** The three ways a dispatch goes on after an attempt: success, final
    failure, or another attempt. *)
Lemma dispatch_ind (workflow : Workflow.t)
    (P : Task.t → t → Dispatch → Prop) :
  (∀ task o result,
     Attempt.outcome (Attempt.start task o).1 (Attempt.start task o).2
       = inl result →
     P task o (Attempt.succeed workflow result
                 (Attempt.start task o).1 (Attempt.start task o).2)) →
  (∀ task o e,
     Attempt.outcome (Attempt.start task o).1 (Attempt.start task o).2
       = inr e →
     Attempt.attempts_left
       (Task.set_error_details (Some e) (Attempt.start task o).1) = false →
     P task o (Attempt.abandon workflow
                 (Task.set_error_details (Some e) (Attempt.start task o).1)
                 (Attempt.start task o).2)) →
  (∀ task o e r,
     Attempt.outcome (Attempt.start task o).1 (Attempt.start task o).2
       = inr e →
     Attempt.attempts_left
       (Task.set_error_details (Some e) (Attempt.start task o).1) = true →
     P (Attempt.back_off
          (Task.set_error_details (Some e) (Attempt.start task o).1)
          (Attempt.start task o).2).1
       (Attempt.back_off
          (Task.set_error_details (Some e) (Attempt.start task o).1)
          (Attempt.start task o).2).2 r →
     P task o r) →
  ∀ depth task o r,
    _execute_task_rec depth workflow task o = Some r → P task o r.
Proof.
  intros Hsucc Hfail Hretry.
  induction depth as [|depth IH]; intros task o r H; [discriminate|].
  rewrite execute_task_unfold in H.
  destruct (Attempt.start task o) as [task1 o1] eqn:Es.
  destruct (Attempt.outcome task1 o1) as [result|e] eqn:Eo.
  - injection H as <-. specialize (Hsucc task o result).
    rewrite Es in Hsucc. apply Hsucc, Eo.
  - rewrite handle_task_failure_unfold in H.
    destruct (Attempt.attempts_left _) eqn:El.
    + destruct (Attempt.back_off _ o1) as [task2 o2] eqn:Eb.
      apply IH in H. apply (Hretry task o e r); rewrite Es; simpl;
        [exact Eo|exact El|]. rewrite Eb. exact H.
    + injection H as <-. specialize (Hfail task o e).
      rewrite Es in Hfail. apply Hfail; [exact Eo|exact El].
Qed.

(** The nesting bound of [_execute_task] is never reached. *)
Lemma execute_task_rec_total (workflow : Workflow.t) (depth : nat) :
  ∀ task o,
    (Z.to_nat (RetryPolicy.max_attempts (Task.retry_policy task)
               - Task.attempt_count task) < depth)%nat →
    is_Some (_execute_task_rec depth workflow task o).
Proof.
  induction depth as [|depth IH]; intros task o Hd; [lia|].
  rewrite execute_task_unfold.
  destruct (Attempt.start task o) as [task1 o1] eqn:Es.
  destruct (Attempt.outcome task1 o1) as [result|e]; [eexists; reflexivity|].
  rewrite handle_task_failure_unfold.
  destruct (Attempt.attempts_left _) eqn:El; [|eexists; reflexivity].
  destruct (Attempt.back_off _ o1) as [task2 o2] eqn:Eb.
  apply IH.
  unfold Attempt.back_off in Eb.
  destruct (_calculate_retry_delay _ o1) as [delay o1'].
  injection Eb as <- _.
  unfold Attempt.start in Es. destruct (now o) as [t o'].
  injection Es as <- _.
  unfold Attempt.attempts_left in El. simpl in *. lia.
Qed.

Lemma execute_task_runs (workflow : Workflow.t) (task : Task.t) (o : t) :
  _execute_task_rec (call_depth task) workflow task o
  = Some (_execute_task workflow task o).
Proof.
  unfold _execute_task.
  destruct (execute_task_rec_total workflow (call_depth task) task o)
    as [r ->]; [unfold call_depth; lia|reflexivity].
Qed.

(** Induction over the attempts of a dispatch, for [_execute_task]. *)
Lemma execute_task_ind (workflow : Workflow.t)
    (P : Task.t → t → Dispatch → Prop) :
  (∀ task o result,
     Attempt.outcome (Attempt.start task o).1 (Attempt.start task o).2
       = inl result →
     P task o (Attempt.succeed workflow result
                 (Attempt.start task o).1 (Attempt.start task o).2)) →
  (∀ task o e,
     Attempt.outcome (Attempt.start task o).1 (Attempt.start task o).2
       = inr e →
     Attempt.attempts_left
       (Task.set_error_details (Some e) (Attempt.start task o).1) = false →
     P task o (Attempt.abandon workflow
                 (Task.set_error_details (Some e) (Attempt.start task o).1)
                 (Attempt.start task o).2)) →
  (∀ task o e r,
     Attempt.outcome (Attempt.start task o).1 (Attempt.start task o).2
       = inr e →
     Attempt.attempts_left
       (Task.set_error_details (Some e) (Attempt.start task o).1) = true →
     P (Attempt.back_off
          (Task.set_error_details (Some e) (Attempt.start task o).1)
          (Attempt.start task o).2).1
       (Attempt.back_off
          (Task.set_error_details (Some e) (Attempt.start task o).1)
          (Attempt.start task o).2).2 r →
     P task o r) →
  ∀ task o, P task o (_execute_task workflow task o).
Proof.
  intros Hsucc Hfail Hretry task o.
  apply (dispatch_ind workflow P Hsucc Hfail Hretry (call_depth task)).
  apply execute_task_runs.
Qed.

(** *** What the pieces do to the state *)

Lemma publish_unfold (event_type : string) (data : Payload) (o : t) :
  publish event_type data o
  = set_effects
      (effects o ++ Published event_type data
         :: flat_map (delivery data)
              (EventBus.registered event_type (event_bus o))) o.
Proof. unfold publish. rewrite publish_trace. reflexivity. Qed.

Lemma occurrences_app (P : Effect → bool) (l1 l2 : list Effect) :
  occurrences P (l1 ++ l2) = (occurrences P l1 + occurrences P l2)%nat.
Proof. unfold occurrences. rewrite List.filter_app, length_app. reflexivity. Qed.

Lemma occurrences_singleton (P : Effect → bool) (e : Effect) :
  occurrences P [e] = if P e then 1%nat else O.
Proof. unfold occurrences. cbn. destruct (P e); reflexivity. Qed.

Lemma occurrences_deliveries (P : Effect → bool) (data : Payload)
    (callbacks : list EventBus.Callback) :
  ignores_deliveries P →
  occurrences P (flat_map (delivery data) callbacks) = O.
Proof.
  intros [Hi He]. induction callbacks as [|c rest IH]; [reflexivity|].
  cbn [flat_map]. rewrite occurrences_app, IH.
  unfold delivery, occurrences. cbn [List.filter]. rewrite Hi.
  destruct (EventBus.call c data); cbn [List.filter]; [reflexivity|].
  rewrite He. reflexivity.
Qed.

Lemma occurrences_publish (P : Effect → bool) (event_type : string)
    (data : Payload) (o : t) :
  ignores_deliveries P →
  occurrences P (effects (publish event_type data o))
  = (occurrences P (effects o)
     + if P (Published event_type data) then 1 else 0)%nat.
Proof.
  intros HP. rewrite publish_unfold. cbn [effects set_effects].
  rewrite occurrences_app. f_equal.
  change (Published event_type data :: ?l)
    with ([Published event_type data] ++ l).
  rewrite occurrences_app, occurrences_deliveries by assumption.
  unfold occurrences. cbn [List.filter].
  destruct (P (Published event_type data)); reflexivity.
Qed.

Lemma ignores_deliveries_publication (event_type : string) :
  ignores_deliveries (is_publication event_type).
Proof. split; reflexivity. Qed.


Lemma same_setup_refl (o : t) : same_setup o o.
Proof. repeat split. Qed.

Lemma same_setup_trans (o1 o2 o3 : t) :
  same_setup o1 o2 → same_setup o2 o3 → same_setup o1 o3.
Proof. intros (?&?&?) (?&?&?). repeat split; congruence. Qed.

Lemma same_definition_refl (task : Task.t) : same_definition task task.
Proof. repeat split. Qed.

Lemma same_definition_trans (t1 t2 t3 : Task.t) :
  same_definition t1 t2 → same_definition t2 t3 → same_definition t1 t3.
Proof.
  intros (?&?&?&?&?&?&?&?) (?&?&?&?&?&?&?&?). repeat split; congruence.
Qed.

Lemma back_off_task (task : Task.t) (o : t) :
  (Attempt.back_off task o).1 = Task.set_status TaskStatus.RETRYING task.
Proof.
  unfold Attempt.back_off. destruct (_calculate_retry_delay _ o). reflexivity.
Qed.

Lemma back_off_state (task : Task.t) (o : t) :
  let o' := (Attempt.back_off task o).2 in
  same_setup o o'
  ∧ active_workflows o' = active_workflows o
  ∧ task_results o' = task_results o
  ∧ clock o' = clock o
  ∧ ∃ delay, effects o' = effects o ++ [Slept delay].
Proof.
  unfold Attempt.back_off, _calculate_retry_delay, random.
  destruct (RetryPolicy.jitter _); cbn; repeat split; eexists; reflexivity.
Qed.

(** *** What a dispatch does *)

Lemma execute_task_same_definition (workflow : Workflow.t) (task : Task.t)
    (o : t) :
  same_definition task (_execute_task workflow task o).1.2.
Proof.
  revert task o.
  apply (execute_task_ind workflow (λ task o r, same_definition task r.1.2)).
  - intros task o result _. cbn. repeat split.
  - intros task o e _ _. cbn. repeat split.
  - intros task o e r _ _ IH. rewrite back_off_task in IH.
    eapply same_definition_trans; [|exact IH]. cbn. repeat split.
Qed.


(** The registries are left alone; the result store gains the result of a
    task that completes and is otherwise untouched. *)
Lemma execute_task_state (workflow : Workflow.t) (task : Task.t) (o : t) :
  let r := _execute_task workflow task o in
  same_setup o r.2
  ∧ active_workflows r.2 = active_workflows o
  ∧ (clock o < clock r.2)%nat
  ∧ (if r.1.1
     then ∃ result, Task.output_data r.1.2 = Some result
            ∧ task_results r.2 = <[Task.id task := result]> (task_results o)
     else task_results r.2 = task_results o).
Proof.
  cbn zeta. revert task o.
  apply (execute_task_ind workflow (λ task o r,
    same_setup o r.2
    ∧ active_workflows r.2 = active_workflows o
    ∧ (clock o < clock r.2)%nat
    ∧ (if r.1.1
       then ∃ result, Task.output_data r.1.2 = Some result
              ∧ task_results r.2
                = <[Task.id task := result]> (task_results o)
       else task_results r.2 = task_results o))).
  - intros task o result _. unfold Attempt.succeed. cbn.
    rewrite publish_unfold. cbn. repeat split; [lia|].
    exists result. split; reflexivity.
  - intros task o e _ _. unfold Attempt.abandon. cbn.
    rewrite publish_unfold. cbn. repeat split; lia.
  - intros task o e r _ _ IH. rewrite back_off_task in IH.
    destruct (back_off_state
                (Task.set_error_details (Some e) (Attempt.start task o).1)
                (Attempt.start task o).2) as (Hs & Ha & Ht & Hc & _).
    destruct IH as (Hs' & Ha' & Hc' & Hr').
    split; [|split; [|split]].
    + eapply same_setup_trans; [|exact Hs'].
      eapply same_setup_trans; [|exact Hs]. repeat split.
    + rewrite Ha', Ha. reflexivity.
    + rewrite Hc in Hc'. cbn in Hc'. lia.
    + rewrite Ht in Hr'. exact Hr'.
Qed.


(** A dispatch publishes task events only. *)
Lemma execute_task_publications (workflow : Workflow.t) (task : Task.t)
    (o : t) (event_type : string) :
  event_type ≠ "task.completed" → event_type ≠ "task.failed" →
  occurrences (is_publication event_type)
    (effects (_execute_task workflow task o).2)
  = occurrences (is_publication event_type) (effects o).
Proof.
  intros Hc Hf. revert task o.
  assert (String.eqb "task.completed" event_type = false) as Ec
    by (apply String.eqb_neq; congruence).
  assert (String.eqb "task.failed" event_type = false) as Ef
    by (apply String.eqb_neq; congruence).
  apply (execute_task_ind workflow (λ task o r,
    occurrences (is_publication event_type) (effects r.2)
    = occurrences (is_publication event_type) (effects o))).
  - intros task o result _. unfold Attempt.succeed. cbn.
    rewrite occurrences_publish by apply ignores_deliveries_publication.
    cbn [is_publication]. rewrite Ec. cbn.
    rewrite occurrences_app, occurrences_singleton. cbn. lia.
  - intros task o e _ _. unfold Attempt.abandon. cbn.
    rewrite occurrences_publish by apply ignores_deliveries_publication.
    cbn [is_publication]. rewrite Ef. cbn.
    rewrite occurrences_app, occurrences_singleton. cbn. lia.
  - intros task o e r _ _ IH.
    destruct (back_off_state
                (Task.set_error_details (Some e) (Attempt.start task o).1)
                (Attempt.start task o).2) as (_ & _ & _ & _ & delay & He).
    rewrite IH, He. cbn.
    rewrite !occurrences_app, !occurrences_singleton. cbn. lia.
Qed.

(** A dispatch publishes the completion of its own task, once, exactly
    when it succeeds. *)
Lemma ignores_deliveries_completion (task_id : string) :
  ignores_deliveries (is_completion task_id).
Proof. split; reflexivity. Qed.

Lemma is_completion_other_type (task_id event_type : string)
    (data : Payload) :
  event_type ≠ "task.completed" →
  is_completion task_id (Published event_type data) = false.
Proof.
  intros Hne. apply String.eqb_neq in Hne.
  unfold is_completion. rewrite Hne. reflexivity.
Qed.

Lemma execute_task_completions (workflow : Workflow.t) (task : Task.t)
    (o : t) (task_id : string) :
  let r := _execute_task workflow task o in
  occurrences (is_completion task_id) (effects r.2)
  = (occurrences (is_completion task_id) (effects o)
     + if r.1.1 && String.eqb (Task.id task) task_id then 1 else 0)%nat.
Proof.
  cbn zeta. revert task o.
  apply (execute_task_ind workflow (λ task o r,
    occurrences (is_completion task_id) (effects r.2)
    = (occurrences (is_completion task_id) (effects o)
       + if r.1.1 && String.eqb (Task.id task) task_id then 1 else 0)%nat)).
  - intros task o result _. unfold Attempt.succeed. cbn.
    rewrite occurrences_publish by apply ignores_deliveries_completion.
    cbn. rewrite occurrences_app, occurrences_singleton. cbn. lia.
  - intros task o e _ _. unfold Attempt.abandon. cbn.
    rewrite occurrences_publish by apply ignores_deliveries_completion.
    rewrite is_completion_other_type by discriminate.
    cbn. rewrite occurrences_app, occurrences_singleton. cbn. lia.
  - intros task o e r _ _ IH. rewrite back_off_task in IH.
    destruct (back_off_state
                (Task.set_error_details (Some e) (Attempt.start task o).1)
                (Attempt.start task o).2) as (_ & _ & _ & _ & delay & He).
    rewrite IH, He. cbn.
    rewrite !occurrences_app, !occurrences_singleton. cbn. lia.
Qed.

End Dispatch.

(** ** Stage execution *)

Section Stages.
Import WorkflowOrchestrator.

Lemma pass_frame_refl (o : t) : pass_frame o o.
Proof. split; [apply same_setup_refl|]. repeat split; [lia|set_solver]. Qed.

Lemma pass_frame_trans (o1 o2 o3 : t) :
  pass_frame o1 o2 → pass_frame o2 o3 → pass_frame o1 o3.
Proof.
  intros (Hs & Ha & Hc & Hd) (Hs' & Ha' & Hc' & Hd').
  split; [eapply same_setup_trans; eassumption|].
  repeat split; [congruence|lia|set_solver].
Qed.

Lemma execute_task_frame (workflow : Workflow.t) (task : Task.t) (o : t) :
  pass_frame o (_execute_task workflow task o).2.
Proof.
  destruct (execute_task_state workflow task o) as (Hs & Ha & Hc & Hr).
  split; [exact Hs|]. repeat split; [exact Ha|lia|].
  destruct (_execute_task workflow task o).1.1.
  - destruct Hr as (result & _ & ->). rewrite dom_insert_L. set_solver.
  - rewrite Hr. set_solver.
Qed.

Lemma publish_frame (event_type : string) (data : Payload) (o : t) :
  pass_frame o (publish event_type data o).
Proof.
  rewrite publish_unfold. split; [repeat split|].
  repeat split; cbn; [lia|set_solver].
Qed.

Lemma now_frame (o : t) : pass_frame o (now o).2.
Proof. split; [repeat split|]. repeat split; cbn; [lia|set_solver]. Qed.

Lemma slot_outcome_refl (o_end : t) (task : Task.t) :
  slot_outcome o_end task task.
Proof. left. reflexivity. Qed.

Lemma slot_outcome_mono (o1 o2 : t) (task task' : Task.t) :
  dom (task_results o1) ⊆ dom (task_results o2) →
  slot_outcome o1 task task' → slot_outcome o2 task task'.
Proof.
  intros Hd [->|(workflow & o_gate & o_run & Hg & Hs & ->)];
    [left; reflexivity|].
  right. exists workflow, o_gate, o_run. repeat split; [exact Hg|set_solver].
Qed.

Lemma slots_mono (o1 o2 : t) (tasks tasks' : list Task.t) :
  dom (task_results o1) ⊆ dom (task_results o2) →
  Forall2 (slot_outcome o1) tasks tasks' →
  Forall2 (slot_outcome o2) tasks tasks'.
Proof.
  intros Hd H. eapply Forall2_impl; [exact H|].
  intros task task'. apply slot_outcome_mono, Hd.
Qed.

Lemma slots_refl (o_end : t) (tasks : list Task.t) :
  Forall2 (slot_outcome o_end) tasks tasks.
Proof. apply Forall2_same_length_lookup_2; [reflexivity|].
  intros i x y H1 H2. rewrite H1 in H2. injection H2 as <-. left; reflexivity.
Qed.

Lemma slot_dispatched (workflow : Workflow.t) (task : Task.t) (o_gate o : t)
    (o_end : t) :
  _can_execute_task task o_gate = true →
  dom (task_results o_gate) ⊆ dom (task_results o_end) →
  slot_outcome o_end task (_execute_task workflow task o).1.2.
Proof.
  intros Hg Hd. right. exists workflow, o_gate, o. repeat split; assumption.
Qed.

(** The sequential pass. *)
Lemma sequential_pass (workflow : Workflow.t) (tasks : list Task.t) :
  ∀ o,
    pass_frame o (_execute_tasks_sequential workflow tasks o).2
    ∧ Forall2 (slot_outcome (_execute_tasks_sequential workflow tasks o).2)
        tasks (_execute_tasks_sequential workflow tasks o).1.2.
Proof.
  induction tasks as [|task rest IH]; intros o; cbn [_execute_tasks_sequential].
  - split; [apply pass_frame_refl|constructor].
  - destruct (_can_execute_task task o) eqn:Eg; cbn [negb].
    + pose proof (execute_task_frame workflow task o) as Hf.
      destruct (_execute_task workflow task o) as [[success task'] o'] eqn:Ed.
      cbn in Hf.
      assert (slot_outcome o' task task') as Hslot.
      { replace task' with (_execute_task workflow task o).1.2
          by (rewrite Ed; reflexivity).
        eapply slot_dispatched; [exact Eg|]. apply Hf. }
      destruct success; cbn [negb].
      * specialize (IH o').
        destruct (_execute_tasks_sequential workflow rest o')
          as [[result rest'] o''] eqn:Er.
        cbn in IH |- *. destruct IH as [Hf' Hs'].
        split; [eapply pass_frame_trans; eassumption|].
        constructor; [|exact Hs'].
        eapply slot_outcome_mono; [|exact Hslot]. apply Hf'.
      * cbn. split; [exact Hf|].
        constructor; [exact Hslot|apply slots_refl].
    + specialize (IH o).
      destruct (_execute_tasks_sequential workflow rest o)
        as [[result rest'] o''] eqn:Er.
      cbn in IH |- *. destruct IH as [Hf' Hs'].
      split; [exact Hf'|]. constructor; [left; reflexivity|exact Hs'].
Qed.

(** The fan-out of a parallel pass, gated by the store of [o0]. *)
Lemma gather_pass (workflow : Workflow.t) (o0 : t) (tasks : list Task.t) :
  ∀ o,
    dom (task_results o0) ⊆ dom (task_results o) →
    let r := gather workflow (λ task, _can_execute_task task o0) tasks o in
    pass_frame o r.2 ∧ Forall2 (slot_outcome r.2) tasks r.1.2.
Proof.
  induction tasks as [|task rest IH]; intros o Hd; cbn [gather].
  - split; [apply pass_frame_refl|constructor].
  - destruct (_can_execute_task task o0) eqn:Eg.
    + pose proof (execute_task_frame workflow task o) as Hf.
      destruct (_execute_task workflow task o) as [[result task'] o'] eqn:Ed.
      cbn in Hf.
      assert (dom (task_results o0) ⊆ dom (task_results o')) as Hd'.
      { destruct Hf as (_ & _ & _ & Hf). etrans; eassumption. }
      specialize (IH o' Hd').
      destruct (gather workflow _ rest o') as [[results rest'] o''] eqn:Er.
      cbn in IH |- *. destruct IH as [Hf' Hs'].
      split; [eapply pass_frame_trans; eassumption|].
      constructor; [|exact Hs'].
      replace task' with (_execute_task workflow task o).1.2
        by (rewrite Ed; reflexivity).
      eapply slot_dispatched; [exact Eg|].
      destruct Hf' as (_ & _ & _ & Hf'). etrans; eassumption.
    + specialize (IH o Hd).
      destruct (gather workflow _ rest o) as [[results rest'] o''] eqn:Er.
      cbn in IH |- *. destruct IH as [Hf' Hs'].
      split; [exact Hf'|]. constructor; [left; reflexivity|exact Hs'].
Qed.

Lemma parallel_pass (workflow : Workflow.t) (tasks : list Task.t) (o : t) :
  let r := _execute_tasks_parallel workflow tasks o in
  pass_frame o r.2 ∧ Forall2 (slot_outcome r.2) tasks r.1.2.
Proof.
  unfold _execute_tasks_parallel.
  destruct (List.filter _ tasks) as [|first others].
  - cbn. split; [apply pass_frame_refl|apply slots_refl].
  - pose proof (gather_pass workflow o tasks o (reflexivity _)) as H.
    cbn zeta in H.
    destruct (gather workflow _ tasks o) as [[results tasks'] o'].
    exact H.
Qed.

Lemma execute_stage_pass (workflow : Workflow.t) (stage : WorkflowStage.t)
    (o : t) :
  let r := _execute_stage workflow stage o in
  pass_frame o r.2 ∧ stage_outcome r.2 stage r.1.2.
Proof.
  unfold _execute_stage, stage_outcome.
  destruct (WorkflowStage.parallel_execution stage) eqn:Ep.
  - pose proof (parallel_pass workflow (WorkflowStage.tasks stage) o) as H.
    cbn zeta in H.
    destruct (_execute_tasks_parallel workflow _ o) as [[result tasks'] o'].
    cbn in *. tauto.
  - pose proof (sequential_pass workflow (WorkflowStage.tasks stage) o) as H.
    destruct (_execute_tasks_sequential workflow _ o)
      as [[result tasks'] o'].
    cbn in *. tauto.
Qed.

(** The executors publish task events only. *)
Lemma sequential_publications (workflow : Workflow.t) (event_type : string)
    (tasks : list Task.t) :
  event_type ≠ "task.completed" → event_type ≠ "task.failed" →
  ∀ o,
    occurrences (is_publication event_type)
      (effects (_execute_tasks_sequential workflow tasks o).2)
    = occurrences (is_publication event_type) (effects o).
Proof.
  intros Hc Hf.
  induction tasks as [|task rest IH]; intros o;
    cbn [_execute_tasks_sequential]; [reflexivity|].
  destruct (_can_execute_task task o); cbn [negb].
  - pose proof (execute_task_publications workflow task o event_type Hc Hf)
      as Hp.
    destruct (_execute_task workflow task o) as [[success task'] o'].
    cbn in Hp. destruct success; cbn [negb]; [|exact Hp].
    specialize (IH o').
    destruct (_execute_tasks_sequential workflow rest o')
      as [[result rest'] o''].
    cbn in *. congruence.
  - specialize (IH o).
    destruct (_execute_tasks_sequential workflow rest o)
      as [[result rest'] o''].
    exact IH.
Qed.

Lemma gather_publications (workflow : Workflow.t) (event_type : string)
    (eligible : Task.t → bool) (tasks : list Task.t) :
  event_type ≠ "task.completed" → event_type ≠ "task.failed" →
  ∀ o,
    occurrences (is_publication event_type)
      (effects (gather workflow eligible tasks o).2)
    = occurrences (is_publication event_type) (effects o).
Proof.
  intros Hc Hf.
  induction tasks as [|task rest IH]; intros o; cbn [gather]; [reflexivity|].
  destruct (eligible task).
  - pose proof (execute_task_publications workflow task o event_type Hc Hf)
      as Hp.
    destruct (_execute_task workflow task o) as [[result task'] o'].
    cbn in Hp. specialize (IH o').
    destruct (gather workflow eligible rest o') as [[results rest'] o''].
    cbn in *. congruence.
  - specialize (IH o).
    destruct (gather workflow eligible rest o) as [[results rest'] o''].
    exact IH.
Qed.

Lemma execute_stage_publications (workflow : Workflow.t)
    (event_type : string) (stage : WorkflowStage.t) (o : t) :
  event_type ≠ "task.completed" → event_type ≠ "task.failed" →
  occurrences (is_publication event_type)
    (effects (_execute_stage workflow stage o).2)
  = occurrences (is_publication event_type) (effects o).
Proof.
  intros Hc Hf. unfold _execute_stage, _execute_tasks_parallel.
  destruct (WorkflowStage.parallel_execution stage).
  - destruct (List.filter _ _) as [|first others]; [reflexivity|].
    pose proof (gather_publications workflow event_type
                  (λ task, _can_execute_task task o)
                  (WorkflowStage.tasks stage) Hc Hf o) as H.
    destruct (gather workflow _ _ o) as [[results tasks'] o'].
    exact H.
  - pose proof (sequential_publications workflow event_type
                  (WorkflowStage.tasks stage) Hc Hf o) as H.
    destruct (_execute_tasks_sequential workflow _ o)
      as [[result tasks'] o'].
    exact H.
Qed.

(** *** The sequential pass, outcome by outcome *)


(** The executors record, for any one id, at most as many results as they
    have slots holding a task with that id. *)
Lemma sequential_completions (workflow : Workflow.t) (task_id : string)
    (tasks : list Task.t) :
  ∀ o,
    (occurrences (is_completion task_id)
       (effects (_execute_tasks_sequential workflow tasks o).2)
     ≤ occurrences (is_completion task_id) (effects o)
       + slots_with_id task_id tasks)%nat.
Proof.
  unfold slots_with_id.
  induction tasks as [|task rest IH]; intros o;
    cbn [_execute_tasks_sequential List.filter]; [cbn; lia|].
  destruct (_can_execute_task task o); cbn [negb].
  - pose proof (execute_task_completions workflow task o task_id) as Hp.
    cbn zeta in Hp.
    destruct (_execute_task workflow task o) as [[success task'] o'].
    cbn [fst snd] in Hp. specialize (IH o').
    destruct success; cbn [negb andb] in Hp |- *.
    + destruct (_execute_tasks_sequential workflow rest o')
        as [[result rest'] o''].
      cbn [fst snd] in IH |- *.
      destruct (String.eqb (Task.id task) task_id); cbn [length]; lia.
    + cbn [fst snd].
      destruct (String.eqb (Task.id task) task_id); cbn [length]; lia.
  - specialize (IH o).
    destruct (_execute_tasks_sequential workflow rest o)
      as [[result rest'] o''].
    cbn [fst snd] in IH |- *.
    destruct (String.eqb (Task.id task) task_id); cbn [length]; lia.
Qed.

Lemma gather_completions (workflow : Workflow.t) (task_id : string)
    (eligible : Task.t → bool) (tasks : list Task.t) :
  ∀ o,
    (occurrences (is_completion task_id)
       (effects (gather workflow eligible tasks o).2)
     ≤ occurrences (is_completion task_id) (effects o)
       + slots_with_id task_id tasks)%nat.
Proof.
  unfold slots_with_id.
  induction tasks as [|task rest IH]; intros o;
    cbn [gather List.filter]; [cbn; lia|].
  destruct (eligible task).
  - pose proof (execute_task_completions workflow task o task_id) as Hp.
    cbn zeta in Hp.
    destruct (_execute_task workflow task o) as [[result task'] o'].
    cbn [fst snd] in Hp. specialize (IH o').
    destruct (gather workflow eligible rest o') as [[results rest'] o''].
    cbn [fst snd] in IH |- *.
    destruct result, (String.eqb (Task.id task) task_id);
      cbn [andb length] in Hp |- *; lia.
  - specialize (IH o).
    destruct (gather workflow eligible rest o) as [[results rest'] o''].
    cbn [fst snd] in IH |- *.
    destruct (String.eqb (Task.id task) task_id); cbn [length]; lia.
Qed.

Lemma execute_stage_completions (workflow : Workflow.t) (task_id : string)
    (stage : WorkflowStage.t) (o : t) :
  (occurrences (is_completion task_id)
     (effects (_execute_stage workflow stage o).2)
   ≤ occurrences (is_completion task_id) (effects o)
     + slots_with_id task_id (WorkflowStage.tasks stage))%nat.
Proof.
  unfold _execute_stage, _execute_tasks_parallel.
  destruct (WorkflowStage.parallel_execution stage).
  - destruct (List.filter _ _) as [|first others]; [cbn; lia|].
    pose proof (gather_completions workflow task_id
                  (λ task, _can_execute_task task o)
                  (WorkflowStage.tasks stage) o) as H.
    destruct (gather workflow _ _ o) as [[results tasks'] o'].
    exact H.
  - pose proof (sequential_completions workflow task_id
                  (WorkflowStage.tasks stage) o) as H.
    destruct (_execute_tasks_sequential workflow _ o)
      as [[result tasks'] o'].
    exact H.
Qed.

End Stages.

(** ** The loop over the stages *)

Section StageLoop.
Import WorkflowOrchestrator.

Lemma stage_outcome_refl (o_end : t) (stage : WorkflowStage.t) :
  stage_outcome o_end stage stage.
Proof. repeat split. apply slots_refl. Qed.

Lemma stage_outcome_mono (o1 o2 : t) (stage stage' : WorkflowStage.t) :
  dom (task_results o1) ⊆ dom (task_results o2) →
  stage_outcome o1 stage stage' → stage_outcome o2 stage stage'.
Proof.
  intros Hd (Hn & Hp & Hf & Hs). repeat split; try assumption.
  eapply slots_mono; eassumption.
Qed.

Lemma stages_refl (o_end : t) (stages : list WorkflowStage.t) :
  Forall2 (stage_outcome o_end) stages stages.
Proof.
  induction stages; constructor; [apply stage_outcome_refl|assumption].
Qed.

Lemma insert_at_end_of_prefix (pre : list WorkflowStage.t)
    (stage stage' : WorkflowStage.t) (rest : list WorkflowStage.t) :
  <[length pre := stage']> (pre ++ stage :: rest) = pre ++ stage' :: rest.
Proof.
  rewrite insert_app_r_alt by lia.
  replace (length pre - length pre)%nat with O by lia. reflexivity.
Qed.

(** One turn of the loop, with the stage pass named. *)
Lemma stage_loop_unfold (stage_index : nat) (stage : WorkflowStage.t)
    (rest : list WorkflowStage.t) (workflow : Workflow.t) (o : t) :
  stage_loop stage_index (stage :: rest) workflow o
  = let w0 := Workflow.set_current_stage (Z.of_nat stage_index) workflow in
    let r := _execute_stage w0 stage o in
    let w1 :=
      Workflow.set_stages (<[stage_index := r.1.2]> (Workflow.stages w0)) w0 in
    if negb r.1.1
       && String.eqb (WorkflowStage.failure_strategy r.1.2) "stop_on_error"
    then
      (ReturnedFalse,
       Workflow.set_error_details
         (Some ("Stage " +:+ WorkflowStage.name r.1.2 +:+ " failed"))
         (Workflow.set_status WorkflowStatus.FAILED w1),
       r.2)
    else
      stage_loop (S stage_index) rest w1
        (publish "workflow.stage_completed"
           [("workflow_id", VStr (Workflow.id w1));
            ("stage_name", VStr (WorkflowStage.name r.1.2));
            ("stage_index", VInt (Z.of_nat stage_index));
            ("success", VBool r.1.1)] r.2).
Proof.
  cbn [stage_loop].
  destruct (_execute_stage _ stage o) as [[stage_success stage'] o'].
  reflexivity.
Qed.

Lemma stage_loop_stages (todo : list WorkflowStage.t) :
  ∀ stage_index workflow o pre,
    Workflow.stages workflow = pre ++ todo →
    length pre = stage_index →
    let r := stage_loop stage_index todo workflow o in
    pass_frame o r.2
    ∧ same_header workflow r.1.2
    ∧ ∃ todo', Workflow.stages r.1.2 = pre ++ todo'
               ∧ Forall2 (stage_outcome r.2) todo todo'.
Proof.
  induction todo as [|stage rest IH]; intros i w o pre Hst Hlen.
  - cbn. split; [apply pass_frame_refl|]. split; [repeat split|].
    exists []. split; [exact Hst|constructor].
  - rewrite stage_loop_unfold. cbn zeta.
    set (w0 := Workflow.set_current_stage (Z.of_nat i) w).
    destruct (execute_stage_pass w0 stage o) as [Hf Ho].
    set (r := _execute_stage w0 stage o) in *.
    set (w1 := Workflow.set_stages _ w0).
    assert (Workflow.stages w1 = pre ++ r.1.2 :: rest) as Hst1.
    { subst w1 w0. cbn. rewrite Hst, <- Hlen.
      apply insert_at_end_of_prefix. }
    destruct (negb r.1.1 && _).
    + cbn. split; [exact Hf|]. split; [repeat split|].
      exists (r.1.2 :: rest). split; [exact Hst1|].
      constructor; [exact Ho|apply stages_refl].
    + set (o1 := publish _ _ r.2).
      assert (pass_frame r.2 o1) as Hp by apply publish_frame.
      destruct (IH (S i) w1 o1 (pre ++ [r.1.2])) as (Hf' & Hh' & todo' & Hst' & Hs').
      { rewrite Hst1, <- app_assoc. reflexivity. }
      { rewrite length_app. cbn. lia. }
      split; [eapply pass_frame_trans; [exact Hf|];
              eapply pass_frame_trans; eassumption|].
      split.
      { destruct Hh' as (?&?&?&?&?&?). repeat split; assumption. }
      exists (r.1.2 :: todo'). split.
      { rewrite Hst', <- app_assoc. reflexivity. }
      constructor; [|exact Hs'].
      eapply stage_outcome_mono; [|exact Ho].
      destruct Hp as (_ & _ & _ & Hp). destruct Hf' as (_ & _ & _ & Hf').
      etrans; eassumption.
Qed.

(** How the loop leaves the status and the error message, and where it
    stopped when it returned [False]. *)
Lemma stage_loop_exit (todo : list WorkflowStage.t) :
  ∀ stage_index workflow o pre,
    Workflow.stages workflow = pre ++ todo →
    length pre = stage_index →
    let r := stage_loop stage_index todo workflow o in
    match r.1.1 with
    | Exhausted =>
        Workflow.status r.1.2 = Workflow.status workflow
        ∧ Workflow.error_details r.1.2 = Workflow.error_details workflow
    | ReturnedFalse =>
        Workflow.status r.1.2 = WorkflowStatus.FAILED
        ∧ ∃ k stage',
            (stage_index ≤ k)%nat
            ∧ Workflow.current_stage r.1.2 = Z.of_nat k
            ∧ Workflow.stages r.1.2 !! k = Some stage'
            ∧ WorkflowStage.failure_strategy stage' = "stop_on_error"
            ∧ Workflow.error_details r.1.2
              = Some ("Stage " +:+ WorkflowStage.name stage' +:+ " failed")
            ∧ ∀ k', (k < k')%nat →
                Workflow.stages r.1.2 !! k' = Workflow.stages workflow !! k'
    end.
Proof.
  induction todo as [|stage rest IH]; intros i w o pre Hst Hlen.
  - cbn. split; reflexivity.
  - rewrite stage_loop_unfold. cbn zeta.
    set (w0 := Workflow.set_current_stage (Z.of_nat i) w).
    set (r := _execute_stage w0 stage o).
    set (w1 := Workflow.set_stages _ w0).
    assert (Workflow.stages w1 = pre ++ r.1.2 :: rest) as Hst1.
    { subst w1 w0. cbn. rewrite Hst, <- Hlen.
      apply insert_at_end_of_prefix. }
    destruct (negb r.1.1 && _) eqn:Estop.
    + cbn. split; [reflexivity|]. exists i, r.1.2.
      apply andb_prop in Estop as [_ Estop]. apply String.eqb_eq in Estop.
      repeat split; [lia| |exact Estop|].
      * rewrite Hst, <- Hlen. apply list_lookup_insert_eq.
        rewrite length_app. cbn. lia.
      * intros k' Hk. apply list_lookup_insert_ne. lia.
    + set (o1 := publish _ _ r.2).
      assert (Workflow.stages w1 = (pre ++ [r.1.2]) ++ rest) as H1
        by (rewrite Hst1, <- app_assoc; reflexivity).
      assert (length (pre ++ [r.1.2]) = S i) as H2
        by (rewrite length_app; cbn; lia).
      specialize (IH (S i) w1 o1 (pre ++ [r.1.2]) H1 H2).
      cbn zeta in IH.
      assert (Workflow.status w1 = Workflow.status w) as Hstat
        by reflexivity.
      assert (Workflow.error_details w1 = Workflow.error_details w) as Herr
        by reflexivity.
      assert (∀ k', (i < k')%nat →
                Workflow.stages w1 !! k' = Workflow.stages w !! k') as Hlater.
      { intros k' Hk'. subst w1 w0. cbn.
        apply list_lookup_insert_ne. lia. }
      destruct (stage_loop (S i) rest w1 o1) as [[exit w2] o2].
      cbn [fst snd] in IH |- *.
      destruct exit.
      * rewrite <- Hstat, <- Herr. exact IH.
      * destruct IH as (Hs & k & stage' & Hk & Hc & Hl & Hf & He & Hr).
        split; [exact Hs|]. exists k, stage'.
        repeat split; [lia|exact Hc|exact Hl|exact Hf|exact He|].
        intros k' Hk'. rewrite (Hr k' Hk'). apply Hlater. lia.
Qed.

(** The loop publishes [workflow.stage_completed] and, through the
    executors, task events; nothing else. *)
Lemma stage_loop_publications (event_type : string)
    (todo : list WorkflowStage.t) :
  event_type ≠ "task.completed" → event_type ≠ "task.failed" →
  event_type ≠ "workflow.stage_completed" →
  ∀ stage_index workflow o,
    occurrences (is_publication event_type)
      (effects (stage_loop stage_index todo workflow o).2)
    = occurrences (is_publication event_type) (effects o).
Proof.
  intros Hc Hf Hs.
  assert (String.eqb "workflow.stage_completed" event_type = false) as Es
    by (apply String.eqb_neq; congruence).
  induction todo as [|stage rest IH]; intros i w o; [reflexivity|].
  rewrite stage_loop_unfold. cbn zeta.
  set (w0 := Workflow.set_current_stage (Z.of_nat i) w).
  pose proof (execute_stage_publications w0 event_type stage o Hc Hf) as Hp.
  set (r := _execute_stage w0 stage o) in *.
  destruct (negb r.1.1 && _); [exact Hp|].
  rewrite IH, occurrences_publish by apply ignores_deliveries_publication.
  cbn [is_publication]. rewrite Es, Hp. lia.
Qed.

Lemma stage_loop_completions (task_id : string)
    (todo : list WorkflowStage.t) :
  ∀ stage_index workflow o,
    (occurrences (is_completion task_id)
       (effects (stage_loop stage_index todo workflow o).2)
     ≤ occurrences (is_completion task_id) (effects o)
       + workflow_slots_with_id task_id todo)%nat.
Proof.
  unfold workflow_slots_with_id.
  induction todo as [|stage rest IH]; intros i w o; [cbn; lia|].
  rewrite stage_loop_unfold. cbn zeta.
  set (w0 := Workflow.set_current_stage (Z.of_nat i) w).
  pose proof (execute_stage_completions w0 task_id stage o) as Hp.
  set (r := _execute_stage w0 stage o) in *.
  cbn [sum_list_with].
  destruct (negb r.1.1 && _); [cbn [snd]; lia|].
  etrans; [apply IH|].
  rewrite occurrences_publish by apply ignores_deliveries_completion.
  rewrite is_completion_other_type by discriminate. lia.
Qed.

End StageLoop.

(** ** Workflow execution *)

Section Run.
Import WorkflowOrchestrator.

(** The run, with the entry code and the loop named. *)
Lemma execute_workflow_unfold (workflow : Workflow.t) (o : t) :
  execute_workflow workflow o
  = let w1 :=
      Workflow.set_started_at (Some (clock o))
        (Workflow.set_status WorkflowStatus.RUNNING workflow) in
    let o1 :=
      publish "workflow.started"
        [("workflow_id", VStr (Workflow.id w1));
         ("project_id", VStr (Workflow.project_id w1));
         ("timestamp", isoformat (Workflow.started_at w1))]
        (store_workflow w1 (now o).2) in
    let r := stage_loop 0 (Workflow.stages w1) w1 o1 in
    match r.1.1 with
    | ReturnedFalse => (false, r.1.2, store_workflow r.1.2 r.2)
    | Exhausted =>
        let w2 :=
          Workflow.set_completed_at (Some (clock r.2))
            (Workflow.set_status WorkflowStatus.COMPLETED r.1.2) in
        (true, w2,
         store_workflow w2
           (publish "workflow.completed"
              [("workflow_id", VStr (Workflow.id w2));
               ("duration", total_seconds (Workflow.completed_at w2)
                              (Workflow.started_at w2));
               ("timestamp", isoformat (Workflow.completed_at w2))]
              (now r.2).2))
    end.
Proof.
  unfold execute_workflow. cbn zeta. cbn [now].
  destruct (stage_loop 0 _ _ _) as [[exit w'] o']. cbn [fst snd].
  destruct exit; reflexivity.
Qed.

(** What a run leaves behind. *)
Lemma execute_workflow_run (workflow : Workflow.t) (o : t) :
  let r := execute_workflow workflow o in
  same_setup o r.2
  ∧ dom (task_results o) ⊆ dom (task_results r.2)
  ∧ active_workflows r.2 = <[Workflow.id workflow := r.1.2]> (active_workflows o)
  ∧ Workflow.id r.1.2 = Workflow.id workflow
  ∧ Workflow.name r.1.2 = Workflow.name workflow
  ∧ Workflow.project_id r.1.2 = Workflow.project_id workflow
  ∧ Workflow.metadata r.1.2 = Workflow.metadata workflow
  ∧ Workflow.started_at r.1.2 = Some (clock o)
  ∧ Forall2 (stage_outcome r.2) (Workflow.stages workflow)
      (Workflow.stages r.1.2).
Proof.
  cbn zeta. rewrite execute_workflow_unfold. cbn zeta.
  set (w1 := Workflow.set_started_at _ _).
  set (o1 := publish _ _ _).
  assert (pass_frame (store_workflow w1 (now o).2) o1) as Hp
    by apply publish_frame.
  destruct (stage_loop_stages (Workflow.stages w1) O w1 o1 [] eq_refl eq_refl)
    as (Hf & Hh & todo' & Hst & Hs).
  cbn [app] in Hst. rewrite <- Hst in Hs. clear todo' Hst.
  set (r := stage_loop 0 _ w1 o1) in *.
  destruct Hp as ((Hb & Hag & He) & Ha & _ & Hd).
  destruct Hf as ((Hb' & Hag' & He') & Ha' & _ & Hd').
  destruct Hh as (Hid & Hname & Hproj & Hstart & _ & Hmeta).
  cbn in Hb, Hag, He, Ha, Hd.
  destruct r.1.1.
  - (* the loop ran out of stages *)
    set (w2 := Workflow.set_completed_at _ _).
    set (o2 := publish _ _ _).
    assert (pass_frame r.2 o2) as ((Hb2 & Hag2 & He2) & Ha2 & _ & Hd2).
    { eapply pass_frame_trans; [apply now_frame|apply publish_frame]. }
    cbn [fst snd].
    split; [repeat split;
            [exact (eq_trans Hb2 (eq_trans Hb' Hb))
            |exact (eq_trans Hag2 (eq_trans Hag' Hag))
            |exact (eq_trans He2 (eq_trans He' He))]|].
    split; [exact (transitivity Hd (transitivity Hd' Hd2))|].
    split.
    { unfold store_workflow. cbn [active_workflows set_active_workflows].
      rewrite Ha2, Ha', Ha. change (Workflow.id w2) with (Workflow.id r.1.2).
      rewrite Hid. apply insert_insert_eq. }
    split; [exact Hid|]. split; [exact Hname|]. split; [exact Hproj|].
    split; [exact Hmeta|]. split; [exact Hstart|].
    eapply Forall2_impl; [exact Hs|].
    intros s s'. apply stage_outcome_mono. exact Hd2.
  - (* [return False] inside the loop *)
    cbn [fst snd].
    split; [repeat split;
            [exact (eq_trans Hb' Hb)|exact (eq_trans Hag' Hag)
            |exact (eq_trans He' He)]|].
    split; [exact (transitivity Hd Hd')|].
    split.
    { unfold store_workflow. cbn [active_workflows set_active_workflows].
      rewrite Ha', Ha, Hid. apply insert_insert_eq. }
    split; [exact Hid|]. split; [exact Hname|]. split; [exact Hproj|].
    split; [exact Hmeta|]. split; [exact Hstart|].
    exact Hs.
Qed.

(** The status a run ends in, and where the loop stopped when the run
    returns [False]. *)
Lemma execute_workflow_exit (workflow : Workflow.t) (o : t) :
  let r := execute_workflow workflow o in
  if r.1.1 then
    Workflow.status r.1.2 = WorkflowStatus.COMPLETED
    ∧ (∃ t, Workflow.completed_at r.1.2 = Some t)
    ∧ Workflow.error_details r.1.2 = Workflow.error_details workflow
  else
    Workflow.status r.1.2 = WorkflowStatus.FAILED
    ∧ Workflow.completed_at r.1.2 = Workflow.completed_at workflow
    ∧ ∃ k stage',
        Workflow.current_stage r.1.2 = Z.of_nat k
        ∧ Workflow.stages r.1.2 !! k = Some stage'
        ∧ WorkflowStage.failure_strategy stage' = "stop_on_error"
        ∧ Workflow.error_details r.1.2
          = Some ("Stage " +:+ WorkflowStage.name stage' +:+ " failed")
        ∧ ∀ k', (k < k')%nat →
            Workflow.stages r.1.2 !! k' = Workflow.stages workflow !! k'.
Proof.
  cbn zeta. rewrite execute_workflow_unfold. cbn zeta.
  set (w1 := Workflow.set_started_at _ _).
  set (o1 := publish _ _ _).
  pose proof (stage_loop_exit (Workflow.stages w1) O w1 o1 [] eq_refl eq_refl)
    as Hx.
  destruct (stage_loop_stages (Workflow.stages w1) O w1 o1 [] eq_refl eq_refl)
    as (_ & (_ & _ & _ & _ & Hcompl & _) & _).
  cbn zeta in Hx.
  set (r := stage_loop 0 _ w1 o1) in *.
  destruct r.1.1; cbn [fst snd].
  - destruct Hx as [_ He].
    split; [reflexivity|]. split; [eexists; reflexivity|exact He].
  - destruct Hx as (Hs & k & stage' & _ & Hc & Hl & Hf & He & Hr).
    split; [exact Hs|]. split; [exact Hcompl|].
    exists k, stage'. repeat split; assumption.
Qed.

(** A run publishes [workflow.started], [workflow.stage_completed],
    [workflow.completed] and task events; nothing else. *)
Lemma execute_workflow_publications (event_type : string)
    (workflow : Workflow.t) (o : t) :
  event_type ≠ "task.completed" → event_type ≠ "task.failed" →
  event_type ≠ "workflow.stage_completed" →
  event_type ≠ "workflow.started" → event_type ≠ "workflow.completed" →
  occurrences (is_publication event_type)
    (effects (execute_workflow workflow o).2)
  = occurrences (is_publication event_type) (effects o).
Proof.
  intros Hc Hf Hs Hst Hco.
  assert (String.eqb "workflow.started" event_type = false) as Est
    by (apply String.eqb_neq; congruence).
  assert (String.eqb "workflow.completed" event_type = false) as Eco
    by (apply String.eqb_neq; congruence).
  rewrite execute_workflow_unfold. cbn zeta.
  set (w1 := Workflow.set_started_at _ _).
  set (o1 := publish _ _ _).
  assert (occurrences (is_publication event_type) (effects o1)
          = occurrences (is_publication event_type) (effects o)) as H1.
  { subst o1.
    rewrite occurrences_publish by apply ignores_deliveries_publication.
    cbn [is_publication]. rewrite Est. cbn. lia. }
  pose proof (stage_loop_publications event_type (Workflow.stages w1)
                Hc Hf Hs O w1 o1) as H2.
  set (r := stage_loop 0 _ w1 o1) in *.
  destruct r.1.1; cbn [fst snd].
  - unfold store_workflow. cbn [effects set_active_workflows].
    rewrite occurrences_publish by apply ignores_deliveries_publication.
    cbn [is_publication]. rewrite Eco. cbn [now snd effects set_clock].
    rewrite H2, H1. lia.
  - unfold store_workflow. cbn [effects set_active_workflows].
    rewrite H2, H1. reflexivity.
Qed.

(** A run records, for any one id, at most as many results as the workflow
    has slots holding a task with that id. *)
Lemma execute_workflow_completions (task_id : string)
    (workflow : Workflow.t) (o : t) :
  (occurrences (is_completion task_id)
     (effects (execute_workflow workflow o).2)
   ≤ occurrences (is_completion task_id) (effects o)
     + workflow_slots_with_id task_id (Workflow.stages workflow))%nat.
Proof.
  rewrite execute_workflow_unfold. cbn zeta.
  set (w1 := Workflow.set_started_at _ _).
  set (o1 := publish _ _ _).
  assert (occurrences (is_completion task_id) (effects o1)
          = occurrences (is_completion task_id) (effects o)) as H1.
  { subst o1.
    rewrite occurrences_publish by apply ignores_deliveries_completion.
    rewrite is_completion_other_type by discriminate. cbn. lia. }
  pose proof (stage_loop_completions task_id (Workflow.stages w1) O w1 o1)
    as H2.
  change (Workflow.stages w1) with (Workflow.stages workflow) in H2 |- *.
  set (r := stage_loop 0 _ w1 o1) in *.
  destruct r.1.1; cbn [fst snd].
  - unfold store_workflow. cbn [effects set_active_workflows].
    rewrite occurrences_publish by apply ignores_deliveries_completion.
    rewrite is_completion_other_type by discriminate.
    cbn [now snd effects set_clock]. lia.
  - unfold store_workflow. cbn [effects set_active_workflows]. lia.
Qed.

End Run.

(** ** Retries *)

Section Retries.
Import WorkflowOrchestrator.




End Retries.

(** ** Sequential stages and the failure strategy *)

Section FailureStrategy.
Import WorkflowOrchestrator.




End FailureStrategy.

(** ** Runs: failure exit, result store, dependency gate *)

Section RunClaims.
Import WorkflowOrchestrator.

(** C2, what the code does.  A run that returns [False] stopped inside the
    loop at a stage whose strategy is stop_on_error: the workflow is FAILED,
    its error message names that stage, its completion time is not set, and
    the stages after it are as they were.  No [workflow.failed] event is
    published: the trace holds as many of them after the run as before. *)
Theorem stop_on_error_exit_is_silent (workflow : Workflow.t) (o : t) :
  let r := execute_workflow workflow o in
  r.1.1 = false →
  Workflow.status r.1.2 = WorkflowStatus.FAILED
  ∧ Workflow.completed_at r.1.2 = Workflow.completed_at workflow
  ∧ (∃ k stage',
       Workflow.current_stage r.1.2 = Z.of_nat k
       ∧ Workflow.stages r.1.2 !! k = Some stage'
       ∧ WorkflowStage.failure_strategy stage' = "stop_on_error"
       ∧ Workflow.error_details r.1.2
         = Some ("Stage " +:+ WorkflowStage.name stage' +:+ " failed")
       ∧ ∀ k', (k < k')%nat →
           Workflow.stages r.1.2 !! k' = Workflow.stages workflow !! k')
  ∧ occurrences (is_publication "workflow.failed") (effects r.2)
    = occurrences (is_publication "workflow.failed") (effects o).
Proof.
  intros r Hfalse.
  pose proof (execute_workflow_exit workflow o) as Hx.
  cbn zeta in Hx. fold r in Hx. rewrite Hfalse in Hx.
  destruct Hx as (Hs & Hc & Hk).
  split; [exact Hs|]. split; [exact Hc|]. split; [exact Hk|].
  apply execute_workflow_publications; discriminate.
Qed.

(** The failing run of C2: the first stage of the strict workflow fails
    under stop_on_error. *)
Lemma stop_on_error_exit_is_silent_witness :
  Scenario.first_run.1.1 = false
  ∧ Workflow.status Scenario.first_run.1.2 = WorkflowStatus.FAILED
  ∧ Workflow.error_details Scenario.first_run.1.2
    = Some "Stage test failed"%string
  ∧ occurrences (is_publication "workflow.failed")
      (effects Scenario.first_run.2) = O.
Proof.
  assert (Scenario.first_run.1.1 = false) as Hfalse
    by (vm_compute; reflexivity).
  pose proof (stop_on_error_exit_is_silent Scenario.strict_workflow
                Scenario.orchestrator Hfalse) as (Hs & _ & _ & Hp).
  split; [exact Hfalse|]. split; [exact Hs|].
  split; [vm_compute; reflexivity|].
  etrans; [exact Hp|]. vm_compute. reflexivity.
Defined.

(** The [except] clause, by contrast, does publish the event. *)
Lemma except_clause_publishes_failure (e : string) (workflow : Workflow.t)
    (o : t) :
  occurrences (is_publication "workflow.failed")
    (effects (execute_workflow_except e workflow o).2)
  = S (occurrences (is_publication "workflow.failed") (effects o)).
Proof.
  unfold execute_workflow_except, store_workflow. cbn.
  rewrite occurrences_publish by apply ignores_deliveries_publication.
  cbn. lia.
Qed.

Lemma pause_workflow_results (workflow_id : string) (o : t) :
  task_results (pause_workflow workflow_id o) = task_results o.
Proof.
  unfold pause_workflow. destruct (active_workflows o !! workflow_id);
    reflexivity.
Qed.

Lemma resume_workflow_results (workflow_id : string) (o : t) :
  task_results (resume_workflow workflow_id o) = task_results o.
Proof.
  unfold resume_workflow.
  destruct (active_workflows o !! workflow_id); [|reflexivity].
  destruct (decide _); reflexivity.
Qed.

Lemma cancel_workflow_results (workflow_id : string) (o : t) :
  task_results (cancel_workflow workflow_id o) = task_results o.
Proof.
  unfold cancel_workflow. destruct (active_workflows o !! workflow_id);
    reflexivity.
Qed.

(** C3, as the code has it.  The result store belongs to the orchestrator:
    the constructor creates it empty; a dispatch writes it exactly when the
    task completes, under the id of the task, and publishes the completion
    right after; a run records for any one id at most as many results as the
    workflow has tasks with that id; and nothing ever removes an entry: every
    id recorded before a run, a pause, a resume or a cancel is still recorded
    after it.  What one run records is there for every later run on the same
    orchestrator. *)
Theorem result_store_outlives_runs (workflow : Workflow.t) (task : Task.t)
    (o : t) :
  (∀ event_bus entropy, task_results (init event_bus entropy) = ∅)
  ∧ (let r := _execute_task workflow task o in
     (if r.1.1
      then ∃ result, Task.output_data r.1.2 = Some result
             ∧ task_results r.2 = <[Task.id task := result]> (task_results o)
      else task_results r.2 = task_results o)
     ∧ ∀ task_id,
         occurrences (is_completion task_id) (effects r.2)
         = (occurrences (is_completion task_id) (effects o)
            + if r.1.1 && String.eqb (Task.id task) task_id
              then 1 else 0)%nat)
  ∧ (∀ task_id,
       occurrences (is_completion task_id)
         (effects (execute_workflow workflow o).2)
       ≤ occurrences (is_completion task_id) (effects o)
         + workflow_slots_with_id task_id (Workflow.stages workflow))%nat
  ∧ dom (task_results o) ⊆ dom (task_results (execute_workflow workflow o).2)
  ∧ (∀ workflow_id,
       task_results (pause_workflow workflow_id o) = task_results o
       ∧ task_results (resume_workflow workflow_id o) = task_results o
       ∧ task_results (cancel_workflow workflow_id o) = task_results o).
Proof.
  split; [reflexivity|]. split.
  { cbn zeta. split; [apply execute_task_state|].
    intros task_id. apply execute_task_completions. }
  split; [intros task_id; apply execute_workflow_completions|].
  split; [apply execute_workflow_run|].
  intros workflow_id. split; [apply pause_workflow_results|].
  split; [apply resume_workflow_results|apply cancel_workflow_results].
Qed.

(** C3 fails as stated.  The only task of the consumer workflow depends on
    an id that only the producer workflow has.  Run on a fresh orchestrator it
    is never dispatched; run after the producer on the same orchestrator it
    finds the producer's result in the store and completes. *)
Lemma later_run_observes_earlier_results :
  Scenario.task_statuses Scenario.producer_run.1.2 = [TaskStatus.COMPLETED]
  ∧ is_Some (task_results Scenario.producer_run.2 !! "t1")
  ∧ Scenario.task_statuses
      (execute_workflow Scenario.consumer_workflow Scenario.orchestrator).1.2
    = [TaskStatus.PENDING]
  ∧ Scenario.task_statuses Scenario.consumer_run.1.2
    = [TaskStatus.COMPLETED].
Proof.
  split; [vm_compute; reflexivity|].
  split; [vm_compute; eexists; reflexivity|].
  split; vm_compute; reflexivity.
Qed.

Lemma dependencies_recorded_elem (dependencies : list string)
    (results : gmap string Payload) (d : string) :
  dependencies_recorded dependencies results = true →
  d ∈ dependencies → is_Some (results !! d).
Proof.
  induction dependencies as [|dependency_id rest IH]; intros H Hin.
  - inversion Hin.
  - cbn in H. destruct (results !! dependency_id) eqn:E; [|discriminate].
    apply elem_of_cons in Hin as [->|Hin]; [rewrite E; eauto|].
    apply IH; assumption.
Qed.

Lemma slot_outcome_gated (o_end : t) (task task' : Task.t) (d : string) :
  slot_outcome o_end task task' →
  d ∈ Task.dependencies task →
  task_results o_end !! d = None →
  task' = task.
Proof.
  intros [->|(workflow & o_gate & o_run & Hg & Hd & _)] Hin Hnone;
    [reflexivity|].
  exfalso.
  apply (dependencies_recorded_elem _ _ d) in Hg; [|exact Hin].
  apply elem_of_dom in Hg. apply Hd in Hg. apply elem_of_dom in Hg.
  rewrite Hnone in Hg. destruct Hg as [? ?]. discriminate.
Qed.

(** C8.  A task one of whose dependency ids has no result in the store when
    the run ends (and so had none at any moment of the run) is never
    dispatched: after the run it sits in its slot exactly as it was, so a
    task that was PENDING with counter 0 is still PENDING with counter 0. *)
Theorem gated_task_is_never_dispatched (workflow : Workflow.t) (o : t)
    (i j : nat) (stage : WorkflowStage.t) (task : Task.t) (d : string) :
  let r := execute_workflow workflow o in
  Workflow.stages workflow !! i = Some stage →
  WorkflowStage.tasks stage !! j = Some task →
  d ∈ Task.dependencies task →
  task_results r.2 !! d = None →
  task_results o !! d = None
  ∧ ∃ stage',
      Workflow.stages r.1.2 !! i = Some stage'
      ∧ WorkflowStage.tasks stage' !! j = Some task
      ∧ (Task.status task = TaskStatus.PENDING →
         Task.attempt_count task = 0 →
         ∀ task', WorkflowStage.tasks stage' !! j = Some task' →
           Task.status task' = TaskStatus.PENDING
           ∧ Task.attempt_count task' = 0).
Proof.
  intros r Hi Hj Hin Hnone.
  destruct (execute_workflow_run workflow o)
    as (_ & Hd & _ & _ & _ & _ & _ & _ & Hs).
  fold r in Hd, Hs. split.
  { apply not_elem_of_dom. intros Hel. apply Hd in Hel.
    apply elem_of_dom in Hel. rewrite Hnone in Hel.
    destruct Hel as [? ?]. discriminate. }
  destruct (Forall2_lookup_l _ _ _ _ _ Hs Hi)
    as (stage' & Hi' & _ & _ & _ & Hslots).
  destruct (Forall2_lookup_l _ _ _ _ _ Hslots Hj) as (task' & Hj' & Hslot).
  apply (slot_outcome_gated _ _ _ d) in Hslot; [|exact Hin|exact Hnone].
  subst task'. exists stage'. split; [exact Hi'|]. split; [exact Hj'|].
  intros Hp Hc task' Hj''. rewrite Hj' in Hj''. injection Hj'' as <-.
  split; assumption.
Qed.

(** C8 at the consumer workflow on the fresh orchestrator: its task depends
    on "t1", which no task of the run records. *)
Lemma gated_task_is_never_dispatched_witness :
  ∃ stage',
    Workflow.stages
      (execute_workflow Scenario.consumer_workflow Scenario.orchestrator).1.2
      !! O = Some stage'
    ∧ WorkflowStage.tasks stage' !! O
      = Some (Scenario.working_task "t2" ["t1"]).
Proof.
  destruct (gated_task_is_never_dispatched Scenario.consumer_workflow
              Scenario.orchestrator O O
              (WorkflowStage.new "build" [Scenario.working_task "t2" ["t1"]])
              (Scenario.working_task "t2" ["t1"]) "t1")
    as (_ & stage' & Hi & Hj & _).
  - reflexivity.
  - reflexivity.
  - cbn. apply list_elem_of_here.
  - vm_compute. reflexivity.
  - exists stage'. split; assumption.
Defined.

End RunClaims.

(** ** Administrative operations *)

Section Administration.
Import WorkflowOrchestrator.

Lemma pause_workflow_lookup (workflow_id k : string) (o : t) :
  active_workflows (pause_workflow workflow_id o) !! k
  = if decide (k = workflow_id)
    then Workflow.set_status WorkflowStatus.PAUSED
           <$> active_workflows o !! k
    else active_workflows o !! k.
Proof.
  unfold pause_workflow.
  destruct (active_workflows o !! workflow_id) as [w|] eqn:E; cbn.
  - destruct (decide (k = workflow_id)) as [->|Hne].
    + rewrite lookup_insert_eq, E. reflexivity.
    + rewrite lookup_insert_ne by congruence. reflexivity.
  - destruct (decide (k = workflow_id)) as [->|Hne]; [|reflexivity].
    rewrite E. reflexivity.
Qed.

Lemma resume_workflow_lookup (workflow_id k : string) (o : t) :
  active_workflows (resume_workflow workflow_id o) !! k
  = if decide (k = workflow_id)
    then resumed <$> active_workflows o !! k
    else active_workflows o !! k.
Proof.
  unfold resume_workflow, resumed.
  destruct (active_workflows o !! workflow_id) as [w|] eqn:E; cbn.
  - destruct (decide (Workflow.status w = WorkflowStatus.PAUSED)) as [Hp|Hp];
      cbn.
    + destruct (decide (k = workflow_id)) as [->|Hne].
      * rewrite lookup_insert_eq, E. cbn.
        destruct (decide _); [reflexivity|contradiction].
      * rewrite lookup_insert_ne by congruence. reflexivity.
    + destruct (decide (k = workflow_id)) as [->|Hne]; [|reflexivity].
      rewrite E. cbn. destruct (decide _); [contradiction|reflexivity].
  - destruct (decide (k = workflow_id)) as [->|Hne]; [|reflexivity].
    rewrite E. reflexivity.
Qed.

Lemma cancel_workflow_lookup (workflow_id k : string) (o : t) :
  active_workflows (cancel_workflow workflow_id o) !! k
  = if decide (k = workflow_id)
    then (λ w, Workflow.set_completed_at (Some (clock o))
                 (Workflow.set_status WorkflowStatus.CANCELLED w))
           <$> active_workflows o !! k
    else active_workflows o !! k.
Proof.
  unfold cancel_workflow.
  destruct (active_workflows o !! workflow_id) as [w|] eqn:E; cbn.
  - destruct (decide (k = workflow_id)) as [->|Hne].
    + rewrite lookup_insert_eq, E. reflexivity.
    + rewrite lookup_insert_ne by congruence. reflexivity.
  - destruct (decide (k = workflow_id)) as [->|Hne]; [|reflexivity].
    rewrite E. reflexivity.
Qed.

(** C5, as the code has it.  On a workflow of the active set, pause and
    resume assign the status and nothing else; cancel assigns the status and
    the completion time, which it sets to the time of the call, and nothing
    else.  The other workflows of the active set are not touched. *)
Theorem administrative_operations_frame (workflow_id : string)
    (workflow : Workflow.t) (o : t) :
  active_workflows o !! workflow_id = Some workflow →
  (∃ w', active_workflows (pause_workflow workflow_id o) !! workflow_id
           = Some w'
         ∧ Workflow.status w' = WorkflowStatus.PAUSED
         ∧ same_but_status workflow w')
  ∧ (∃ w', active_workflows (resume_workflow workflow_id o) !! workflow_id
             = Some w'
           ∧ Workflow.status w' = Workflow.status (resumed workflow)
           ∧ same_but_status workflow w')
  ∧ (∃ w', active_workflows (cancel_workflow workflow_id o) !! workflow_id
             = Some w'
           ∧ Workflow.status w' = WorkflowStatus.CANCELLED
           ∧ Workflow.completed_at w' = Some (clock o)
           ∧ same_but_status_and_completion workflow w')
  ∧ (∀ other, other ≠ workflow_id →
       active_workflows (pause_workflow workflow_id o) !! other
         = active_workflows o !! other
       ∧ active_workflows (resume_workflow workflow_id o) !! other
         = active_workflows o !! other
       ∧ active_workflows (cancel_workflow workflow_id o) !! other
         = active_workflows o !! other).
Proof.
  intros Hw. split; [|split; [|split]].
  - eexists. rewrite pause_workflow_lookup, decide_True, Hw by reflexivity.
    split; [reflexivity|]. repeat split.
  - eexists. rewrite resume_workflow_lookup, decide_True, Hw by reflexivity.
    split; [reflexivity|]. split; [reflexivity|].
    unfold resumed. destruct (decide _); repeat split.
  - eexists. rewrite cancel_workflow_lookup, decide_True, Hw by reflexivity.
    split; [reflexivity|]. repeat split.
  - intros other Hne.
    rewrite pause_workflow_lookup, resume_workflow_lookup,
      cancel_workflow_lookup, !decide_False by assumption.
    repeat split.
Qed.

(** C5 at the strict workflow after its failed run. *)
Lemma administrative_operations_frame_witness :
  ∃ w', active_workflows (pause_workflow "w2" Scenario.first_run.2) !! "w2"
          = Some w'
        ∧ Workflow.status w' = WorkflowStatus.PAUSED
        ∧ same_but_status Scenario.first_run.1.2 w'.
Proof.
  apply (administrative_operations_frame "w2" Scenario.first_run.1.2
           Scenario.first_run.2).
  vm_compute. reflexivity.
Defined.

(** C5 fails as stated: cancel also assigns the completion time.  The
    strict workflow has none after its failed run; after the cancel it has
    one. *)
Lemma cancel_sets_completion_time :
  Workflow.completed_at
    <$> active_workflows Scenario.first_run.2 !! "w2"
  = Some None
  ∧ Workflow.completed_at
      <$> active_workflows (cancel_workflow "w2" Scenario.first_run.2) !! "w2"
    = Some (Some 5%nat).
Proof. split; vm_compute; reflexivity. Qed.

Lemma apply_operation_guarded (workflow_id : string) (op : Operation)
    (o : t) (s : WorkflowStatus.t) :
  guarded_for workflow_id op →
  s ≠ WorkflowStatus.PAUSED →
  status_of workflow_id o = Some s →
  status_of workflow_id (apply_operation o op) = Some s.
Proof.
  unfold status_of. intros Hg Hs Ho.
  destruct op as [other|other|other]; cbn in Hg |- *.
  - rewrite pause_workflow_lookup, decide_False by congruence. exact Ho.
  - rewrite resume_workflow_lookup.
    destruct (decide (workflow_id = other)) as [<-|Hne]; [|exact Ho].
    destruct (active_workflows o !! workflow_id) as [w|]; [|discriminate].
    cbn in Ho |- *. injection Ho as <-. unfold resumed.
    destruct (decide _); [contradiction|reflexivity].
  - rewrite cancel_workflow_lookup, decide_False by congruence. exact Ho.
Qed.

Lemma guarded_operations_keep_status (workflow_id : string)
    (ops : list Operation) :
  ∀ o s,
    Forall (guarded_for workflow_id) ops →
    s ≠ WorkflowStatus.PAUSED →
    status_of workflow_id o = Some s →
    status_of workflow_id (foldl apply_operation o ops) = Some s.
Proof.
  induction ops as [|op rest IH]; intros o s Hg Hs Ho; [exact Ho|].
  apply Forall_cons in Hg as [Hop Hrest]. cbn [foldl].
  apply IH; [exact Hrest|exact Hs|].
  apply apply_operation_guarded; assumption.
Qed.

(** C6, as the code has it.  Of the operations only resume looks at the
    status: it turns PAUSED into RUNNING and leaves every other status alone,
    so resume calls, and calls addressed to other workflows, never take a
    workflow out of a status other than PAUSED, a terminal one in particular.
    Pause and cancel assign PAUSED and CANCELLED whatever the status was, and
    a run assigns RUNNING on entry and ends in COMPLETED or FAILED. *)
Theorem status_transitions (workflow_id : string) (workflow : Workflow.t)
    (o : t) :
  active_workflows o !! workflow_id = Some workflow →
  status_of workflow_id (pause_workflow workflow_id o)
  = Some WorkflowStatus.PAUSED
  ∧ status_of workflow_id (cancel_workflow workflow_id o)
    = Some WorkflowStatus.CANCELLED
  ∧ status_of workflow_id (resume_workflow workflow_id o)
    = Some (if decide (Workflow.status workflow = WorkflowStatus.PAUSED)
            then WorkflowStatus.RUNNING else Workflow.status workflow)
  ∧ (∀ ops,
       Forall (guarded_for workflow_id) ops →
       Workflow.status workflow ≠ WorkflowStatus.PAUSED →
       status_of workflow_id (foldl apply_operation o ops)
       = Some (Workflow.status workflow))
  ∧ (∀ ops,
       Forall (guarded_for workflow_id) ops →
       WorkflowStatus.terminal (Workflow.status workflow) = true →
       status_of workflow_id (foldl apply_operation o ops)
       = Some (Workflow.status workflow))
  ∧ (let r := execute_workflow workflow o in
     Workflow.status r.1.2
     = (if r.1.1 then WorkflowStatus.COMPLETED else WorkflowStatus.FAILED)
     ∧ status_of (Workflow.id workflow) r.2 = Some (Workflow.status r.1.2)).
Proof.
  intros Hw. unfold status_of.
  split; [|split; [|split; [|split; [|split]]]].
  - rewrite pause_workflow_lookup, decide_True, Hw by reflexivity.
    reflexivity.
  - rewrite cancel_workflow_lookup, decide_True, Hw by reflexivity.
    reflexivity.
  - rewrite resume_workflow_lookup, decide_True, Hw by reflexivity.
    cbn. unfold resumed. destruct (decide _) as [Hp|Hp]; [reflexivity|].
    reflexivity.
  - intros ops Hg Hs.
    apply guarded_operations_keep_status; [exact Hg|exact Hs|].
    unfold status_of. rewrite Hw. reflexivity.
  - intros ops Hg Hs.
    apply guarded_operations_keep_status; [exact Hg| |].
    + intros Hp. rewrite Hp in Hs. discriminate.
    + unfold status_of. rewrite Hw. reflexivity.
  - cbn zeta. split.
    + pose proof (execute_workflow_exit workflow o) as Hx. cbn zeta in Hx.
      destruct (execute_workflow workflow o).1.1; apply Hx.
    + destruct (execute_workflow_run workflow o) as (_ & _ & -> & _).
      rewrite lookup_insert_eq. reflexivity.
Qed.

(** C6 at the producer workflow after its completed run, for a sequence of
    three resume calls. *)
Lemma status_transitions_witness :
  status_of "wa"
    (foldl apply_operation Scenario.producer_run.2
       [Resume "wa"; Resume "wa"; Resume "wa"])
  = Some WorkflowStatus.COMPLETED.
Proof.
  assert (active_workflows Scenario.producer_run.2 !! "wa"
          = Some Scenario.producer_run.1.2) as Hw
    by (vm_compute; reflexivity).
  destruct (status_transitions "wa" Scenario.producer_run.1.2
              Scenario.producer_run.2 Hw) as (_ & _ & _ & _ & H & _).
  apply (H [Resume "wa"; Resume "wa"; Resume "wa"]).
  - repeat constructor.
  - vm_compute. reflexivity.
Defined.

(** C6 fails as stated.  The producer workflow is COMPLETED after its run;
    a pause makes it PAUSED, a resume then makes it RUNNING; a cancel makes a
    COMPLETED workflow CANCELLED. *)
Lemma pause_leaves_terminal_status :
  status_of "wa" Scenario.producer_run.2 = Some WorkflowStatus.COMPLETED
  ∧ status_of "wa" (pause_workflow "wa" Scenario.producer_run.2)
    = Some WorkflowStatus.PAUSED
  ∧ status_of "wa"
      (resume_workflow "wa" (pause_workflow "wa" Scenario.producer_run.2))
    = Some WorkflowStatus.RUNNING
  ∧ status_of "wa" (cancel_workflow "wa" Scenario.producer_run.2)
    = Some WorkflowStatus.CANCELLED.
Proof. repeat split; vm_compute; reflexivity. Qed.

End Administration.

(** ** Further properties of the engine *)

Section Further.
Import WorkflowOrchestrator.

(** X1.  Pause, resume and cancel addressed to an id that is not in the
    active set change nothing, and resume addressed to a workflow that is not
    PAUSED changes nothing. *)
Theorem unknown_workflow_id_is_noop (workflow_id : string) (o : t) :
  (active_workflows o !! workflow_id = None →
   pause_workflow workflow_id o = o
   ∧ resume_workflow workflow_id o = o
   ∧ cancel_workflow workflow_id o = o)
  ∧ (∀ workflow,
       active_workflows o !! workflow_id = Some workflow →
       Workflow.status workflow ≠ WorkflowStatus.PAUSED →
       resume_workflow workflow_id o = o).
Proof.
  split.
  - intros Hnone. unfold pause_workflow, resume_workflow, cancel_workflow.
    rewrite Hnone. repeat split.
  - intros workflow Hw Hs. unfold resume_workflow. rewrite Hw.
    destruct (decide _); [contradiction|reflexivity].
Qed.

Lemma find_first (pool : list Agent.t) (agent : Agent.t) :
  List.find Agent.health_check pool = Some agent →
  ∃ before after,
    pool = before ++ agent :: after
    ∧ Agent.health_check agent = true
    ∧ Forall (λ a, Agent.health_check a = false) before.
Proof.
  induction pool as [|a rest IH]; intros H; [discriminate|].
  cbn in H. destruct (Agent.health_check a) eqn:Eh.
  - injection H as <-. exists [], rest. repeat split; [exact Eh|constructor].
  - destruct (IH H) as (before & after & -> & Hh & Hb).
    exists (a :: before), after. repeat split; [exact Hh|].
    constructor; assumption.
Qed.

Lemma find_none (pool : list Agent.t) :
  List.find Agent.health_check pool = None →
  Forall (λ a, Agent.health_check a = false) pool.
Proof.
  induction pool as [|a rest IH]; intros H; [constructor|].
  cbn in H. destruct (Agent.health_check a) eqn:Eh; [discriminate|].
  constructor; [exact Eh|apply IH, H].
Qed.

(** X2.  Agent selection scans the agents registered for the type in
    registration order and hands back the first one whose health check
    passes; it hands back none exactly when the type has no pool or no agent
    of the pool is healthy.  Registration appends to the pool of the agent's
    type. *)
Theorem agent_selection_first_healthy (agent_type : AgentType.t) (o : t) :
  match _get_available_agent agent_type o with
  | Some agent =>
      ∃ before after,
        agents o !! agent_type = Some (before ++ agent :: after)
        ∧ Agent.health_check agent = true
        ∧ Forall (λ a, Agent.health_check a = false) before
  | None =>
      agents o !! agent_type = None
      ∨ ∃ pool, agents o !! agent_type = Some pool
                ∧ Forall (λ a, Agent.health_check a = false) pool
  end
  ∧ (∀ agent,
       agents (register_agent agent o) !! Agent.agent_type agent
       = Some (default [] (agents o !! Agent.agent_type agent) ++ [agent])).
Proof.
  split.
  - unfold _get_available_agent.
    destruct (agents o !! agent_type) as [pool|]; [|left; reflexivity].
    destruct (List.find Agent.health_check pool) as [agent|] eqn:Ef.
    + destruct (find_first pool agent Ef) as (before & after & -> & Hh & Hb).
      exists before, after. repeat split; assumption.
    + right. exists pool. split; [reflexivity|apply find_none, Ef].
  - intros agent. unfold register_agent. cbn.
    destruct (agents o !! Agent.agent_type agent) as [pool|] eqn:Ep.
    + rewrite lookup_alter_eq, Ep. reflexivity.
    + rewrite lookup_alter_eq, lookup_insert_eq. reflexivity.
Qed.

Lemma gather_skips_ineligible (workflow : Workflow.t)
    (eligible : Task.t → bool) (tasks : list Task.t) :
  ∀ o,
    Forall2 (λ task task', eligible task = false → task' = task) tasks
      (gather workflow eligible tasks o).1.2.
Proof.
  induction tasks as [|task rest IH]; intros o; cbn [gather]; [constructor|].
  destruct (eligible task) eqn:Ee.
  - destruct (_execute_task workflow task o) as [[result task'] o'].
    specialize (IH o').
    destruct (gather workflow eligible rest o') as [[results rest'] o''].
    cbn [fst snd] in IH |- *.
    constructor; [intros H; congruence|exact IH].
  - specialize (IH o).
    destruct (gather workflow eligible rest o) as [[results rest'] o''].
    cbn [fst snd] in IH |- *. constructor; [reflexivity|exact IH].
Qed.

(** X3.  In a parallel stage the dependency gate is evaluated once, before
    any task is launched: a task whose dependencies are not all recorded when
    the pass begins is left as it was, also when another task of the same
    pass records the missing result. *)
Theorem parallel_gate_is_snapshot (workflow : Workflow.t)
    (stage : WorkflowStage.t) (o : t) (j : nat) (task : Task.t) :
  WorkflowStage.parallel_execution stage = true →
  WorkflowStage.tasks stage !! j = Some task →
  _can_execute_task task o = false →
  WorkflowStage.tasks (_execute_stage workflow stage o).1.2 !! j = Some task.
Proof.
  intros Hpar Hj Hgate. unfold _execute_stage, _execute_tasks_parallel.
  rewrite Hpar.
  destruct (List.filter _ _) as [|first others]; [exact Hj|].
  pose proof (gather_skips_ineligible workflow
                (λ task, _can_execute_task task o)
                (WorkflowStage.tasks stage) o) as H.
  destruct (gather workflow _ _ o) as [[results tasks'] o'].
  cbn [fst snd WorkflowStage.tasks WorkflowStage.set_tasks] in H |- *.
  destruct (Forall2_lookup_l _ _ _ _ _ H Hj) as (task' & Hj' & Heq).
  rewrite Hj', (Heq Hgate). reflexivity.
Qed.

(** X3 at a parallel stage whose second task depends on its first: the
    first completes and records its result, the second is not launched. *)
Lemma parallel_gate_is_snapshot_witness :
  WorkflowStage.tasks
    (_execute_stage Scenario.producer_workflow Scenario.chained_stage
       Scenario.orchestrator).1.2
  !! 1%nat
  = Some (Scenario.working_task "t2" ["t1"]).
Proof.
  apply parallel_gate_is_snapshot; reflexivity.
Defined.

End Further.

(** ** Workflows whose dependencies point backwards *)

Section Completion.
Import WorkflowOrchestrator.

Lemma ids_of_nil (known : gset string) : known = task_ids [] ∪ known.
Proof. unfold task_ids. cbn. rewrite (left_id_L ∅ (∪)). reflexivity. Qed.

Lemma ids_of_cons (task : Task.t) (rest : list Task.t)
    (known : gset string) :
  task_ids rest ∪ ({[Task.id task]} ∪ known)
  = task_ids (task :: rest) ∪ known.
Proof.
  unfold task_ids. cbn.
  rewrite (assoc_L (∪)), (comm_L (∪) _ {[Task.id task]}). reflexivity.
Qed.

Lemma served_same_setup (o o' : t) (task : Task.t) :
  same_setup o o' → served o task → served o' task.
Proof.
  intros (_ & Ha & _) (agent & Hsel & Hret). exists agent.
  split; [|exact Hret]. unfold _get_available_agent in *.
  rewrite Ha. exact Hsel.
Qed.

Lemma dispatch_served (workflow : Workflow.t) (task : Task.t) (o : t) :
  served o task →
  ∃ result,
    _execute_task workflow task o
    = Attempt.succeed workflow result
        (Attempt.start task o).1 (Attempt.start task o).2.
Proof.
  intros (agent & Hsel & Hret).
  pose proof (execute_task_runs workflow task o) as Hrun.
  unfold call_depth in Hrun. rewrite execute_task_unfold in Hrun.
  destruct (Attempt.start task o) as [task1 o1] eqn:Es.
  assert (Attempt.outcome task1 o1
          = match Agent.execute_task agent task1 with
            | Agent.Returns result => inl result
            | Agent.TimesOut =>
                inr ("Task timed out after " +:+ pretty (Task.timeout task1)
                     +:+ " seconds")
            | Agent.Raises e => inr e
            end) as Ho.
  { unfold Attempt.outcome, _get_available_agent in *.
    unfold Attempt.start in Es. cbn in Es. injection Es as <- <-. cbn.
    destruct (agents o !! Task.agent_type task) as [pool|]; [|discriminate].
    rewrite Hsel. reflexivity. }
  destruct (Hret task1) as [result Hr]. rewrite Ho, Hr in Hrun.
  exists result. cbn [fst snd]. congruence.
Qed.

Lemma dispatch_served_facts (workflow : Workflow.t) (task : Task.t) (o : t) :
  served o task →
  let r := _execute_task workflow task o in
  r.1.1 = true
  ∧ completed_once task r.1.2
  ∧ dom (task_results r.2) = {[Task.id task]} ∪ dom (task_results o)
  ∧ same_setup o r.2.
Proof.
  intros Hs. destruct (dispatch_served workflow task o Hs) as [result ->].
  unfold Attempt.succeed. cbn. rewrite publish_unfold. cbn.
  split; [reflexivity|]. split.
  { split; [repeat split|]. split; [reflexivity|].
    split; [reflexivity|eexists; reflexivity]. }
  split; [apply dom_insert_L|repeat split].
Qed.

Lemma dependencies_recorded_true (dependencies : list string)
    (results : gmap string Payload) :
  (∀ d, d ∈ dependencies → d ∈ dom results) →
  dependencies_recorded dependencies results = true.
Proof.
  induction dependencies as [|d rest IH]; intros H; [reflexivity|].
  cbn. assert (d ∈ dom results) as Hd by (apply H; left).
  apply elem_of_dom in Hd as [v ->].
  apply IH. intros d' Hd'. apply H. right. exact Hd'.
Qed.

Lemma sequential_completes (workflow : Workflow.t) (tasks : list Task.t) :
  ∀ o,
    Forall (served o) tasks →
    sequential_ready (dom (task_results o)) tasks →
    let r := _execute_tasks_sequential workflow tasks o in
    r.1.1 = true
    ∧ Forall2 completed_once tasks r.1.2
    ∧ dom (task_results r.2) = task_ids tasks ∪ dom (task_results o)
    ∧ same_setup o r.2.
Proof.
  induction tasks as [|task rest IH]; intros o Hserved Hready;
    cbn [_execute_tasks_sequential].
  - cbn. split; [reflexivity|]. split; [constructor|].
    split; [apply ids_of_nil|apply same_setup_refl].
  - apply Forall_cons in Hserved as [Hs Hrest].
    destruct Hready as [Hdeps Hready].
    assert (_can_execute_task task o = true) as ->
      by (apply dependencies_recorded_true; exact Hdeps).
    cbn [negb].
    pose proof (dispatch_served_facts workflow task o Hs)
      as (Hok & Hdone & Hdom & Hsetup).
    destruct (_execute_task workflow task o) as [[success task'] o'].
    cbn [fst snd] in Hok, Hdone, Hdom, Hsetup. subst success. cbn [negb].
    destruct (IH o') as (Hok' & Hdone' & Hdom' & Hsetup').
    { eapply Forall_impl; [exact Hrest|].
      intros t. apply served_same_setup, Hsetup. }
    { rewrite Hdom. exact Hready. }
    destruct (_execute_tasks_sequential workflow rest o')
      as [[result rest'] o''].
    cbn [fst snd] in Hok', Hdone', Hdom', Hsetup' |- *.
    split; [exact Hok'|]. split; [constructor; assumption|].
    split; [|eapply same_setup_trans; eassumption].
    rewrite Hdom', Hdom. apply ids_of_cons.
Qed.

Lemma gather_completes (workflow : Workflow.t) (eligible : Task.t → bool)
    (tasks : list Task.t) :
  ∀ o,
    Forall (served o) tasks →
    Forall (λ task, eligible task = true) tasks →
    let r := gather workflow eligible tasks o in
    forallb (λ result, result) r.1.1 = true
    ∧ Forall2 completed_once tasks r.1.2
    ∧ dom (task_results r.2) = task_ids tasks ∪ dom (task_results o)
    ∧ same_setup o r.2.
Proof.
  induction tasks as [|task rest IH]; intros o Hserved Hel; cbn [gather].
  - cbn. split; [reflexivity|]. split; [constructor|].
    split; [apply ids_of_nil|apply same_setup_refl].
  - apply Forall_cons in Hserved as [Hs Hrest].
    apply Forall_cons in Hel as [-> Hel].
    pose proof (dispatch_served_facts workflow task o Hs)
      as (Hok & Hdone & Hdom & Hsetup).
    destruct (_execute_task workflow task o) as [[success task'] o'].
    cbn [fst snd] in Hok, Hdone, Hdom, Hsetup. subst success.
    destruct (IH o') as (Hok' & Hdone' & Hdom' & Hsetup').
    { eapply Forall_impl; [exact Hrest|].
      intros t. apply served_same_setup, Hsetup. }
    { exact Hel. }
    destruct (gather workflow eligible rest o') as [[results rest'] o''].
    cbn [fst snd forallb andb] in Hok', Hdone', Hdom', Hsetup' |- *.
    split; [exact Hok'|]. split; [constructor; assumption|].
    split; [|eapply same_setup_trans; eassumption].
    rewrite Hdom', Hdom. apply ids_of_cons.
Qed.

Lemma stage_completes (workflow : Workflow.t) (stage : WorkflowStage.t)
    (o : t) :
  Forall (served o) (WorkflowStage.tasks stage) →
  (if WorkflowStage.parallel_execution stage
   then Forall (dependencies_known (dom (task_results o)))
          (WorkflowStage.tasks stage)
   else sequential_ready (dom (task_results o)) (WorkflowStage.tasks stage)) →
  let r := _execute_stage workflow stage o in
  r.1.1 = true
  ∧ stage_completed_once stage r.1.2
  ∧ WorkflowStage.failure_strategy r.1.2
    = WorkflowStage.failure_strategy stage
  ∧ dom (task_results r.2)
    = task_ids (WorkflowStage.tasks stage) ∪ dom (task_results o)
  ∧ same_setup o r.2.
Proof.
  intros Hserved Hready. unfold _execute_stage, stage_completed_once.
  destruct (WorkflowStage.parallel_execution stage).
  - unfold _execute_tasks_parallel.
    assert (Forall (λ task, _can_execute_task task o = true)
              (WorkflowStage.tasks stage)) as Hel.
    { eapply Forall_impl; [exact Hready|].
      intros task. apply dependencies_recorded_true. }
    destruct (List.filter _ _) as [|first others] eqn:Ef.
    + assert (WorkflowStage.tasks stage = []) as Hnil.
      { destruct (WorkflowStage.tasks stage) as [|task rest];
          [reflexivity|].
        apply Forall_cons in Hel as [Ht _]. cbn in Ef. rewrite Ht in Ef.
        discriminate. }
      cbn. rewrite Hnil. split; [reflexivity|].
      split; [split; [reflexivity|constructor]|].
      split; [reflexivity|].
      split; [apply ids_of_nil|apply same_setup_refl].
    + pose proof (gather_completes workflow
                    (λ task, _can_execute_task task o)
                    (WorkflowStage.tasks stage) o Hserved Hel) as H.
      cbn zeta in H.
      destruct (gather workflow _ _ o) as [[results tasks'] o'].
      cbn in H |- *. destruct H as (H1 & H2 & H3 & H4).
      repeat split; try assumption; apply H4.
  - pose proof (sequential_completes workflow (WorkflowStage.tasks stage)
                  o Hserved Hready) as H.
    cbn zeta in H.
    destruct (_execute_tasks_sequential workflow _ o)
      as [[result tasks'] o'].
    cbn in H |- *. destruct H as (H1 & H2 & H3 & H4).
    repeat split; try assumption; apply H4.
Qed.

Lemma stage_loop_completes (todo : list WorkflowStage.t) :
  ∀ stage_index workflow o pre,
    Workflow.stages workflow = pre ++ todo →
    length pre = stage_index →
    Forall (λ stage, Forall (served o) (WorkflowStage.tasks stage)) todo →
    stages_ready (dom (task_results o)) todo →
    let r := stage_loop stage_index todo workflow o in
    r.1.1 = Exhausted
    ∧ ∃ todo', Workflow.stages r.1.2 = pre ++ todo'
               ∧ Forall2 stage_completed_once todo todo'.
Proof.
  induction todo as [|stage rest IH]; intros i w o pre Hst Hlen Hserved Hready.
  - cbn. split; [reflexivity|]. exists []. split; [exact Hst|constructor].
  - apply Forall_cons in Hserved as [Hs Hrest].
    destruct Hready as [Hstage Hready].
    rewrite stage_loop_unfold. cbn zeta.
    set (w0 := Workflow.set_current_stage (Z.of_nat i) w).
    destruct (stage_completes w0 stage o Hs Hstage)
      as (Hok & Hdone & Hstrat & Hdom & Hsetup).
    set (r := _execute_stage w0 stage o) in *.
    set (w1 := Workflow.set_stages _ w0).
    assert (Workflow.stages w1 = pre ++ r.1.2 :: rest) as Hst1.
    { subst w1 w0. cbn. rewrite Hst, <- Hlen.
      apply insert_at_end_of_prefix. }
    rewrite Hok. cbn [negb andb].
    set (o1 := publish _ _ r.2).
    assert (same_setup o o1 ∧ task_results o1 = task_results r.2)
      as [Hsetup1 Hres1].
    { subst o1. rewrite publish_unfold. cbn. split; [|reflexivity].
      destruct Hsetup as (?&?&?). repeat split; assumption. }
    destruct (IH (S i) w1 o1 (pre ++ [r.1.2])) as (Hexit & todo' & Hst' & Hs').
    { rewrite Hst1, <- app_assoc. reflexivity. }
    { rewrite length_app. cbn. lia. }
    { eapply Forall_impl; [exact Hrest|]. intros s Hsv.
      eapply Forall_impl; [exact Hsv|].
      intros t. apply served_same_setup, Hsetup1. }
    { rewrite Hres1, Hdom. exact Hready. }
    split; [exact Hexit|]. exists (r.1.2 :: todo').
    split; [rewrite Hst', <- app_assoc; reflexivity|].
    constructor; assumption.
Qed.

Lemma ordered_run (workflow : Workflow.t) (o : t) :
  Forall (λ stage, Forall (served o) (WorkflowStage.tasks stage))
    (Workflow.stages workflow) →
  stages_ready (dom (task_results o)) (Workflow.stages workflow) →
  (execute_workflow workflow o).1.1 = true
  ∧ Forall2 stage_completed_once (Workflow.stages workflow)
      (Workflow.stages (execute_workflow workflow o).1.2).
Proof.
  intros Hserved Hready.
  rewrite execute_workflow_unfold. cbn zeta.
  set (w1 := Workflow.set_started_at _ _).
  set (o1 := publish _ _ _).
  assert (same_setup o o1 ∧ task_results o1 = task_results o)
    as [Hsetup Hres].
  { subst o1. rewrite publish_unfold. cbn. repeat split. }
  destruct (stage_loop_completes (Workflow.stages w1) O w1 o1 [] eq_refl
              eq_refl) as (Hexit & todo' & Hst & Hdone).
  { eapply Forall_impl; [exact Hserved|]. intros stage Hsv.
    eapply Forall_impl; [exact Hsv|].
    intros task. apply served_same_setup, Hsetup. }
  { rewrite Hres. exact Hready. }
  cbn [app] in Hst. rewrite <- Hst in Hdone.
  set (r := stage_loop 0 _ w1 o1) in *. rewrite Hexit. cbn [fst snd].
  split; [reflexivity|exact Hdone].
Qed.

(** X4.  A workflow whose agents all answer and whose dependencies point
    backwards runs to completion: when every task has a healthy agent of its
    type that returns a result, and every task depends only on ids recorded
    before the run, on tasks of earlier stages, or (in a sequential stage) on
    earlier tasks of its stage, then the run returns [True], the workflow is
    COMPLETED, and every task is COMPLETED after exactly one attempt with its
    output set. *)
Theorem ordered_workflow_completes (workflow : Workflow.t) (o : t) :
  Forall (λ stage, Forall (served o) (WorkflowStage.tasks stage))
    (Workflow.stages workflow) →
  stages_ready (dom (task_results o)) (Workflow.stages workflow) →
  let r := execute_workflow workflow o in
  r.1.1 = true
  ∧ Workflow.status r.1.2 = WorkflowStatus.COMPLETED
  ∧ Forall2 stage_completed_once (Workflow.stages workflow)
      (Workflow.stages r.1.2).
Proof.
  intros Hserved Hready r.
  destruct (ordered_run workflow o Hserved Hready) as [Hok Hdone].
  pose proof (execute_workflow_exit workflow o) as Hx. cbn zeta in Hx.
  fold r in Hok, Hdone, Hx. rewrite Hok in Hx. destruct Hx as [Hst _].
  split; [exact Hok|]. split; [exact Hst|exact Hdone].
Qed.

Lemma base_agent_serves (o : t) (task : Task.t) (agent_id : string) :
  _get_available_agent (Task.agent_type task) o
  = Some (Agent.new agent_id (Task.agent_type task)) →
  served o task.
Proof.
  intros Hsel. eexists. split; [exact Hsel|].
  intros t. eexists. reflexivity.
Qed.

(** X4 at the producer workflow, whose only task needs the code generator
    of the scenario. *)
Lemma ordered_workflow_completes_witness :
  Scenario.producer_run.1.1 = true
  ∧ Workflow.status Scenario.producer_run.1.2 = WorkflowStatus.COMPLETED.
Proof.
  destruct (ordered_workflow_completes Scenario.producer_workflow
              Scenario.orchestrator) as (Hok & Hst & _).
  - repeat constructor. apply (base_agent_serves _ _ "gen-001").
    vm_compute. reflexivity.
  - cbn. split; [|exact I]. split; [|exact I]. intros d Hd. inversion Hd.
  - split; assumption.
Defined.

End Completion.

(** ** Status query *)

Section StatusQuery.
Import WorkflowOrchestrator.

Lemma round_half_even_bounds (n d k : Z) :
  0 < d → 0 ≤ n ≤ k * d → 0 ≤ round_half_even n d ≤ k.
Proof.
  intros Hd [Hn Hk]. unfold round_half_even.
  pose proof (Z.div_mod n d ltac:(lia)) as Hdm.
  pose proof (Z.mod_pos_bound n d Hd) as Hr.
  assert (0 ≤ n / d) as Hq by (apply Z.div_pos; lia).
  assert (n / d ≤ k) as Hqk.
  { apply Z.div_le_upper_bound; lia. }
  assert (n / d = k → n mod d = 0) as Hfull by nia.
  destruct (2 * (n mod d) <? d) eqn:E1; [lia|].
  apply Z.ltb_ge in E1.
  assert (n / d < k) by (destruct (Z.eq_dec (n / d) k); [|lia];
                         specialize (Hfull ltac:(assumption)); lia).
  destruct (d <? 2 * (n mod d)); [lia|].
  destruct (Z.even (n / d)); lia.
Qed.

(** The rounded quotient is within half a unit of the exact one. *)
Lemma round_half_even_close (n d : Z) :
  0 < d →
  2 * Z.abs (round_half_even n d * d - n) ≤ d.
Proof.
  intros Hd. unfold round_half_even.
  pose proof (Z.div_mod n d ltac:(lia)) as Hdm.
  pose proof (Z.mod_pos_bound n d Hd) as Hr.
  destruct (2 * (n mod d) <? d) eqn:E1.
  { apply Z.ltb_lt in E1. nia. }
  apply Z.ltb_ge in E1.
  destruct (d <? 2 * (n mod d)) eqn:E2.
  { apply Z.ltb_lt in E2. nia. }
  apply Z.ltb_ge in E2.
  destruct (Z.even (n / d)); nia.
Qed.

Lemma round_half_even_exact (q d : Z) :
  0 < d → round_half_even (q * d) d = q.
Proof.
  intros Hd. unfold round_half_even.
  rewrite Z.div_mul, Z.mod_mul by lia.
  destruct (2 * 0 <? d) eqn:E; [reflexivity|].
  apply Z.ltb_ge in E. lia.
Qed.

Lemma count_completed_bounds (tasks : list Task.t) :
  ∀ c, c ≤ count_completed tasks c ≤ c + Z.of_nat (length tasks).
Proof.
  induction tasks as [|task rest IH]; intros c; cbn [count_completed length];
    [lia|].
  destruct (decide _); [specialize (IH (c + 1))|specialize (IH c)]; lia.
Qed.

Lemma count_completed_all (tasks : list Task.t) :
  Forall (λ task, Task.status task = TaskStatus.COMPLETED) tasks →
  ∀ c, count_completed tasks c = c + Z.of_nat (length tasks).
Proof.
  induction 1 as [|task rest Hs _ IH]; intros c;
    cbn [count_completed length]; [lia|].
  rewrite decide_True by assumption. rewrite IH. lia.
Qed.

Lemma count_completed_none (tasks : list Task.t) :
  Forall (λ task, Task.status task ≠ TaskStatus.COMPLETED) tasks →
  ∀ c, count_completed tasks c = c.
Proof.
  induction 1 as [|task rest Hs _ IH]; intros c;
    cbn [count_completed]; [reflexivity|].
  rewrite decide_False by assumption. apply IH.
Qed.

Lemma total_tasks_stages (stages : list WorkflowStage.t) :
  fold_right
    (λ stage total, Z.of_nat (length (WorkflowStage.tasks stage)) + total)
    0 stages
  = Z.of_nat (length (flat_map WorkflowStage.tasks stages)).
Proof.
  induction stages as [|stage rest IH]; [reflexivity|].
  cbn [fold_right flat_map]. rewrite IH, length_app. lia.
Qed.

Lemma count_completed_app (l1 l2 : list Task.t) (c : Z) :
  count_completed (l1 ++ l2) c = count_completed l2 (count_completed l1 c).
Proof.
  revert c. induction l1 as [|task rest IH]; intros c; [reflexivity|].
  cbn [app count_completed]. destruct (decide _); apply IH.
Qed.

Lemma count_completed_stages_flat (stages : list WorkflowStage.t) (c : Z) :
  count_completed_stages stages c
  = count_completed (flat_map WorkflowStage.tasks stages) c.
Proof.
  revert c. induction stages as [|stage rest IH]; intros c; [reflexivity|].
  cbn [count_completed_stages flat_map].
  rewrite count_completed_app. apply IH.
Qed.

(** X5.  The status query answers [None] exactly for an id that is not in
    the active set.  For an active workflow it mirrors the workflow's id,
    status, current stage, number of stages, timestamps and error message; the
    progress it reports is a number of hundredths between 0 and 100, within
    half a hundredth of 100 x completed / total, equal to 100 when every task
    is COMPLETED and there is at least one, and 0 when no task is COMPLETED
    or there is none. *)
Theorem status_query_snapshot (workflow_id : string) (o : t) :
  (get_workflow_status workflow_id o = None
   ↔ active_workflows o !! workflow_id = None)
  ∧ ∀ workflow,
      active_workflows o !! workflow_id = Some workflow →
      let tasks := flat_map WorkflowStage.tasks (Workflow.stages workflow) in
      let total := Z.of_nat (length tasks) in
      let completed := count_completed tasks 0 in
      ∃ snapshot,
        get_workflow_status workflow_id o = Some snapshot
        ∧ Snapshot.workflow_id snapshot = Workflow.id workflow
        ∧ Snapshot.status snapshot
          = WorkflowStatus.value (Workflow.status workflow)
        ∧ Snapshot.current_stage snapshot = Workflow.current_stage workflow
        ∧ Snapshot.total_stages snapshot
          = Z.of_nat (length (Workflow.stages workflow))
        ∧ Snapshot.started_at snapshot
          = isoformat (Workflow.started_at workflow)
        ∧ Snapshot.completed_at snapshot
          = isoformat (Workflow.completed_at workflow)
        ∧ Snapshot.error_details snapshot = Workflow.error_details workflow
        ∧ 0 ≤ completed ≤ total
        ∧ (∃ hundredths,
             (Snapshot.progress snapshot == hundredths # 100)%Q
             ∧ 0 ≤ hundredths ≤ 10000
             ∧ (0 < total →
                2 * Z.abs (hundredths * total - completed * 10000) ≤ total)
             ∧ (0 < total → completed = total → hundredths = 10000)
             ∧ (completed = 0 → hundredths = 0)
             ∧ (total = 0 → hundredths = 0)).
Proof.
  split.
  { unfold get_workflow_status.
    destruct (active_workflows o !! workflow_id); split; intros H;
      try reflexivity; discriminate. }
  intros workflow Hw tasks total completed.
  unfold get_workflow_status. rewrite Hw.
  eexists. split; [reflexivity|]. cbn.
  repeat (split; [reflexivity|]).
  unfold WorkflowOrchestrator.total_tasks.
  rewrite total_tasks_stages, count_completed_stages_flat.
  fold tasks. fold total. fold completed.
  pose proof (count_completed_bounds tasks 0) as Hb. fold completed in Hb.
  split; [unfold total; lia|].
  destruct (0 <? total) eqn:Et.
  - apply Z.ltb_lt in Et.
    exists (round_half_even (completed * 10000) total).
    split; [reflexivity|].
    split; [apply round_half_even_bounds; unfold total in *; lia|].
    split; [intros _; apply round_half_even_close; exact Et|].
    split; [|split].
    + intros _ ->. rewrite (Z.mul_comm total).
      apply round_half_even_exact. exact Et.
    + intros ->. apply (round_half_even_exact 0 total Et).
    + lia.
  - apply Z.ltb_ge in Et. exists 0. split; [reflexivity|].
    repeat split; lia.
Qed.

Lemma get_workflow_status_active (workflow_id : string)
    (workflow : Workflow.t) (o : t) :
  active_workflows o !! workflow_id = Some workflow →
  ∃ snapshot,
    get_workflow_status workflow_id o = Some snapshot
    ∧ Snapshot.workflow_id snapshot = Workflow.id workflow
    ∧ Snapshot.status snapshot
      = WorkflowStatus.value (Workflow.status workflow)
    ∧ Snapshot.total_stages snapshot
      = Z.of_nat (length (Workflow.stages workflow))
    ∧ Snapshot.started_at snapshot = isoformat (Workflow.started_at workflow)
    ∧ Snapshot.completed_at snapshot
      = isoformat (Workflow.completed_at workflow)
    ∧ Snapshot.error_details snapshot = Workflow.error_details workflow
    ∧ Snapshot.progress snapshot
      = if 0 <? total_tasks workflow
        then round_half_even
               (count_completed_stages (Workflow.stages workflow) 0 * 10000)
               (total_tasks workflow) # 100
        else 0%Q.
Proof.
  intros Hw. unfold get_workflow_status. rewrite Hw.
  eexists. split; [reflexivity|]. repeat split.
Qed.

Lemma execute_workflow_completion_time (workflow : Workflow.t) (o : t) :
  (execute_workflow workflow o).1.1 = true →
  ∃ t, Workflow.completed_at (execute_workflow workflow o).1.2 = Some t
       ∧ (clock o < t)%nat.
Proof.
  rewrite execute_workflow_unfold. cbn zeta.
  set (w1 := Workflow.set_started_at _ _).
  set (o1 := publish _ _ _).
  assert (clock o1 = S (clock o)) as Hc1.
  { subst o1. rewrite publish_unfold. reflexivity. }
  destruct (stage_loop_stages (Workflow.stages w1) O w1 o1 [] eq_refl eq_refl)
    as ((_ & _ & Hclock & _) & _).
  set (r := stage_loop 0 _ w1 o1) in *.
  destruct r.1.1; cbn [fst snd]; [|discriminate].
  intros _. exists (clock r.2). split; [reflexivity|lia].
Qed.

(** X6.  After a run the status query for the workflow's id always
    answers: it reports "completed" when the run returned [True] and "failed"
    when it returned [False], the id of the workflow, as many stages as the
    workflow has, and the time the run started. *)
Theorem status_query_after_run (workflow : Workflow.t) (o : t) :
  let r := execute_workflow workflow o in
  ∃ snapshot,
    get_workflow_status (Workflow.id workflow) r.2 = Some snapshot
    ∧ Snapshot.workflow_id snapshot = Workflow.id workflow
    ∧ Snapshot.status snapshot
      = (if r.1.1 then "completed" else "failed")%string
    ∧ Snapshot.total_stages snapshot
      = Z.of_nat (length (Workflow.stages workflow))
    ∧ Snapshot.started_at snapshot = VTime (clock o)
    ∧ (if r.1.1
       then ∃ t, Snapshot.completed_at snapshot = VTime t
                 ∧ (clock o < t)%nat
       else Snapshot.completed_at snapshot
            = isoformat (Workflow.completed_at workflow)
            ∧ is_Some (Snapshot.error_details snapshot)).
Proof.
  intros r.
  destruct (execute_workflow_run workflow o)
    as (_ & _ & Ha & Hid & _ & _ & _ & Hstart & Hs).
  pose proof (execute_workflow_exit workflow o) as Hx.
  cbn zeta in Hx. fold r in Ha, Hid, Hstart, Hs, Hx.
  destruct (get_workflow_status_active (Workflow.id workflow) r.1.2 r.2)
    as (snapshot & Hq & Hwid & Hst & Htot & Hsa & Hca & Herr & _).
  { rewrite Ha. apply lookup_insert_eq. }
  exists snapshot. split; [exact Hq|].
  split; [congruence|].
  split.
  { rewrite Hst. destruct r.1.1; destruct Hx as [-> _]; reflexivity. }
  split; [rewrite Htot; f_equal; symmetry; eapply Forall2_length, Hs|].
  split; [rewrite Hsa, Hstart; reflexivity|].
  rewrite Hca, Herr.
  destruct r.1.1 eqn:Eok.
  - destruct (execute_workflow_completion_time workflow o Eok)
      as (t & Ht & Hlt).
    fold r in Ht. rewrite Ht. exists t. split; [reflexivity|exact Hlt].
  - destruct Hx as (_ & -> & k & stage' & _ & _ & _ & -> & _).
    split; [reflexivity|eexists; reflexivity].
Qed.

End StatusQuery.

(** ** The factory workflow and the example driver *)

Section Factory.
Import WorkflowOrchestrator.

Lemma main_orchestrator_serves (entropy : nat → Q) (task : Task.t) :
  Task.agent_type task ≠ AgentType.ORCHESTRATOR →
  served (main_orchestrator entropy) task.
Proof.
  intros Hne. unfold served.
  destruct (Task.agent_type task); [contradiction|..];
    (eexists; split; [vm_compute; reflexivity|];
     intros t; eexists; reflexivity).
Qed.

Lemma stages_completed_flat (stages stages' : list WorkflowStage.t) :
  Forall2 stage_completed_once stages stages' →
  Forall2 completed_once (flat_map WorkflowStage.tasks stages)
    (flat_map WorkflowStage.tasks stages').
Proof.
  induction 1 as [|stage stage' rest rest' [_ Hs] _ IH]; [constructor|].
  cbn [flat_map]. apply Forall2_app; assumption.
Qed.

Lemma completed_once_columns (tasks tasks' : list Task.t) :
  Forall2 completed_once tasks tasks' →
  map Task.id tasks' = map Task.id tasks
  ∧ map Task.status tasks' = map (λ _, TaskStatus.COMPLETED) tasks
  ∧ map Task.attempt_count tasks'
    = map (λ task, Task.attempt_count task + 1) tasks.
Proof.
  induction 1 as [|task task' rest rest' Hc _ (IH1 & IH2 & IH3)];
    [repeat split|].
  destruct Hc as ((Hid & _) & Hst & Hcount & _).
  cbn [map]. rewrite IH1, IH2, IH3, Hid, Hst, Hcount. repeat split.
Qed.

Lemma completed_once_progress (stages stages' : list WorkflowStage.t) :
  Forall2 stage_completed_once stages stages' →
  count_completed_stages stages' 0
  = Z.of_nat (length (flat_map WorkflowStage.tasks stages))
  ∧ fold_right
      (λ stage total, Z.of_nat (length (WorkflowStage.tasks stage)) + total)
      0 stages'
    = Z.of_nat (length (flat_map WorkflowStage.tasks stages)).
Proof.
  intros H. apply stages_completed_flat in H.
  rewrite count_completed_stages_flat, total_tasks_stages.
  pose proof (Forall2_length _ _ _ H) as Hlen. split; [|lia].
  rewrite count_completed_all; [lia|].
  apply Forall2_Forall_r with (1 := H).
  apply Forall_forall. intros task _ task' (_ & Hst & _). exact Hst.
Qed.

(** Membership in a union of singletons, by search. *)
Ltac find_id :=
  solve [ apply elem_of_singleton; reflexivity
        | apply elem_of_union_l; find_id
        | apply elem_of_union_r; find_id ].

Lemma factory_workflow_ready (title : string → string)
    (workflow_id project_id : string) (requirements : Payload)
    (app_type : string) (entropy : nat → Q) :
  let workflow :=
    WorkflowFactory.create_fullstack_app_workflow title workflow_id
      project_id requirements app_type in
  Forall (λ stage,
            Forall (served (main_orchestrator entropy))
              (WorkflowStage.tasks stage))
    (Workflow.stages workflow)
  ∧ stages_ready (dom (task_results (main_orchestrator entropy)))
      (Workflow.stages workflow).
Proof.
  cbn zeta. split.
  - repeat constructor; apply main_orchestrator_serves; discriminate.
  - cbn.
    repeat split; intros d Hd;
      repeat (apply elem_of_cons in Hd as [->|Hd]);
      try (inversion Hd; fail); find_id.
Qed.

(** X7.  The workflow the factory builds, run as the example driver runs
    it (six base agents, one per capability, a new bus): for every workflow
    id, project, requirements and application type the run returns [True],
    the six tasks keep their ids and are all COMPLETED after one attempt
    each; the driver then reads a status of "completed" with progress 100,
    three stages and no error. *)
Theorem factory_workflow_completes (title : string → string)
    (workflow_id project_id : string) (requirements : Payload)
    (app_type : string) (entropy : nat → Q) :
  let workflow :=
    WorkflowFactory.create_fullstack_app_workflow title workflow_id
      project_id requirements app_type in
  let r := execute_workflow workflow (main_orchestrator entropy) in
  let tasks' := flat_map WorkflowStage.tasks (Workflow.stages r.1.2) in
  r.1.1 = true
  ∧ Workflow.status r.1.2 = WorkflowStatus.COMPLETED
  ∧ map Task.id tasks'
    = [workflow_id +:+ "-req-analysis"; workflow_id +:+ "-arch-planning";
       workflow_id +:+ "-template-selection";
       workflow_id +:+ "-code-generation"; workflow_id +:+ "-testing";
       workflow_id +:+ "-deployment"]
  ∧ map Task.status tasks' = replicate 6 TaskStatus.COMPLETED
  ∧ map Task.attempt_count tasks' = replicate 6 1
  ∧ ∃ snapshot,
      main title workflow_id entropy = (true, Some snapshot)
      ∧ Snapshot.workflow_id snapshot = workflow_id
      ∧ Snapshot.status snapshot = "completed"%string
      ∧ (Snapshot.progress snapshot == 100)%Q
      ∧ Snapshot.total_stages snapshot = 3
      ∧ Snapshot.error_details snapshot = None.
Proof.
  intros workflow r tasks'.
  destruct (factory_workflow_ready title workflow_id project_id requirements
              app_type entropy) as [Hserved Hready].
  destruct (ordered_run workflow (main_orchestrator entropy) Hserved Hready)
    as [Hok Hdone].
  pose proof (execute_workflow_exit workflow (main_orchestrator entropy))
    as Hx.
  cbn zeta in Hx. fold r in Hok, Hdone, Hx. rewrite Hok in Hx.
  destruct Hx as (Hst & _ & _).
  destruct (completed_once_columns _ _ (stages_completed_flat _ _ Hdone))
    as (Hids & Hstatuses & Hcounts).
  split; [exact Hok|]. split; [exact Hst|].
  split; [exact Hids|]. split; [exact Hstatuses|]. split; [exact Hcounts|].
  (* the driver *)
  clear Hserved Hready Hok Hdone Hst Hids Hstatuses Hcounts.
  clear workflow r tasks'.
  unfold main.
  set (workflow := WorkflowFactory.create_fullstack_app_workflow _ _ _ _ _).
  destruct (factory_workflow_ready title workflow_id "proj-001"
              [("type", VStr "e-commerce");
               ("features",
                VList [VStr "user_auth"; VStr "product_catalog";
                       VStr "shopping_cart"]);
               ("tech_stack", VStr "react_node_postgres")]
              "ecommerce" entropy) as [Hserved Hready].
  fold workflow in Hserved, Hready.
  destruct (ordered_run workflow (main_orchestrator entropy) Hserved Hready)
    as [Hok Hdone].
  pose proof (execute_workflow_exit workflow (main_orchestrator entropy))
    as Hx.
  destruct (execute_workflow_run workflow (main_orchestrator entropy))
    as (_ & _ & Ha & Hid & _).
  cbn zeta in Hx. rewrite Hok in Hx. destruct Hx as (Hst & _ & Herr).
  destruct (completed_once_progress _ _ Hdone) as [Hcompleted Htotal].
  destruct (execute_workflow workflow (main_orchestrator entropy))
    as [[success workflow'] o'].
  cbn [fst snd] in *. subst success.
  destruct (get_workflow_status_active (Workflow.id workflow') workflow' o')
    as (snapshot & Hq & Hwid & Hstatus & Htot & _ & _ & Herr' & Hprog).
  { rewrite Ha, Hid. apply lookup_insert_eq. }
  exists snapshot. split; [rewrite Hq; reflexivity|].
  split; [rewrite Hwid, Hid; reflexivity|].
  split; [rewrite Hstatus, Hst; reflexivity|].
  split.
  { rewrite Hprog. unfold total_tasks. rewrite Htotal, Hcompleted.
    vm_compute. reflexivity. }
  split.
  { rewrite Htot, <- (Forall2_length _ _ _ Hdone). reflexivity. }
  rewrite Herr', Herr. reflexivity.
Qed.

End Factory.

(** ** Parallel stages *)

Section Parallel.
Import WorkflowOrchestrator.






End Parallel.

(** ** What a dispatch leaves in the trace and on the task *)

Section DispatchFacts.
Import WorkflowOrchestrator.

Lemma occurrences_log (P : Effect → bool) (e : Effect) (o : t) :
  occurrences P (effects (log e o))
  = (occurrences P (effects o) + if P e then 1 else 0)%nat.
Proof.
  unfold log. cbn. rewrite occurrences_app, occurrences_singleton.
  reflexivity.
Qed.






End DispatchFacts.

(** ** The events of a run *)

Section RunEvents.
Import WorkflowOrchestrator.

Lemma stage_loop_stage_events (todo : list WorkflowStage.t) :
  ∀ stage_index workflow o,
    let r := stage_loop stage_index todo workflow o in
    match r.1.1 with
    | Exhausted =>
        occurrences (is_publication "workflow.stage_completed") (effects r.2)
        = (occurrences (is_publication "workflow.stage_completed") (effects o)
           + length todo)%nat
    | ReturnedFalse =>
        ∃ k, Workflow.current_stage r.1.2 = Z.of_nat k
             ∧ (stage_index ≤ k)%nat
             ∧ occurrences (is_publication "workflow.stage_completed")
                 (effects r.2)
               = (occurrences (is_publication "workflow.stage_completed")
                    (effects o)
                  + (k - stage_index))%nat
    end.
Proof.
  induction todo as [|stage rest IH]; intros i w o.
  - cbn. lia.
  - rewrite stage_loop_unfold. cbn zeta.
    set (w0 := Workflow.set_current_stage (Z.of_nat i) w).
    pose proof (execute_stage_publications w0 "workflow.stage_completed"
                  stage o ltac:(discriminate) ltac:(discriminate)) as Hp.
    set (r := _execute_stage w0 stage o) in *.
    destruct (negb r.1.1 && _).
    + cbn [fst snd]. exists i. split; [reflexivity|]. split; [lia|].
      rewrite Hp. lia.
    + set (w1 := Workflow.set_stages _ w0).
      set (o1 := publish _ _ r.2).
      assert (occurrences (is_publication "workflow.stage_completed")
                (effects o1)
              = S (occurrences (is_publication "workflow.stage_completed")
                     (effects o))) as H1.
      { subst o1.
        rewrite occurrences_publish by apply ignores_deliveries_publication.
        cbn [is_publication]. rewrite Hp. cbn. lia. }
      specialize (IH (S i) w1 o1). cbn zeta in IH.
      destruct (stage_loop (S i) rest w1 o1).1.1.
      * rewrite IH, H1. cbn [length]. lia.
      * destruct IH as (k & Hk & Hle & Hocc). exists k.
        split; [exact Hk|]. split; [lia|]. rewrite Hocc, H1. lia.
Qed.

(** X12.  The events of a run.  Every run publishes [workflow.started]
    once; it publishes [workflow.completed] once when it returns [True] and
    not at all when it returns [False]; and it publishes
    [workflow.stage_completed] once for each stage when it returns [True],
    and once for each stage before the one it stopped at when it returns
    [False]. *)
Theorem run_events (workflow : Workflow.t) (o : t) :
  let r := execute_workflow workflow o in
  occurrences (is_publication "workflow.started") (effects r.2)
  = S (occurrences (is_publication "workflow.started") (effects o))
  ∧ occurrences (is_publication "workflow.completed") (effects r.2)
    = (occurrences (is_publication "workflow.completed") (effects o)
       + if r.1.1 then 1 else 0)%nat
  ∧ occurrences (is_publication "workflow.stage_completed") (effects r.2)
    = (occurrences (is_publication "workflow.stage_completed") (effects o)
       + if r.1.1 then length (Workflow.stages workflow)
         else Z.to_nat (Workflow.current_stage r.1.2))%nat.
Proof.
  cbn zeta. rewrite execute_workflow_unfold. cbn zeta.
  set (w1 := Workflow.set_started_at _ _).
  set (o1 := publish _ _ _).
  assert (∀ event_type,
            occurrences (is_publication event_type) (effects o1)
            = (occurrences (is_publication event_type) (effects o)
               + if String.eqb "workflow.started" event_type then 1 else 0)%nat)
    as H1.
  { intros event_type. subst o1.
    rewrite occurrences_publish by apply ignores_deliveries_publication.
    reflexivity. }
  pose proof (stage_loop_publications "workflow.started"
                (Workflow.stages w1) ltac:(discriminate) ltac:(discriminate)
                ltac:(discriminate) O w1 o1) as Hs.
  pose proof (stage_loop_publications "workflow.completed"
                (Workflow.stages w1) ltac:(discriminate) ltac:(discriminate)
                ltac:(discriminate) O w1 o1) as Hc.
  pose proof (stage_loop_stage_events (Workflow.stages w1) O w1 o1) as He.
  cbn zeta in He.
  set (r := stage_loop 0 _ w1 o1) in *.
  rewrite (H1 "workflow.started") in Hs.
  rewrite (H1 "workflow.completed") in Hc.
  rewrite (H1 "workflow.stage_completed") in He.
  cbn [String.eqb Ascii.eqb Bool.eqb] in Hs, Hc, He.
  destruct r.1.1; cbn [fst snd].
  - unfold store_workflow. cbn [effects set_active_workflows].
    rewrite !occurrences_publish by apply ignores_deliveries_publication.
    cbn [now snd effects set_clock is_publication].
    rewrite Hs, Hc, He.
    change (Workflow.stages w1) with (Workflow.stages workflow).
    cbn [String.eqb Ascii.eqb Bool.eqb]. repeat split; lia.
  - unfold store_workflow. cbn [effects set_active_workflows].
    destruct He as (k & Hk & _ & He).
    rewrite Hs, Hc, He, Hk, Nat2Z.id. repeat split; lia.
Qed.

End RunEvents.

(** ** The error log of the bus during a run *)

Section ErrorLog.
Import WorkflowOrchestrator.

Variable bus : EventBus.t.
Hypothesis bus_answers : answers bus.

Ltac keys_present :=
  unfold carries_keys; repeat (split || intros);
  first [discriminate | reflexivity].

Lemma deliveries_without_error (data : Payload)
    (callbacks : list EventBus.Callback) :
  Forall (λ callback, EventBus.call callback data = EventBus.Returned)
    callbacks →
  occurrences is_log_error (flat_map (delivery data) callbacks) = O.
Proof.
  induction 1 as [|callback rest Hr _ IH]; [reflexivity|].
  cbn [flat_map]. rewrite occurrences_app, IH.
  unfold delivery. rewrite Hr. reflexivity.
Qed.

Lemma publish_without_error (event_type : string) (data : Payload) (o : t) :
  event_bus o = bus →
  carries_keys event_type data →
  occurrences is_log_error (effects (publish event_type data o))
  = occurrences is_log_error (effects o).
Proof.
  intros Hb Hk. rewrite publish_unfold. cbn [effects set_effects].
  rewrite occurrences_app.
  change (Published event_type data :: ?l)
    with ([Published event_type data] ++ l).
  rewrite occurrences_app, occurrences_singleton, Hb.
  rewrite deliveries_without_error by (apply bus_answers, Hk).
  cbn. lia.
Qed.

Lemma execute_task_without_error (workflow : Workflow.t) (task : Task.t)
    (o : t) :
  event_bus o = bus →
  occurrences is_log_error (effects (_execute_task workflow task o).2)
  = occurrences is_log_error (effects o).
Proof.
  revert task o.
  apply (execute_task_ind workflow (λ task o r,
    event_bus o = bus →
    occurrences is_log_error (effects r.2)
    = occurrences is_log_error (effects o))).
  - intros task o result _ Hb. unfold Attempt.succeed. cbn.
    rewrite publish_without_error;
      [|exact Hb|keys_present].
    cbn. rewrite occurrences_app, occurrences_singleton. cbn. lia.
  - intros task o e _ _ Hb. unfold Attempt.abandon. cbn.
    rewrite publish_without_error;
      [|exact Hb|keys_present].
    cbn. rewrite occurrences_app, occurrences_singleton. cbn. lia.
  - intros task o e r _ _ IH Hb.
    destruct (back_off_state
                (Task.set_error_details (Some e) (Attempt.start task o).1)
                (Attempt.start task o).2) as ((Hb' & _) & _ & _ & _ & delay & He).
    rewrite IH by (rewrite Hb'; exact Hb).
    rewrite He. cbn. rewrite !occurrences_app, !occurrences_singleton.
    cbn. lia.
Qed.

Lemma sequential_without_error (workflow : Workflow.t)
    (tasks : list Task.t) :
  ∀ o,
    event_bus o = bus →
    occurrences is_log_error
      (effects (_execute_tasks_sequential workflow tasks o).2)
    = occurrences is_log_error (effects o).
Proof.
  induction tasks as [|task rest IH]; intros o Hb;
    cbn [_execute_tasks_sequential]; [reflexivity|].
  destruct (_can_execute_task task o); cbn [negb].
  - pose proof (execute_task_without_error workflow task o Hb) as Hp.
    pose proof (execute_task_frame workflow task o) as ((Hb' & _) & _).
    destruct (_execute_task workflow task o) as [[success task'] o'].
    cbn [fst snd] in Hp, Hb'. destruct success; cbn [negb]; [|exact Hp].
    specialize (IH o' ltac:(congruence)).
    destruct (_execute_tasks_sequential workflow rest o')
      as [[result rest'] o''].
    cbn [fst snd] in IH |- *. congruence.
  - specialize (IH o Hb).
    destruct (_execute_tasks_sequential workflow rest o)
      as [[result rest'] o''].
    exact IH.
Qed.

Lemma gather_without_error (workflow : Workflow.t)
    (eligible : Task.t → bool) (tasks : list Task.t) :
  ∀ o,
    event_bus o = bus →
    occurrences is_log_error (effects (gather workflow eligible tasks o).2)
    = occurrences is_log_error (effects o).
Proof.
  induction tasks as [|task rest IH]; intros o Hb; cbn [gather];
    [reflexivity|].
  destruct (eligible task).
  - pose proof (execute_task_without_error workflow task o Hb) as Hp.
    pose proof (execute_task_frame workflow task o) as ((Hb' & _) & _).
    destruct (_execute_task workflow task o) as [[result task'] o'].
    cbn [fst snd] in Hp, Hb'.
    specialize (IH o' ltac:(congruence)).
    destruct (gather workflow eligible rest o') as [[results rest'] o''].
    cbn [fst snd] in IH |- *. congruence.
  - specialize (IH o Hb).
    destruct (gather workflow eligible rest o) as [[results rest'] o''].
    exact IH.
Qed.

Lemma execute_stage_without_error (workflow : Workflow.t)
    (stage : WorkflowStage.t) (o : t) :
  event_bus o = bus →
  occurrences is_log_error (effects (_execute_stage workflow stage o).2)
  = occurrences is_log_error (effects o).
Proof.
  intros Hb. unfold _execute_stage, _execute_tasks_parallel.
  destruct (WorkflowStage.parallel_execution stage).
  - destruct (List.filter _ _) as [|first others]; [reflexivity|].
    pose proof (gather_without_error workflow
                  (λ task, _can_execute_task task o)
                  (WorkflowStage.tasks stage) o Hb) as H.
    destruct (gather workflow _ _ o) as [[results tasks'] o'].
    exact H.
  - pose proof (sequential_without_error workflow
                  (WorkflowStage.tasks stage) o Hb) as H.
    destruct (_execute_tasks_sequential workflow _ o)
      as [[result tasks'] o'].
    exact H.
Qed.

Lemma stage_loop_without_error (todo : list WorkflowStage.t) :
  ∀ stage_index workflow o,
    event_bus o = bus →
    occurrences is_log_error
      (effects (stage_loop stage_index todo workflow o).2)
    = occurrences is_log_error (effects o).
Proof.
  induction todo as [|stage rest IH]; intros i w o Hb; [reflexivity|].
  rewrite stage_loop_unfold. cbn zeta.
  set (w0 := Workflow.set_current_stage (Z.of_nat i) w).
  pose proof (execute_stage_without_error w0 stage o Hb) as Hp.
  destruct (execute_stage_pass w0 stage o) as (((Hb' & _) & _) & _).
  set (r := _execute_stage w0 stage o) in *.
  destruct (negb r.1.1 && _); [exact Hp|].
  rewrite IH.
  - rewrite publish_without_error;
      [exact Hp|congruence|keys_present].
  - rewrite publish_unfold. cbn. congruence.
Qed.

Lemma execute_workflow_without_error (workflow : Workflow.t) (o : t) :
  event_bus o = bus →
  occurrences is_log_error (effects (execute_workflow workflow o).2)
  = occurrences is_log_error (effects o).
Proof.
  intros Hb. rewrite execute_workflow_unfold. cbn zeta.
  set (w1 := Workflow.set_started_at _ _).
  set (o1 := publish _ _ _).
  assert (event_bus o1 = bus) as Hb1.
  { subst o1. rewrite publish_unfold. exact Hb. }
  assert (occurrences is_log_error (effects o1)
          = occurrences is_log_error (effects o)) as H1.
  { subst o1. rewrite publish_without_error;
      [reflexivity|exact Hb|keys_present]. }
  pose proof (stage_loop_without_error (Workflow.stages w1) O w1 o1 Hb1)
    as H2.
  destruct (stage_loop_stages (Workflow.stages w1) O w1 o1 [] eq_refl eq_refl)
    as (((Hb' & _) & _) & _).
  set (r := stage_loop 0 _ w1 o1) in *.
  destruct r.1.1; cbn [fst snd].
  - unfold store_workflow. cbn [effects set_active_workflows].
    rewrite publish_without_error;
      [|exact (eq_trans Hb' Hb1)|keys_present].
    exact (eq_trans H2 H1).
  - unfold store_workflow. cbn [effects set_active_workflows].
    exact (eq_trans H2 H1).
Qed.

End ErrorLog.

Section ErrorLogOfRun.
Import WorkflowOrchestrator.

Lemma own_handlers_answer (event_bus : EventBus.t) (entropy : nat → Q) :
  answers event_bus →
  answers (WorkflowOrchestrator.event_bus (init event_bus entropy)).
Proof.
  intros Ha event_type data Hk. cbn [init WorkflowOrchestrator.event_bus].
  pose proof (Ha event_type data Hk) as Hold.
  destruct Hk as (Hc & Hf & Hu).
  destruct (decide (event_type = "agent.unavailable"%string)) as [->|Nu].
  { rewrite registered_subscribe_same, !registered_subscribe_other
      by discriminate.
    apply Forall_app. split; [exact Hold|].
    repeat constructor. cbn. rewrite Hu; reflexivity. }
  rewrite registered_subscribe_other by congruence.
  destruct (decide (event_type = "task.failed"%string)) as [->|Nf].
  { rewrite registered_subscribe_same, registered_subscribe_other
      by discriminate.
    apply Forall_app. split; [exact Hold|].
    destruct (Hf eq_refl) as [H1 H2].
    repeat constructor. cbn. rewrite H1, H2. reflexivity. }
  rewrite registered_subscribe_other by congruence.
  destruct (decide (event_type = "task.completed"%string)) as [->|Nc].
  { rewrite registered_subscribe_same.
    apply Forall_app. split; [exact Hold|].
    repeat constructor. cbn. rewrite Hc; reflexivity. }
  rewrite registered_subscribe_other by congruence. exact Hold.
Qed.

Lemma empty_bus_answers : answers EventBus.init.
Proof. intros event_type data _. constructor. Qed.

(** X13.  On a bus none of whose subscribers raises on an event that
    carries the keys the orchestrator's handlers read, a run of a workflow
    writes nothing to the error log of the bus: every event the run
    publishes ([workflow.started], [task.completed], [task.failed],
    [workflow.stage_completed], [workflow.completed]) carries those keys. *)
Theorem run_leaves_error_log (workflow : Workflow.t) (o : t) :
  answers (event_bus o) →
  occurrences is_log_error (effects (execute_workflow workflow o).2)
  = occurrences is_log_error (effects o).
Proof.
  intros Ha.
  exact (execute_workflow_without_error (event_bus o) Ha workflow o eq_refl).
Qed.

(** X13 for the orchestrator constructed on an empty bus, which holds the
    constructor's three handlers and nothing else: the strict workflow,
    whose first task fails every attempt, leaves the error log empty. *)
Lemma run_leaves_error_log_witness :
  answers (event_bus Scenario.orchestrator)
  ∧ occurrences is_log_error (effects Scenario.first_run.2) = O.
Proof.
  assert (answers (event_bus Scenario.orchestrator)) as Ha.
  { exact (own_handlers_answer EventBus.init _ empty_bus_answers). }
  split; [exact Ha|].
  exact (run_leaves_error_log Scenario.strict_workflow Scenario.orchestrator
           Ha).
Defined.

End ErrorLogOfRun.

(** ** What a run leaves alone *)

Section RunFrame.
Import WorkflowOrchestrator.

Lemma slot_outcome_definition (o_end : t) (task task' : Task.t) :
  slot_outcome o_end task task' → same_definition task task'.
Proof.
  intros [->|(workflow & o_gate & o_run & _ & _ & ->)].
  - apply same_definition_refl.
  - apply execute_task_same_definition.
Qed.

Lemma stage_outcome_definition (o_end : t) (stage stage' : WorkflowStage.t) :
  stage_outcome o_end stage stage' → same_stage_definition stage stage'.
Proof.
  intros (Hn & Hp & Hf & Hs). repeat split; [exact Hn|exact Hp|exact Hf|].
  eapply Forall2_impl; [exact Hs|]. apply slot_outcome_definition.
Qed.

(** X14.  What a run leaves alone.  Running a workflow never changes the
    event bus or the registered agents; in the registry of workflows it
    writes the entry of the workflow's own id, which then holds the workflow
    as the run returns it, and no other entry; and it never edits the
    definition of the workflow: id, name, project and metadata, the number
    and order of the stages, their names, modes and failure strategies, and
    of every task the id, name, agent type, input, dependencies, timeout,
    retry policy and estimated duration are after the run what they were
    before it. *)
Theorem run_keeps_definitions (workflow : Workflow.t) (o : t) :
  let r := execute_workflow workflow o in
  event_bus r.2 = event_bus o
  ∧ agents r.2 = agents o
  ∧ active_workflows r.2 !! Workflow.id workflow = Some r.1.2
  ∧ (∀ workflow_id,
       workflow_id ≠ Workflow.id workflow →
       active_workflows r.2 !! workflow_id
       = active_workflows o !! workflow_id)
  ∧ Workflow.id r.1.2 = Workflow.id workflow
  ∧ Workflow.name r.1.2 = Workflow.name workflow
  ∧ Workflow.project_id r.1.2 = Workflow.project_id workflow
  ∧ Workflow.metadata r.1.2 = Workflow.metadata workflow
  ∧ Forall2 same_stage_definition (Workflow.stages workflow)
      (Workflow.stages r.1.2).
Proof.
  intros r.
  destruct (execute_workflow_run workflow o)
    as ((Hb & Hag & _) & _ & Ha & Hid & Hname & Hproj & Hmeta & _ & Hs).
  fold r in Hb, Hag, Ha, Hid, Hname, Hproj, Hmeta, Hs.
  split; [exact Hb|]. split; [exact Hag|].
  split; [rewrite Ha; apply lookup_insert_eq|].
  split.
  { intros workflow_id Hne. rewrite Ha. apply lookup_insert_ne. congruence. }
  split; [exact Hid|]. split; [exact Hname|]. split; [exact Hproj|].
  split; [exact Hmeta|].
  eapply Forall2_impl; [exact Hs|]. apply stage_outcome_definition.
Qed.

End RunFrame.

(** ** The dependency gate of a sequential stage *)

Section SequentialGate.
Import WorkflowOrchestrator.

Lemma gate_closed (task : Task.t) (d : string) (o : t) :
  d ∈ Task.dependencies task →
  task_results o !! d = None →
  _can_execute_task task o = false.
Proof.
  intros Hin Hnone. destruct (_can_execute_task task o) eqn:Eg; [|reflexivity].
  apply (dependencies_recorded_elem _ _ d) in Eg; [|exact Hin].
  rewrite Hnone in Eg. destruct Eg as [? ?]. discriminate.
Qed.

Lemma dispatch_records_own_id (workflow : Workflow.t) (task : Task.t)
    (d : string) (o : t) :
  d ≠ Task.id task →
  task_results (_execute_task workflow task o).2 !! d = task_results o !! d.
Proof.
  intros Hne.
  destruct (execute_task_state workflow task o) as (_ & _ & _ & Hr).
  destruct (_execute_task workflow task o).1.1.
  - destruct Hr as (result & _ & ->). apply lookup_insert_ne. congruence.
  - rewrite Hr. reflexivity.
Qed.

(** X15.  The gate of a sequential stage looks back only.  A task one of
    whose dependencies is neither recorded when the pass begins nor the id
    of a task earlier in the list is skipped, whatever comes after it in
    the list; and the skip is silent: the verdict of the pass, the state it
    ends in and what it does to every other task are those of the pass over
    the list without the task. *)
Theorem sequential_gate_looks_back (workflow : Workflow.t)
    (pre post : list Task.t) (task : Task.t) (d : string) (o : t) :
  d ∈ Task.dependencies task →
  task_results o !! d = None →
  d ∉ map Task.id pre →
  let r := _execute_tasks_sequential workflow (pre ++ task :: post) o in
  let r' := _execute_tasks_sequential workflow (pre ++ post) o in
  r.1.1 = r'.1.1
  ∧ r.2 = r'.2
  ∧ r.1.2 = take (length pre) r'.1.2 ++ task :: drop (length pre) r'.1.2.
Proof.
  intros Hin. revert o.
  induction pre as [|p pre IH]; intros o Hnone Hpre; cbn zeta.
  - cbn [app _execute_tasks_sequential length take drop].
    rewrite (gate_closed task d o Hin Hnone). cbn [negb].
    destruct (_execute_tasks_sequential workflow post o)
      as [[result rest] o'].
    repeat split.
  - cbn [map] in Hpre. apply not_elem_of_cons in Hpre as [Hne Hpre].
    cbn [app _execute_tasks_sequential length].
    destruct (_can_execute_task p o); cbn [negb].
    + pose proof (dispatch_records_own_id workflow p d o Hne) as Hd.
      destruct (_execute_task workflow p o) as [[success p'] o'].
      cbn [fst snd] in Hd.
      destruct success; cbn [negb].
      * specialize (IH o' ltac:(congruence) Hpre). cbn zeta in IH.
        destruct (_execute_tasks_sequential workflow (pre ++ task :: post) o')
          as [[result rest] o''].
        destruct (_execute_tasks_sequential workflow (pre ++ post) o')
          as [[result' rest'] o'''].
        cbn [fst snd] in IH |- *. destruct IH as (-> & -> & ->).
        repeat split.
      * cbn [fst snd take drop]. repeat split.
        rewrite take_app_length, drop_app_length. reflexivity.
    + specialize (IH o Hnone Hpre). cbn zeta in IH.
      destruct (_execute_tasks_sequential workflow (pre ++ task :: post) o)
        as [[result rest] o''].
      destruct (_execute_tasks_sequential workflow (pre ++ post) o)
        as [[result' rest'] o'''].
      cbn [fst snd] in IH |- *. destruct IH as (-> & -> & ->).
      repeat split.
Qed.

(** X15 at the stage whose first task depends on its second: the first
    task is left as it was, the second completes, and the pass reports
    success. *)
Lemma sequential_gate_looks_back_witness :
  let r := _execute_tasks_sequential Scenario.producer_workflow
             (WorkflowStage.tasks Scenario.backwards_stage)
             Scenario.orchestrator in
  r.1.1 = true
  ∧ r.1.2 !! O = Some (Scenario.working_task "t2" ["t1"])
  ∧ is_Some (task_results r.2 !! "t1").
Proof.
  cbn zeta.
  destruct (sequential_gate_looks_back Scenario.producer_workflow []
              [Scenario.working_task "t1" []]
              (Scenario.working_task "t2" ["t1"]) "t1" Scenario.orchestrator)
    as (H1 & H2 & H3).
  - cbn. apply list_elem_of_here.
  - vm_compute. reflexivity.
  - cbn. apply not_elem_of_nil.
  - change (WorkflowStage.tasks Scenario.backwards_stage)
      with ([] ++ Scenario.working_task "t2" ["t1"]
               :: [Scenario.working_task "t1" []]).
    rewrite H1, H2, H3.
    split; [vm_compute; reflexivity|].
    split; [reflexivity|].
    vm_compute. eexists. reflexivity.
Defined.

End SequentialGate.

(** ** The time a dispatch waits *)

Section Waiting.
Import WorkflowOrchestrator.
Open Scope Q_scope.

Lemma time_slept_app (l1 l2 : list Effect) :
  time_slept (l1 ++ l2) == time_slept l1 + time_slept l2.
Proof.
  induction l1 as [|e l1 IH]; cbn [app time_slept]; [lra|].
  destruct e; rewrite IH; lra.
Qed.

Lemma time_slept_deliveries (data : Payload)
    (callbacks : list EventBus.Callback) :
  time_slept (flat_map (delivery data) callbacks) == 0.
Proof.
  induction callbacks as [|callback rest IH]; cbn [flat_map]; [reflexivity|].
  rewrite time_slept_app, IH. unfold delivery.
  destruct (EventBus.call callback data); cbn; lra.
Qed.

Lemma time_slept_publish (event_type : string) (data : Payload) (o : t) :
  time_slept (effects (publish event_type data o)) == time_slept (effects o).
Proof.
  rewrite publish_unfold. cbn [effects set_effects].
  rewrite time_slept_app. cbn [time_slept].
  rewrite time_slept_deliveries. lra.
Qed.

Lemma back_off_effects (task : Task.t) (o : t) :
  effects (Attempt.back_off task o).2
  = effects o
    ++ [Slept (_calculate_retry_delay
                 (Task.set_status TaskStatus.RETRYING task) o).1].
Proof.
  unfold Attempt.back_off, _calculate_retry_delay, random.
  cbn. destruct (RetryPolicy.jitter (Task.retry_policy task)); reflexivity.
Qed.

Lemma retry_delay_at_most (task : Task.t) (o : t) :
  0 <= entropy o (draws o) < 1 →
  (0 ≤ RetryPolicy.max_delay (Task.retry_policy task))%Z →
  (_calculate_retry_delay task o).1
  <= inject_Z (RetryPolicy.max_delay (Task.retry_policy task)).
Proof.
  intros [H0 H1] Hm.
  assert (0 <= inject_Z (RetryPolicy.max_delay (Task.retry_policy task)))
    as Hm' by (change 0 with (inject_Z 0); rewrite <- Zle_Qle; exact Hm).
  assert (clamped_delay (Task.retry_policy task) (Task.attempt_count task)
          <= inject_Z (RetryPolicy.max_delay (Task.retry_policy task)))
    as Hc.
  { unfold clamped_delay.
    destruct (Qle_bool _ _) eqn:E; [apply Qle_bool_iff, E|apply Qle_refl]. }
  unfold _calculate_retry_delay, random.
  destruct (RetryPolicy.jitter (Task.retry_policy task)); cbn [fst];
    [|exact Hc].
  set (c := clamped_delay _ _) in *. set (r := entropy o (draws o)) in *.
  destruct (Qlt_le_dec c 0); nra.
Qed.

(** X16.  The time a dispatch waits.  With draws in [0, 1) and a limit
    [max_delay] that is not negative, no suspension between two attempts
    lasts longer than [max_delay], whatever the strategy and the base delay:
    the time a dispatch spends suspended is at most [max_delay] times the
    number of attempts less one. *)
Theorem dispatch_waiting_bounded (workflow : Workflow.t) (task : Task.t)
    (o : t) :
  (∀ n, 0 <= entropy o n < 1) →
  (0 ≤ RetryPolicy.max_delay (Task.retry_policy task))%Z →
  let r := _execute_task workflow task o in
  time_slept (effects r.2)
  <= time_slept (effects o)
     + inject_Z ((Task.attempt_count r.1.2 - Task.attempt_count task - 1)
                 * RetryPolicy.max_delay (Task.retry_policy task)).
Proof.
  cbn zeta. revert task o.
  apply (execute_task_ind workflow (λ task o r,
    (∀ n, 0 <= entropy o n < 1) →
    (0 ≤ RetryPolicy.max_delay (Task.retry_policy task))%Z →
    time_slept (effects r.2)
    <= time_slept (effects o)
       + inject_Z ((Task.attempt_count r.1.2 - Task.attempt_count task - 1)
                   * RetryPolicy.max_delay (Task.retry_policy task)))).
  - intros task o result _ _ _. unfold Attempt.succeed.
    cbn [fst snd now]. rewrite time_slept_publish. cbn.
    rewrite time_slept_app. cbn [time_slept].
    replace (Task.attempt_count task + 1 - Task.attempt_count task - 1)%Z
      with 0%Z by lia.
    rewrite Z.mul_0_l. change (inject_Z 0) with 0. lra.
  - intros task o e _ _ _ _. unfold Attempt.abandon.
    cbn [fst snd now]. rewrite time_slept_publish. cbn.
    rewrite time_slept_app. cbn [time_slept].
    replace (Task.attempt_count task + 1 - Task.attempt_count task - 1)%Z
      with 0%Z by lia.
    rewrite Z.mul_0_l. change (inject_Z 0) with 0. lra.
  - intros task o e r _ _ IH He Hm.
    set (task1 := Task.set_error_details (Some e) (Attempt.start task o).1)
      in *.
    set (o1 := (Attempt.start task o).2) in *.
    destruct (back_off_state task1 o1) as ((_ & _ & Hen) & _).
    pose proof (back_off_effects task1 o1) as Hef.
    rewrite back_off_task in IH.
    assert (entropy o1 = entropy o) as Hen1 by reflexivity.
    assert (Task.retry_policy
              (Task.set_status TaskStatus.RETRYING task1)
            = Task.retry_policy task) as Hp by reflexivity.
    assert (Task.attempt_count
              (Task.set_status TaskStatus.RETRYING task1)
            = (Task.attempt_count task + 1)%Z) as Ha by reflexivity.
    assert (effects o1
            = effects o
              ++ [LogExecuting (Task.id task) (Task.attempt_count task + 1)])
      as Hef1 by reflexivity.
    rewrite Hp, Ha in IH.
    specialize (IH ltac:(intros n; rewrite Hen, Hen1; apply He) Hm).
    pose proof (retry_delay_at_most
                  (Task.set_status TaskStatus.RETRYING task1) o1
                  ltac:(rewrite Hen1; apply He)
                  ltac:(rewrite Hp; exact Hm)) as Hd.
    rewrite Hp in Hd.
    set (delay := (_calculate_retry_delay _ o1).1) in *.
    rewrite Hef, Hef1, !time_slept_app in IH. cbn [time_slept] in IH.
    set (M := RetryPolicy.max_delay (Task.retry_policy task)) in *.
    set (k := (Task.attempt_count r.1.2 - Task.attempt_count task - 1)%Z).
    replace (Task.attempt_count r.1.2 - (Task.attempt_count task + 1) - 1)%Z
      with (k - 1)%Z in IH by (subst k; lia).
    assert (inject_Z (k * M) == inject_Z ((k - 1) * M) + inject_Z M) as Hk.
    { rewrite <- inject_Z_plus. replace ((k - 1) * M + M)%Z with (k * M)%Z
        by lia. reflexivity. }
    assert (Qmax 0 delay <= inject_Z M) as Hmax.
    { apply Q.max_lub; [|exact Hd].
      change 0 with (inject_Z 0). rewrite <- Zle_Qle. exact Hm. }
    rewrite Hk. lra.
Qed.

(** X16 at the failing task of the scenario under the default policy (three
    attempts, limit 300, every draw one half): its two suspensions together
    last at most 600 seconds. *)
Lemma dispatch_waiting_bounded_witness :
  time_slept
    (effects (_execute_task Scenario.strict_workflow
                (Scenario.failing_task "t1") Scenario.orchestrator).2)
  <= 600.
Proof.
  pose proof (dispatch_waiting_bounded Scenario.strict_workflow
                (Scenario.failing_task "t1") Scenario.orchestrator) as H.
  cbn zeta in H.
  assert (∀ n : nat, 0 <= entropy Scenario.orchestrator n < 1) as He.
  { intros n. split; [discriminate|reflexivity]. }
  specialize (H He ltac:(cbn; lia)).
  eapply Qle_trans; [exact H|]. vm_compute. discriminate.
Defined.

End Waiting.

(** ** Why a run fails *)

Section RunFailure.
Import WorkflowOrchestrator.








End RunFailure.

(** ** Pause and resume, composed *)

Section PauseResume.
Import WorkflowOrchestrator.

Lemma pause_workflow_active (workflow_id : string) (workflow : Workflow.t)
    (o : t) :
  active_workflows o !! workflow_id = Some workflow →
  pause_workflow workflow_id o
  = set_active_workflows
      (<[workflow_id := Workflow.set_status WorkflowStatus.PAUSED workflow]>
         (active_workflows o)) o.
Proof. intros Hw. unfold pause_workflow. rewrite Hw. reflexivity. Qed.

Lemma resume_workflow_active (workflow_id : string) (workflow : Workflow.t)
    (o : t) :
  active_workflows o !! workflow_id = Some workflow →
  resume_workflow workflow_id o
  = set_active_workflows
      (<[workflow_id := resumed workflow]> (active_workflows o)) o.
Proof.
  intros Hw. unfold resume_workflow, resumed. rewrite Hw.
  destruct (decide _); [reflexivity|].
  rewrite insert_id by exact Hw. destruct o; reflexivity.
Qed.

(** X18.  Pause and resume, composed.  On a workflow of the active set,
    pause followed by resume leaves the workflow RUNNING whatever its status
    was (a completed, failed or cancelled workflow included) and changes
    nothing else, so that on a RUNNING workflow the pair is a round trip
    that gives back the orchestrator as it was; pausing twice is pausing
    once, resuming twice is resuming once, and a pause after a resume is a
    pause. *)
Theorem pause_resume_round_trip (workflow_id : string)
    (workflow : Workflow.t) (o : t) :
  active_workflows o !! workflow_id = Some workflow →
  resume_workflow workflow_id (pause_workflow workflow_id o)
  = set_active_workflows
      (<[workflow_id := Workflow.set_status WorkflowStatus.RUNNING workflow]>
         (active_workflows o)) o
  ∧ (Workflow.status workflow = WorkflowStatus.RUNNING →
     resume_workflow workflow_id (pause_workflow workflow_id o) = o)
  ∧ pause_workflow workflow_id (pause_workflow workflow_id o)
    = pause_workflow workflow_id o
  ∧ resume_workflow workflow_id (resume_workflow workflow_id o)
    = resume_workflow workflow_id o
  ∧ pause_workflow workflow_id (resume_workflow workflow_id o)
    = pause_workflow workflow_id o.
Proof.
  intros Hw.
  assert (resume_workflow workflow_id (pause_workflow workflow_id o)
          = set_active_workflows
              (<[workflow_id :=
                   Workflow.set_status WorkflowStatus.RUNNING workflow]>
                 (active_workflows o)) o) as Hpr.
  { rewrite (pause_workflow_active _ _ _ Hw).
    erewrite resume_workflow_active
      by (cbn [active_workflows set_active_workflows];
          apply lookup_insert_eq).
    cbn [active_workflows set_active_workflows].
    rewrite insert_insert_eq. unfold resumed.
    rewrite decide_True by reflexivity. reflexivity. }
  split; [exact Hpr|]. split; [|split; [|split]].
  - intros Hs. rewrite Hpr.
    replace (Workflow.set_status WorkflowStatus.RUNNING workflow)
      with workflow by (destruct workflow; cbn in Hs; subst; reflexivity).
    rewrite insert_id by exact Hw. destruct o; reflexivity.
  - rewrite (pause_workflow_active _ _ _ Hw).
    erewrite pause_workflow_active
      by (cbn [active_workflows set_active_workflows];
          apply lookup_insert_eq).
    cbn [active_workflows set_active_workflows].
    rewrite insert_insert_eq. reflexivity.
  - rewrite (resume_workflow_active _ _ _ Hw).
    erewrite resume_workflow_active
      by (cbn [active_workflows set_active_workflows];
          apply lookup_insert_eq).
    cbn [active_workflows set_active_workflows].
    rewrite insert_insert_eq. unfold resumed.
    destruct (decide (Workflow.status workflow = WorkflowStatus.PAUSED))
      as [Hp|Hp].
    + rewrite decide_False by (cbn; discriminate). reflexivity.
    + rewrite decide_False by exact Hp. reflexivity.
  - rewrite (resume_workflow_active _ _ _ Hw).
    erewrite pause_workflow_active
      by (cbn [active_workflows set_active_workflows];
          apply lookup_insert_eq).
    rewrite (pause_workflow_active _ _ _ Hw).
    cbn [active_workflows set_active_workflows].
    rewrite insert_insert_eq. unfold resumed.
    destruct (decide _); reflexivity.
Qed.

(** X18 after the strict workflow has failed: pause and resume turn the
    failed workflow into a running one. *)
Lemma pause_resume_round_trip_witness :
  status_of "w2"
    (resume_workflow "w2" (pause_workflow "w2" Scenario.first_run.2))
  = Some WorkflowStatus.RUNNING.
Proof.
  destruct (pause_resume_round_trip "w2" Scenario.first_run.1.2
              Scenario.first_run.2) as (H & _).
  - vm_compute. reflexivity.
  - rewrite H. unfold status_of.
    cbn [active_workflows set_active_workflows].
    rewrite lookup_insert_eq. reflexivity.
Defined.

End PauseResume.
